(** * The notebook front-end's state controller, embedded in Rocq

    Classes embedded here:
    - [MainStateController], the state controller of the interactive window;
    - [NativeEditorStateController], its subclass for the native editor;
    - [IpynbEditor] on the extension side ([load] and [file]).

    JavaScript numbers that count things (lengths, indices, lines, the
    controller's [currentExecutionCount]) are integers and are modelled in
    [Z]; the [execution_count] of a cell, which the controller prints and
    reads back, is a [Js.Number]; strings are [string], one character per
    UTF-16 code unit; [undefined] is [None].

    Cell view-models are values here.  Where the code writes into a
    view-model object in place ([newVMs[index].cell = cell] in [updateOrAdd],
    [alterCellVM] of the native editor), the write is made in the current
    cell list; that the same object may also sit in a snapshot on a stack is
    not tracked.  The two writes of the re-execution branch of [submitInput]
    go to the caller's object and are not shown at all.  A statement below
    that speaks of a snapshot after a call is therefore either about calls
    that make no such write, or about the number of the snapshots and their
    being arrays, which such a write leaves alone.

    [this.state] is written in the callback of [props.setState].  The
    methods are embedded with the callback run at once; [undoBatched] shows
    [undo] with the callback kept until the handler has returned, as React
    does for a click. *)

From Stdlib Require Import String Ascii List ZArith Bool Lia.
From Stdlib Require Import DecimalString DecimalPos.
Import ListNotations.
Local Open Scope string_scope.
Local Open Scope list_scope.
Local Open Scope Z_scope.

(** ** The fragment of JavaScript's Array and String the controller uses *)

Module Js.

(** [a.length] *)
Definition length {A} (l : list A) : Z := Z.of_nat (List.length l).

(** How [slice] reads a bound: negative bounds count from the end, and
    every bound is clamped to [0 .. len]. *)
Definition relative (len k : Z) : Z :=
  if k <? 0 then Z.max (len + k) 0 else Z.min k len.

(** [a.slice(b, e)] *)
Definition slice {A} (l : list A) (b e : Z) : list A :=
  let len := length l in
  let from := relative len b in
  let upto := relative len e in
  firstn (Z.to_nat (upto - from)) (skipn (Z.to_nat from) l).

(** [a[i]]: [None] is [undefined], also for an index outside the array. *)
Definition get {A} (l : list A) (i : Z) : option A :=
  if i <? 0 then None else nth_error l (Z.to_nat i).

Fixpoint findIndexFrom {A} (p : A -> bool) (l : list A) (i : Z) : Z :=
  match l with
  | [] => -1
  | x :: rest => if p x then i else findIndexFrom p rest (i + 1)
  end.

(** [a.findIndex(p)] *)
Definition findIndex {A} (p : A -> bool) (l : list A) : Z :=
  findIndexFrom p l 0.

(** [a.find(p)] *)
Definition find {A} (p : A -> bool) (l : list A) : option A := List.find p l.

(** [a[i] = f(a[i])] for an index inside the array; the controller only
    writes at an index that [findIndex] returned. *)
Fixpoint update {A} (l : list A) (i : nat) (f : A -> A) : list A :=
  match l, i with
  | [], _ => []
  | x :: rest, O => f x :: rest
  | x :: rest, S j => x :: update rest j f
  end.

(** [s.length] *)
Definition strlen (s : string) : Z := Z.of_nat (String.length s).

(** [s.slice(b, e)] *)
Definition strslice (s : string) (b e : Z) : string :=
  let len := strlen s in
  let from := relative len b in
  let upto := relative len e in
  substring (Z.to_nat from) (Z.to_nat (upto - from)) s.

Definition newline : ascii := "010"%char.

(** [s.split('\n', 1)[0]] for a non-empty [s]: the text before the first
    line feed (all of [s] when it has none). *)
Fixpoint splitFirst (s : string) : string :=
  match s with
  | EmptyString => EmptyString
  | String c rest =>
      if Ascii.eqb c newline then EmptyString else String c (splitFirst rest)
  end.

(** A finite number, in the form in which [Number::toString] of ECMAScript
    takes it apart: zero, or a sign and the integers [s] and [n] such that
    the number is [s * 10^(n - k)], where [k] is the number of decimal digits
    of [s] and [s] does not end in 0.  So 7 is [Finite false 7 1], 1.5 is
    [Finite false 15 1], 1200 is [Finite false 12 4] and 1e21 is
    [Finite false 1 22].  From 2^53 on not every integer is a number, and
    [s * 10^(n - k)] names the number it rounds to.  [NaN] and the infinities
    are left out: the numbers of a cell reach the controller in a message
    that [JSON.stringify] wrote, which has neither. *)
Inductive Number : Type :=
| Zero
| Finite (negative : bool) (s : positive) (n : Z).

(** A number as a condition: zero is falsy. *)
Definition truthy (x : Number) : bool :=
  match x with
  | Zero => false
  | Finite _ _ _ => true
  end.

(** The decimal digits of [s]. *)
Definition digitsOf (s : positive) : string :=
  NilZero.string_of_uint (Pos.to_uint s).

Fixpoint zeros (m : nat) : string :=
  match m with
  | O => ""
  | S m' => String "0" (zeros m')
  end.

(** The end of the exponent notation: [e], the sign of [n - 1] and its
    digits. *)
Definition exponentPart (n : Z) : string :=
  let e := n - 1 in
  let sign := if e <? 0 then "-" else "+" in
  String "e" (sign ++ NilZero.string_of_uint (N.to_uint (Z.to_N (Z.abs e))))%string.

(** [x.toString()], by the cases of [Number::toString]: the digits followed
    by zeros when [k <= n <= 21]; the digits with a point after the first [n]
    when [0 < n <= 21]; [0.] and zeros before the digits when [-6 < n <= 0];
    and the exponent notation otherwise, that is from 1e21 on and below
    1e-6. *)
Definition toString (x : Number) : string :=
  match x with
  | Zero => "0"
  | Finite negative s n =>
      let digits := digitsOf s in
      let k := strlen digits in
      let text :=
        if (k <=? n) && (n <=? 21) then
          (digits ++ zeros (Z.to_nat (n - k)))%string
        else if (0 <? n) && (n <=? 21) then
          (substring 0 (Z.to_nat n) digits ++ "."
           ++ substring (Z.to_nat n) (Z.to_nat (k - n)) digits)%string
        else if (-6 <? n) && (n <=? 0) then
          ("0." ++ zeros (Z.to_nat (- n)) ++ digits)%string
        else if k =? 1 then (digits ++ exponentPart n)%string
        else (substring 0 1 digits ++ "."
              ++ substring 1 (Z.to_nat (k - 1)) digits
              ++ exponentPart n)%string in
      if negative then String "-" text else text
  end.

(** White space that [parseInt] skips, among the characters of one byte. *)
Definition isWhiteSpace (c : ascii) : bool :=
  let code := Z.of_nat (nat_of_ascii c) in
  ((9 <=? code) && (code <=? 13)) || (code =? 32) || (code =? 160).

Fixpoint trimStart (s : string) : string :=
  match s with
  | String c rest => if isWhiteSpace c then trimStart rest else s
  | EmptyString => s
  end.

Definition digitOf (c : ascii) : option Z :=
  let code := Z.of_nat (nat_of_ascii c) in
  if (48 <=? code) && (code <=? 57) then Some (code - 48) else None.

(** The integer of the digits at the start of [s], after [acc]. *)
Fixpoint readDigits (s : string) (acc : Z) : Z :=
  match s with
  | String c rest =>
      match digitOf c with
      | Some d => readDigits rest (10 * acc + d)
      | None => acc
      end
  | EmptyString => acc
  end.

Definition readInteger (s : string) : option Z :=
  match s with
  | String c _ =>
      match digitOf c with
      | Some _ => Some (readDigits s 0)
      | None => None
      end
  | EmptyString => None
  end.

(** [parseInt(s, 10)]: white space is skipped, then a sign is read, then the
    digits up to the first character that is not one; [None] is [NaN], the
    result when no digit is there. *)
Definition parseInt (s : string) : option Z :=
  match trimStart s with
  | String "-" rest => option_map Z.opp (readInteger rest)
  | String "+" rest => readInteger rest
  | s' => readInteger s'
  end.


(** The integer that such a number is. *)
Definition valueOf (x : Number) : Z :=
  match x with
  | Zero => 0
  | Finite negative s n =>
      let k := strlen (digitsOf s) in
      let m := Z.pos s * 10 ^ (n - k) in
      if negative then - m else m
  end.

(** What [parseInt] finds in the text of [x], in arithmetic (lemma
    [parseInt_toString]): the integer part where the text has no exponent,
    and the first digit where it has one, with the sign. *)
Definition integerRead (x : Number) : Z :=
  match x with
  | Zero => 0
  | Finite negative s n =>
      let k := strlen (digitsOf s) in
      let m :=
        if (0 <? n) && (n <=? 21) then
          if k <=? n then Z.pos s * 10 ^ (n - k) else Z.pos s / 10 ^ (k - n)
        else if (-6 <? n) && (n <=? 0) then 0
        else Z.pos s / 10 ^ (k - 1) in
      if negative then - m else m
  end.

(** A string of decimal digits. *)
Fixpoint allDigits (s : string) : bool :=
  match s with
  | String c rest =>
      match digitOf c with
      | Some _ => allDigits rest
      | None => false
      end
  | EmptyString => true
  end.

End Js.

(** ** Cells and their view-models *)

(** [CellState]: the controller names [executing] and [finished]; the other
    members of the enumeration are kept by their number. *)
Inductive CellState : Type :=
| executing
| finished
| otherCellState (tag : Z).

(** [cell.data]: the notebook-format part of a cell.  [execution_count] is a
    number, and [None] when the field is [null] or missing. *)
Record ICellData : Type := mkCellData {
  cell_type : string;
  source : string;
  execution_count : option Js.Number;
  outputs : list string
}.

Record ICell : Type := mkCell {
  id : string;
  file : string;
  line : Z;
  state : CellState;
  data : ICellData
}.

Record ICellViewModel : Type := mkCellVM {
  cell : ICell;
  inputBlockShow : bool;
  inputBlockOpen : bool;
  inputBlockText : string;
  inputBlockCollapseNeeded : bool;
  editable : bool;
  directInput : option bool
}.

Definition with_cell (c : ICell) (vm : ICellViewModel) : ICellViewModel :=
  mkCellVM c (inputBlockShow vm) (inputBlockOpen vm) (inputBlockText vm)
           (inputBlockCollapseNeeded vm) (editable vm) (directInput vm).

Definition with_inputBlockShow (b : bool) (vm : ICellViewModel) : ICellViewModel :=
  mkCellVM (cell vm) b (inputBlockOpen vm) (inputBlockText vm)
           (inputBlockCollapseNeeded vm) (editable vm) (directInput vm).

Definition with_inputBlockOpen (b : bool) (vm : ICellViewModel) : ICellViewModel :=
  mkCellVM (cell vm) (inputBlockShow vm) b (inputBlockText vm)
           (inputBlockCollapseNeeded vm) (editable vm) (directInput vm).

Definition with_inputBlockText (t : string) (vm : ICellViewModel) : ICellViewModel :=
  mkCellVM (cell vm) (inputBlockShow vm) (inputBlockOpen vm) t
           (inputBlockCollapseNeeded vm) (editable vm) (directInput vm).

Definition with_editable (b : bool) (vm : ICellViewModel) : ICellViewModel :=
  mkCellVM (cell vm) (inputBlockShow vm) (inputBlockOpen vm) (inputBlockText vm)
           (inputBlockCollapseNeeded vm) b (directInput vm).

Definition with_directInput (b : option bool) (vm : ICellViewModel) : ICellViewModel :=
  mkCellVM (cell vm) (inputBlockShow vm) (inputBlockOpen vm) (inputBlockText vm)
           (inputBlockCollapseNeeded vm) (editable vm) b.

Definition with_id (i : string) (c : ICell) : ICell :=
  mkCell i (file c) (line c) (state c) (data c).

Definition with_state (s : CellState) (c : ICell) : ICell :=
  mkCell (id c) (file c) (line c) s (data c).

Definition with_data (d : ICellData) (c : ICell) : ICell :=
  mkCell (id c) (file c) (line c) (state c) d.

Definition with_source (s : string) (d : ICellData) : ICellData :=
  mkCellData (cell_type d) s (execution_count d) (outputs d).

Definition with_cell_type (t : string) (d : ICellData) : ICellData :=
  mkCellData t (source d) (execution_count d) (outputs d).

Definition with_outputs (o : list string) (d : ICellData) : ICellData :=
  mkCellData (cell_type d) (source d) (execution_count d) o.

(** ** Settings and the helpers of other modules

    [getSettings()] reads a module-level variable of [settingsReactSide]; the
    controller reads three of its fields; [opaqueSettings] stands for all the
    others. *)
Record Settings : Type := mkSettings {
  showCellInputCode : bool;
  collapseCellInputCodeByDefault : bool;
  opaqueSettings : string
}.

(** Functions the controller imports from modules outside the sources at
    hand ([mainState], [cellMatcher], [common], the string extensions, the
    settings module).  They are parameters of the development. *)
Class Externals : Type := {
  extractInputText : ICell -> Settings -> string;
  createCellVM : ICell -> Settings -> bool -> ICellViewModel;
  splitLines : string -> list string;
  isMarkdown : Settings -> option string -> bool;
  generateMarkdownFromCodeLines : list string -> string;
  (** [JSON.parse] of a settings payload; [None] when it throws *)
  parseSettings : string -> option Settings
}.

(** ** [alterCellVM] of [MainStateController] *)

(** The text of a collapsed input block (the [else] branch at the end of
    [alterCellVM]). *)
Definition collapsedText (text : string) : string :=
  if 0 <? Js.strlen text then
    let newText := Js.splitFirst text in
    let newText := Js.strslice newText 0 255 in
    (newText ++ "...")%string
  else text.

Definition alterCellVM `{Externals} (settings : Settings)
    (cellVM : ICellViewModel) (visible expanded : bool) : ICellViewModel :=
  if (cell_type (data (cell cellVM)) =? "code")%string then
    if Bool.eqb (inputBlockShow cellVM) visible
       && Bool.eqb (inputBlockOpen cellVM) expanded
    then cellVM
    else
      let newCellVM := cellVM in
      let newCellVM :=
        if negb (Bool.eqb (inputBlockShow cellVM) visible) then
          if visible then with_inputBlockShow true newCellVM
          else with_inputBlockShow false newCellVM
        else newCellVM in
      let newCellVM :=
        if negb (Bool.eqb (inputBlockOpen cellVM) expanded)
           && inputBlockCollapseNeeded cellVM
           && inputBlockShow cellVM
        then
          if expanded then
            let newText := extractInputText (cell cellVM) settings in
            with_inputBlockText newText (with_inputBlockOpen true newCellVM)
          else
            let newText := collapsedText (extractInputText (cell cellVM) settings) in
            with_inputBlockText newText (with_inputBlockOpen false newCellVM)
        else newCellVM in
      newCellVM
  else cellVM.

(** [alterCellVM] of [NativeEditorStateController]: the input block is always
    open and editable.  The code writes the three fields into the object it
    is given and returns it; here the changed view-model is returned, and the
    object, which a snapshot may hold too, is not followed. *)
Definition native_alterCellVM `{Externals} (settings : Settings)
    (cellVM : ICellViewModel) (_visible _expanded : bool) : ICellViewModel :=
  let cellVM := with_editable true cellVM in
  let newText := extractInputText (cell cellVM) settings in
  let cellVM := with_inputBlockOpen true cellVM in
  let cellVM := with_inputBlockText newText cellVM in
  cellVM.

(** ** Messages *)

(** The string constants of [InteractiveWindowMessages], [CssMessages] and
    [Identifiers] that the two controllers name.  Their values are declared
    outside the sources at hand, so they are parameters. *)
Class InteractiveWindowMessages : Type := {
  StartCell : string; FinishCell : string; UpdateCell : string;
  GetAllCells : string; ExpandAll : string; CollapseAll : string;
  DeleteAllCells : string; Redo : string; Undo : string;
  StartProgress : string; StopProgress : string; UpdateSettings : string;
  Activate : string; GetVariablesResponse : string;
  GetVariableValueResponse : string; LoadOnigasmAssemblyResponse : string;
  LoadTmLanguageResponse : string; RestartKernel : string;
  StartDebugging : string; StopDebugging : string; LoadAllCells : string;
  GetCssResponse : string; GetMonacoThemeResponse : string;
  ScrollToCell : string;
  NotebookDirty : string; NotebookClean : string;
  DeleteCell : string; RemoveCell : string; ReturnAllCells : string;
  SendInfo : string; SubmitNewCell : string; ReExecuteCell : string;
  GetVariablesRequest : string;
  EditCellId : string
}.

Record IInteractiveWindowInfo : Type := mkInfo {
  visibleCells : list ICell;
  cellCount : Z;
  undoCount : Z;
  redoCount : Z
}.

(** What the controller hands to the post office with a message. *)
Inductive Sent : Type :=
| NoPayload
| SentId (cellId : string)
| SentCells (cells : list ICell)
| SentInfo (info : IInteractiveWindowInfo)
| SentCode (code cellId : string)
| SentCount (count : Z)
| SentOpaque (text : string).

Record Message : Type := mkMessage {
  mtype : string;
  mpayload : Sent
}.

(** Calls made on the callbacks of [IMainStateControllerProps]. *)
Inductive PropsCall : Type :=
| activate
| scrollToCell (cellId : string).

Record IMainStateControllerProps : Type := mkProps {
  testMode : bool;
  defaultEditable : bool
}.

(** The handlers that only serve the host (variable explorer, tokenizer,
    themes) read [currentExecutionCount] and write fields of the state that no
    other method of the controller reads ([variables], [pendingVariableCount],
    [rootCss], [theme], [knownDark], [forceDark], [monacoTheme],
    [editorOptions], the two deferred promises).  Those fields are kept in one
    opaque component, and the handlers are parameters acting on it. *)
Inductive HostHandler : Type :=
| getVariablesResponse
| getVariableValueResponse
| handleOnigasmResponse
| handleTmLanguageResponse
| handleCssResponse
| handleMonacoThemeResponse.

Record HostOutcome (HostState : Type) : Type := mkHostOutcome {
  host_state : HostState;
  host_sent : list Message;
  host_threw : bool
}.
Arguments host_state {HostState}.
Arguments host_sent {HostState}.
Arguments host_threw {HostState}.

Class Host : Type := {
  HostState : Type;
  HostPayload : Type;
  hostResponse : HostHandler -> option HostPayload -> bool -> Z -> HostState ->
                 HostOutcome HostState;
  (** [editorOptions: this.computeEditorOptions()] *)
  computeEditorOptions : Settings -> HostState -> HostState;
  (** the css and theme requests [updateSettings] sends when the theme changed *)
  themeRequests : string -> HostState -> list Message
}.

(** What arrives with a message.  [handleMessage] takes it as [any]; the
    shapes are those the handlers cast it to. *)
Inductive Payload `{Host} : Type :=
| PCell (c : ICell)
| PLoadAllCells (cells : option (list ICell))
| PScrollToCell (cellId : option string)
| PSettings (json : string)
| PHost (h : HostPayload).
Arguments PCell {_}.
Arguments PLoadAllCells {_}.
Arguments PScrollToCell {_}.
Arguments PSettings {_}.
Arguments PHost {_}.

(** ** The controller's state *)

(** A snapshot of the cell list; [None] is [undefined], which is what an
    array read outside its bounds yields. *)
Definition Cells : Type := option (list ICellViewModel).

Record IMainState `{Host} : Type := mkMainState {
  cellVMs : Cells;
  undoStack : list Cells;
  redoStack : list Cells;
  currentExecutionCount : Z;
  busy : bool;
  skipNextScroll : option bool;
  submittedText : bool;
  debugging : bool;
  dirty : option bool;
  selectedCell : option string;
  focusedCell : option string;
  hostState : HostState
}.
Arguments mkMainState {_}.

Section Setters.
Context `{Host}.

Definition set_cellVMs (v : Cells) (s : IMainState) : IMainState :=
  mkMainState v (undoStack s) (redoStack s) (currentExecutionCount s) (busy s)
    (skipNextScroll s) (submittedText s) (debugging s) (dirty s)
    (selectedCell s) (focusedCell s) (hostState s).

Definition set_undoStack (v : list Cells) (s : IMainState) : IMainState :=
  mkMainState (cellVMs s) v (redoStack s) (currentExecutionCount s) (busy s)
    (skipNextScroll s) (submittedText s) (debugging s) (dirty s)
    (selectedCell s) (focusedCell s) (hostState s).

Definition set_redoStack (v : list Cells) (s : IMainState) : IMainState :=
  mkMainState (cellVMs s) (undoStack s) v (currentExecutionCount s) (busy s)
    (skipNextScroll s) (submittedText s) (debugging s) (dirty s)
    (selectedCell s) (focusedCell s) (hostState s).

Definition set_currentExecutionCount (v : Z) (s : IMainState) : IMainState :=
  mkMainState (cellVMs s) (undoStack s) (redoStack s) v (busy s)
    (skipNextScroll s) (submittedText s) (debugging s) (dirty s)
    (selectedCell s) (focusedCell s) (hostState s).

Definition set_busy (v : bool) (s : IMainState) : IMainState :=
  mkMainState (cellVMs s) (undoStack s) (redoStack s) (currentExecutionCount s) v
    (skipNextScroll s) (submittedText s) (debugging s) (dirty s)
    (selectedCell s) (focusedCell s) (hostState s).

Definition set_skipNextScroll (v : bool) (s : IMainState) : IMainState :=
  mkMainState (cellVMs s) (undoStack s) (redoStack s) (currentExecutionCount s)
    (busy s) (Some v) (submittedText s) (debugging s) (dirty s)
    (selectedCell s) (focusedCell s) (hostState s).

Definition set_submittedText (v : bool) (s : IMainState) : IMainState :=
  mkMainState (cellVMs s) (undoStack s) (redoStack s) (currentExecutionCount s)
    (busy s) (skipNextScroll s) v (debugging s) (dirty s)
    (selectedCell s) (focusedCell s) (hostState s).

Definition set_debugging (v : bool) (s : IMainState) : IMainState :=
  mkMainState (cellVMs s) (undoStack s) (redoStack s) (currentExecutionCount s)
    (busy s) (skipNextScroll s) (submittedText s) v (dirty s)
    (selectedCell s) (focusedCell s) (hostState s).

Definition set_dirty (v : bool) (s : IMainState) : IMainState :=
  mkMainState (cellVMs s) (undoStack s) (redoStack s) (currentExecutionCount s)
    (busy s) (skipNextScroll s) (submittedText s) (debugging s) (Some v)
    (selectedCell s) (focusedCell s) (hostState s).

Definition set_selectedCell (v : option string) (s : IMainState) : IMainState :=
  mkMainState (cellVMs s) (undoStack s) (redoStack s) (currentExecutionCount s)
    (busy s) (skipNextScroll s) (submittedText s) (debugging s) (dirty s)
    v (focusedCell s) (hostState s).

Definition set_focusedCell (v : option string) (s : IMainState) : IMainState :=
  mkMainState (cellVMs s) (undoStack s) (redoStack s) (currentExecutionCount s)
    (busy s) (skipNextScroll s) (submittedText s) (debugging s) (dirty s)
    (selectedCell s) v (hostState s).

Definition set_hostState (v : HostState) (s : IMainState) : IMainState :=
  mkMainState (cellVMs s) (undoStack s) (redoStack s) (currentExecutionCount s)
    (busy s) (skipNextScroll s) (submittedText s) (debugging s) (dirty s)
    (selectedCell s) (focusedCell s) v.

End Setters.

(** The controller object together with what it acts on: [this.state], the
    settings behind [getSettings()], what went through the post office and
    the calls made on the props, both oldest first. *)
Record Controller `{Host} : Type := mkController {
  mainState : IMainState;
  settings : Settings;
  posted : list Message;
  propsCalls : list PropsCall
}.
Arguments mkController {_}.

(** ** Methods as computations on the controller

    A method either returns, or an exception escapes from it (a [TypeError]
    on reading a property of [undefined], a [SyntaxError] of [JSON.parse]);
    the controller keeps whatever was written before the exception.
    [Untyped] marks a call on which the model is silent: one whose payload
    does not have the type the code casts it to (TypeScript's typing says
    nothing about such a call), and a batched handler that throws. *)
Inductive Outcome `{Host} (A : Type) : Type :=
| Returned (a : A) (c : Controller)
| Thrown (c : Controller)
| Untyped (c : Controller).
Arguments Returned {_ A}.
Arguments Thrown {_ A}.
Arguments Untyped {_ A}.

Definition M `{Host} (A : Type) : Type := Controller -> Outcome A.

Section Monad.
Context `{Host}.

Definition ret {A} (a : A) : M A := fun c => Returned a c.

Definition bind {A B} (m : M A) (k : A -> M B) : M B :=
  fun c =>
    match m c with
    | Returned a c' => k a c'
    | Thrown c' => Thrown c'
    | Untyped c' => Untyped c'
    end.

Definition throw {A} : M A := fun c => Thrown c.

Definition untyped {A} : M A := fun c => Untyped c.

(** The controller once the call is over, however it ended. *)
Definition after {A} (o : Outcome A) : Controller :=
  match o with
  | Returned _ c => c
  | Thrown c => c
  | Untyped c => c
  end.

(** A call on which the model speaks: it returned or threw. *)
Definition typed {A} (o : Outcome A) : Prop :=
  match o with
  | Untyped _ => False
  | _ => True
  end.

(** The value of a call that returned. *)
Definition returned {A} (o : Outcome A) : option A :=
  match o with
  | Returned a _ => Some a
  | _ => None
  end.

(** Reading a property or calling a method of a value that may be
    [undefined]. *)
Definition defined {A} (o : option A) : M A :=
  match o with
  | Some a => ret a
  | None => throw
  end.

(** [this.state] *)
Definition getState : M IMainState := fun c => Returned (mainState c) c.

(** [getSettings()] *)
Definition getSettings : M Settings := fun c => Returned (settings c) c.

Definition putSettings (st : Settings) : M unit :=
  fun c => Returned tt (mkController (mainState c) st (posted c) (propsCalls c)).

(** [this.setState(newState)]: [props.setState] is the host component's
    [setState], and [this.state] is written in the callback handed to it.
    Here the callback runs before [props.setState] returns, which is what
    React does outside a batch; the state a method leaves is the same when
    the callback runs later, but what the method reads after its [setState]
    is not ([setStateBatched] below).  [newState] is given by the fields it
    sets. *)
Definition setState (newState : IMainState -> IMainState) : M unit :=
  fun c => Returned tt (mkController (newState (mainState c)) (settings c)
                                     (posted c) (propsCalls c)).

(** [this.setState(newState)] followed by [rest], inside an event handler
    whose updates React batches (a click on the toolbar): [props.setState]
    keeps the update until the handler has returned, so the callback that
    writes [this.state] runs after [rest], and [rest] still reads the state
    from before.  Nothing is said of a handler that throws. *)
Definition setStateBatched (newState : IMainState -> IMainState)
    (rest : M unit) : M unit :=
  fun c =>
    match rest c with
    | Returned _ c' => setState newState c'
    | Thrown c' => Untyped c'
    | Untyped c' => Untyped c'
    end.

(** [this.sendMessage(type, payload)] *)
Definition sendMessage (type : string) (payload : Sent) : M unit :=
  fun c => Returned tt (mkController (mainState c) (settings c)
                          (posted c ++ [mkMessage type payload]) (propsCalls c)).

Definition postAll (ms : list Message) : M unit :=
  fun c => Returned tt (mkController (mainState c) (settings c)
                          (posted c ++ ms) (propsCalls c)).

Definition callProps (call : PropsCall) : M unit :=
  fun c => Returned tt (mkController (mainState c) (settings c)
                          (posted c) (propsCalls c ++ [call])).

(** [xs.forEach(f)] *)
Fixpoint forEach {A} (f : A -> M unit) (xs : list A) : M unit :=
  match xs with
  | [] => ret tt
  | x :: rest => bind (f x) (fun _ => forEach f rest)
  end.

End Monad.

Declare Scope controller_scope.
Delimit Scope controller_scope with ctl.
Notation "x <- m ;; k" := (bind m (fun x => k))
  (at level 61, m at next level, right associativity) : controller_scope.
Notation "m ;; k" := (bind m (fun _ => k))
  (at level 61, right associativity) : controller_scope.
Local Open Scope controller_scope.

(** ** [MainStateController] *)

(** [alterCellVM] is a protected method that [NativeEditorStateController]
    overrides; every call [this.alterCellVM(...)] goes through the class of
    the object. *)
Class ControllerClass `{Externals} : Type := {
  this_alterCellVM : Settings -> ICellViewModel -> bool -> bool -> ICellViewModel
}.

Definition stackLimit : Z := 10.

(** [pushStack]: lodash's [min] of the two numbers, [slice], then the
    spread with [cells] at the end. *)
Definition pushStack (stack : list Cells) (cells : Cells) : list Cells :=
  let slicedUndo := Js.slice stack 0 (Z.min (Js.length stack) stackLimit) in
  slicedUndo ++ [cells].

(** [stack[stack.length - 1]]: the element itself, [undefined] when the index
    is outside the stack. *)
Definition top (stack : list Cells) : Cells :=
  match Js.get stack (Js.length stack - 1) with
  | Some cells => cells
  | None => None
  end.

Section MainStateController.
Context `{Host} `{X : Externals} `{@ControllerClass X} `{InteractiveWindowMessages}.
Variable props : IMainStateControllerProps.

Definition getNonEditCellVMs : M (list ICellViewModel) :=
  s <- getState ;;
  cellVMs <- defined (cellVMs s) ;;
  ret (filter (fun c => negb (editable c)) cellVMs).

Definition sendInfo : M unit :=
  visible <- getNonEditCellVMs ;;
  counted <- getNonEditCellVMs ;;
  s <- getState ;;
  let info := mkInfo (map cell visible) (Js.length counted)
                     (Js.length (undoStack s)) (Js.length (redoStack s)) in
  sendMessage SendInfo (SentInfo info).

Definition stopBusy : M unit :=
  s <- getState ;;
  if busy s then setState (set_busy false) else ret tt.

Definition redo : M unit :=
  s <- getState ;;
  let cells := top (redoStack s) in
  let redoStack' := Js.slice (redoStack s) 0 (Js.length (redoStack s) - 1) in
  let undoStack' := pushStack (undoStack s) (cellVMs s) in
  sendMessage Redo NoPayload ;;
  setState (fun st => set_skipNextScroll true
              (set_redoStack redoStack' (set_undoStack undoStack'
                (set_cellVMs cells st)))) ;;
  sendInfo.

Definition undo : M unit :=
  s <- getState ;;
  let cells := top (undoStack s) in
  let undoStack' := Js.slice (undoStack s) 0 (Js.length (undoStack s) - 1) in
  let redoStack' := pushStack (redoStack s) (cellVMs s) in
  sendMessage Undo NoPayload ;;
  setState (fun st => set_skipNextScroll true
              (set_redoStack redoStack' (set_undoStack undoStack'
                (set_cellVMs cells st)))) ;;
  sendInfo.

(** [undo] called from an event handler whose updates React batches: the
    same statements, with the state written once [sendInfo] has run. *)
Definition undoBatched : M unit :=
  s <- getState ;;
  let cells := top (undoStack s) in
  let undoStack' := Js.slice (undoStack s) 0 (Js.length (undoStack s) - 1) in
  let redoStack' := pushStack (redoStack s) (cellVMs s) in
  sendMessage Undo NoPayload ;;
  setStateBatched
    (fun st => set_skipNextScroll true
       (set_redoStack redoStack' (set_undoStack undoStack'
         (set_cellVMs cells st))))
    sendInfo.

Definition deleteCell (cellId : string) : M unit :=
  s <- getState ;;
  cells <- defined (cellVMs s) ;;
  match Js.find (fun c => (id (cell c) =? cellId)%string) cells with
  | Some cellVM =>
      sendMessage DeleteCell NoPayload ;;
      sendMessage RemoveCell (SentId (id (cell cellVM))) ;;
      s <- getState ;;
      cells <- defined (cellVMs s) ;;
      setState (fun st => set_skipNextScroll true
        (set_undoStack (pushStack (undoStack s) (cellVMs s))
          (set_cellVMs
             (Some (filter (fun c => negb (id (cell c) =? cellId)%string) cells))
             st)))
  | None => ret tt
  end.

Definition alterAllCellVMs (visible expanded : bool) : M unit :=
  s <- getState ;;
  cells <- defined (cellVMs s) ;;
  st <- getSettings ;;
  let newCells := map (fun value => this_alterCellVM st value visible expanded) cells in
  setState (fun s' => set_cellVMs (Some newCells) (set_skipNextScroll true s')).

Definition toggleCellInputVisibility (visible collapse : bool) : M unit :=
  alterAllCellVMs visible (negb collapse).

Definition collapseAllSilent : M unit :=
  st <- getSettings ;;
  if showCellInputCode st then alterAllCellVMs true false else ret tt.

Definition expandAllSilent : M unit :=
  st <- getSettings ;;
  if showCellInputCode st then alterAllCellVMs true true else ret tt.

Definition clearAllSilent : M unit :=
  s <- getState ;;
  setState (fun st => set_busy false (set_skipNextScroll true
    (set_undoStack (pushStack (undoStack s) (cellVMs s))
      (set_cellVMs (Some []) st)))) ;;
  sendInfo.

Definition collapseAll : M unit :=
  sendMessage CollapseAll NoPayload ;; collapseAllSilent.

Definition expandAll : M unit :=
  sendMessage ExpandAll NoPayload ;; expandAllSilent.

Definition clearAll : M unit :=
  sendMessage DeleteAllCells NoPayload ;; clearAllSilent.

Definition canRedo : M bool :=
  s <- getState ;; ret (0 <? Js.length (redoStack s)).

Definition canUndo : M bool :=
  s <- getState ;; ret (0 <? Js.length (undoStack s)).

Definition refreshVariables (newExecutionCount : option Z) : M unit :=
  s <- getState ;;
  sendMessage GetVariablesRequest
    (SentCount (match newExecutionCount with
                | None => currentExecutionCount s
                | Some n => n
                end)).

Definition codeLostFocus (cellId : string) : M unit :=
  s <- getState ;;
  match focusedCell s with
  | Some focused =>
      if (focused =? cellId)%string then setState (set_focusedCell None)
      else ret tt
  | None => ret tt
  end.

Definition codeGotFocus (cellId : option string) : M unit :=
  setState (fun st => set_focusedCell cellId (set_selectedCell cellId st)).

Definition selectCell (cellId : string) (focused : option string) : M unit :=
  setState (fun st => set_focusedCell focused (set_selectedCell (Some cellId) st)).

(** [addCell(payload)]: the cell view-model that [alterCellVM] returns is an
    object, so the test [if (cellVM)] always passes. *)
Definition addCell (payload : option ICell) : M unit :=
  st <- getSettings ;;
  let showInputs := showCellInputCode st in
  let collapseInputs := collapseCellInputCodeByDefault st in
  match payload with
  | Some cell =>
      let cellVM := createCellVM cell st (defaultEditable props) in
      let cellVM := this_alterCellVM st cellVM showInputs (negb collapseInputs) in
      s <- getState ;;
      cells <- defined (cellVMs s) ;;
      let newList := cells ++ [cellVM] in
      setState (fun s' => set_skipNextScroll false
        (set_redoStack (redoStack s)
          (set_undoStack (pushStack (undoStack s) (cellVMs s))
            (set_cellVMs (Some newList) s')))) ;;
      sendInfo
  | None => ret tt
  end.

(** [submitInput(code, inputCell)]; [fresh] is what the call of [uuid()]
    yields.  In the re-execution branch the two writes
    ([inputCell.cell.state] and [inputCell.cell.data.outputs]) go to the
    caller's [inputCell] object, which is not followed here: the list is
    stored as it is read. *)
Definition submitInput (code : string) (inputCell : option ICellViewModel)
    (fresh : string) : M unit :=
  match inputCell with
  | Some input =>
      if (id (cell input) =? EditCellId)%string then
        st <- getSettings ;;
        let newCell := cell input in
        let newCell := with_state executing newCell in
        let newCell := with_data (with_source code (data newCell)) newCell in
        let split := splitLines code in
        let firstLine := Js.get split 0 in
        let newCell :=
          if isMarkdown st firstLine then
            with_state finished
              (with_data (with_source (generateMarkdownFromCodeLines split)
                            (with_cell_type "markdown" (data newCell))) newCell)
          else newCell in
        let newVM := createCellVM newCell st (defaultEditable props) in
        let collapseInputs := collapseCellInputCodeByDefault st in
        let newVM := this_alterCellVM st newVM true (negb collapseInputs) in
        let newVM :=
          if (id (cell newVM) =? EditCellId)%string
          then with_cell (with_id fresh (cell newVM)) newVM
          else newVM in
        let newVM := with_directInput (Some true) newVM in
        s <- getState ;;
        cells <- defined (cellVMs s) ;;
        setState (fun s' => set_submittedText true (set_skipNextScroll false
          (set_redoStack (redoStack s)
            (set_undoStack (pushStack (undoStack s) (cellVMs s))
              (set_cellVMs (Some (cells ++ [newVM])) s'))))) ;;
        match state (cell newVM) with
        | finished => ret tt
        | _ => sendMessage SubmitNewCell (SentCode code (id (cell newVM)))
        end
      else
        s <- getState ;;
        cells <- defined (cellVMs s) ;;
        setState (set_cellVMs (Some cells)) ;;
        sendMessage ReExecuteCell (SentCode code (id (cell input)))
  | None => throw
  end.

Definition inputBlockToggled (cellId : string) : M unit :=
  s <- getState ;;
  cells <- defined (cellVMs s) ;;
  st <- getSettings ;;
  let cellVMIndex :=
    Js.findIndex (fun value => (id (cell value) =? cellId)%string) cells in
  if 0 <=? cellVMIndex then
    let cellVMArray :=
      Js.update cells (Z.to_nat cellVMIndex)
        (fun targetCellVM =>
           this_alterCellVM st targetCellVM true
             (negb (inputBlockOpen targetCellVM))) in
    setState (fun s' => set_cellVMs (Some cellVMArray) (set_skipNextScroll true s'))
  else ret tt.

Definition getAllCells : M unit :=
  s <- getState ;;
  cellVMs <- defined (cellVMs s) ;;
  sendMessage ReturnAllCells (SentCells (map cell cellVMs)).

(** [parseInt(x.toString(), 10)]: the text of a finite number starts with a
    digit, after the sign if it has one (lemma [parseInt_toString] below), so
    [parseInt] finds an integer and the default for [NaN] is never taken. *)
Definition parseIntOfToString (x : Js.Number) : Z :=
  match Js.parseInt (Js.toString x) with
  | Some k => k
  | None => 0
  end.

(** The new execution count of [updateOrAdd]: a missing, [null] or zero
    [execution_count] is falsy. *)
Definition newExecutionCount (current : Z) (cell : ICell) : Z :=
  match execution_count (data cell) with
  | Some x =>
      if Js.truthy x then Z.max current (parseIntOfToString x) else current
  | None => current
  end.

(** The test of [findIndex] in [updateOrAdd]. *)
Definition sameCell (target : ICell) (c : ICellViewModel) : bool :=
  ((id (cell c) =? id target)%string
   && (line (cell c) =? line target)
   && (file (cell c) =? file target)%string)%bool.

(** [updateOrAdd(cell, allowAdd)].  [newVMs[index].cell = cell] writes into
    the view-model object at [index], which the copied array shares with the
    old one and with snapshots; here the list gets the changed view-model at
    [index], and the snapshots are not followed. *)
Definition updateOrAdd (cell : ICell) (allowAdd : bool) : M unit :=
  s <- getState ;;
  cells <- defined (cellVMs s) ;;
  let index := Js.findIndex (sameCell cell) cells in
  if 0 <=? index then
    let newCount := newExecutionCount (currentExecutionCount s) cell in
    (if negb (newCount =? currentExecutionCount s)
     then refreshVariables None else ret tt) ;;
    let newVMs := Js.update cells (Z.to_nat index) (with_cell cell) in
    setState (fun s' => set_currentExecutionCount newCount
                          (set_cellVMs (Some newVMs) s'))
  else if allowAdd then addCell (Some cell)
  else ret tt.

Definition isCellSupported (cell : ICell) : bool :=
  negb (testMode props) || negb (cell_type (data cell) =? "messages")%string.

Definition finishCell (payload : option ICell) : M unit :=
  match payload with
  | Some cell =>
      (if isCellSupported cell then updateOrAdd cell true else ret tt) ;;
      sendInfo
  | None => ret tt
  end.

Definition startCell (payload : option ICell) : M unit :=
  match payload with
  | Some cell =>
      if isCellSupported cell then updateOrAdd cell true else ret tt
  | None => ret tt
  end.

Definition updateCell (payload : option ICell) : M unit :=
  match payload with
  | Some cell =>
      if isCellSupported cell then updateOrAdd cell false else ret tt
  | None => ret tt
  end.

(** The casts [payload as ICell] and the like. *)
Definition asCell (payload : option Payload) : M (option ICell) :=
  match payload with
  | None => ret None
  | Some (PCell c) => ret (Some c)
  | Some _ => untyped
  end.

Definition asHostPayload (payload : option Payload) : M (option HostPayload) :=
  match payload with
  | None => ret None
  | Some (PHost h) => ret (Some h)
  | Some _ => untyped
  end.

(** A handler that serves the host only. *)
Definition hostHandler (h : HostHandler) (payload : option Payload) : M unit :=
  p <- asHostPayload payload ;;
  s <- getState ;;
  let r := hostResponse h p (testMode props) (currentExecutionCount s)
                        (hostState s) in
  setState (set_hostState (host_state r)) ;;
  postAll (host_sent r) ;;
  if host_threw r then throw else ret tt.

(** [updateSettings(payload)]: an empty string is falsy. *)
Definition updateSettings (payload : option Payload) : M unit :=
  match payload with
  | None => ret tt
  | Some (PSettings json) =>
      if (json =? "")%string then ret tt
      else
        old <- getSettings ;;
        let prevShowInputs := showCellInputCode old in
        match parseSettings json with
        | None => throw
        | Some new =>
            putSettings new ;;
            let showInputs := showCellInputCode new in
            s <- getState ;;
            setState (set_hostState (computeEditorOptions new (hostState s))) ;;
            s <- getState ;;
            postAll (themeRequests json (hostState s)) ;;
            if negb (Bool.eqb prevShowInputs showInputs)
            then toggleCellInputVisibility showInputs
                   (collapseCellInputCodeByDefault new)
            else ret tt
        end
  | Some _ => untyped
  end.

Definition handleLoadAllCells (payload : option Payload) : M unit :=
  match payload with
  | None => ret tt
  | Some (PLoadAllCells (Some cells)) =>
      forEach (fun c => finishCell (Some c)) cells
  | Some (PLoadAllCells None) => ret tt
  | Some _ => untyped
  end.

(** The [ScrollToCell] case: [payload.id] is read without a test of
    [payload]; an empty [id] is falsy. *)
Definition handleScrollToCell (payload : option Payload) : M unit :=
  match payload with
  | None => throw
  | Some (PScrollToCell (Some cellId)) =>
      if (cellId =? "")%string then ret tt else callProps (scrollToCell cellId)
  | Some (PScrollToCell None) => ret tt
  | Some _ => untyped
  end.

(** [handleMessage]: the [switch] compares [msg] with the cases in their
    order; the first nine return [true], the others [break] and the method
    ends with [return false]. *)
Definition handleMessage (msg : string) (payload : option Payload) : M bool :=
  if (msg =? StartCell)%string then
    cell <- asCell payload ;; startCell cell ;; ret true
  else if (msg =? FinishCell)%string then
    cell <- asCell payload ;; finishCell cell ;; ret true
  else if (msg =? UpdateCell)%string then
    cell <- asCell payload ;; updateCell cell ;; ret true
  else if (msg =? GetAllCells)%string then getAllCells ;; ret true
  else if (msg =? ExpandAll)%string then expandAllSilent ;; ret true
  else if (msg =? CollapseAll)%string then collapseAllSilent ;; ret true
  else if (msg =? DeleteAllCells)%string then clearAllSilent ;; ret true
  else if (msg =? Redo)%string then redo ;; ret true
  else if (msg =? Undo)%string then undo ;; ret true
  else
    (if (msg =? StartProgress)%string then
       if negb (testMode props) then setState (set_busy true) else ret tt
     else if (msg =? StopProgress)%string then
       if negb (testMode props) then setState (set_busy false) else ret tt
     else if (msg =? UpdateSettings)%string then updateSettings payload
     else if (msg =? Activate)%string then callProps activate
     else if (msg =? GetVariablesResponse)%string then
       hostHandler getVariablesResponse payload
     else if (msg =? GetVariableValueResponse)%string then
       hostHandler getVariableValueResponse payload
     else if (msg =? LoadOnigasmAssemblyResponse)%string then
       hostHandler handleOnigasmResponse payload
     else if (msg =? LoadTmLanguageResponse)%string then
       hostHandler handleTmLanguageResponse payload
     else if (msg =? RestartKernel)%string then
       setState (set_currentExecutionCount 0)
     else if (msg =? StartDebugging)%string then setState (set_debugging true)
     else if (msg =? StopDebugging)%string then setState (set_debugging false)
     else if (msg =? LoadAllCells)%string then handleLoadAllCells payload
     else if (msg =? GetCssResponse)%string then
       hostHandler handleCssResponse payload
     else if (msg =? GetMonacoThemeResponse)%string then
       hostHandler handleMonacoThemeResponse payload
     else if (msg =? ScrollToCell)%string then handleScrollToCell payload
     else ret tt) ;;
    ret false.

(** The nine message types of the claim. *)
Definition answersTrue (msg : string) : bool :=
  ((msg =? StartCell) || (msg =? FinishCell) || (msg =? UpdateCell)
   || (msg =? GetAllCells) || (msg =? ExpandAll) || (msg =? CollapseAll)
   || (msg =? DeleteAllCells) || (msg =? Redo) || (msg =? Undo))%string.

(** The strings for which the [switch] has a case. *)
Definition hasCase (msg : string) : bool :=
  (answersTrue msg
   || (msg =? StartProgress) || (msg =? StopProgress) || (msg =? UpdateSettings)
   || (msg =? Activate) || (msg =? GetVariablesResponse)
   || (msg =? GetVariableValueResponse) || (msg =? LoadOnigasmAssemblyResponse)
   || (msg =? LoadTmLanguageResponse) || (msg =? RestartKernel)
   || (msg =? StartDebugging) || (msg =? StopDebugging) || (msg =? LoadAllCells)
   || (msg =? GetCssResponse) || (msg =? GetMonacoThemeResponse)
   || (msg =? ScrollToCell))%string.

(** What the user interface and the post office can ask of the controller:
    the public methods that write [this.state], [inputBlockToggled] (handed to
    every cell view-model as its callback), [addCell] as the event handlers
    call it, and [handleMessage]. *)
Inductive Call : Type :=
| call_handleMessage (msg : string) (payload : option Payload)
| call_stopBusy
| call_redo
| call_undo
| call_deleteCell (cellId : string)
| call_collapseAll
| call_expandAll
| call_clearAll
| call_refreshVariables (newExecutionCount : option Z)
| call_codeLostFocus (cellId : string)
| call_codeGotFocus (cellId : option string)
| call_selectCell (cellId : string) (focused : option string)
| call_submitInput (code : string) (inputCell : option ICellViewModel)
                   (fresh : string)
| call_inputBlockToggled (cellId : string)
| call_addCell (payload : option ICell).

Definition perform (call : Call) : M unit :=
  match call with
  | call_handleMessage msg payload => handleMessage msg payload ;; ret tt
  | call_stopBusy => stopBusy
  | call_redo => redo
  | call_undo => undo
  | call_deleteCell cellId => deleteCell cellId
  | call_collapseAll => collapseAll
  | call_expandAll => expandAll
  | call_clearAll => clearAll
  | call_refreshVariables n => refreshVariables n
  | call_codeLostFocus cellId => codeLostFocus cellId
  | call_codeGotFocus cellId => codeGotFocus cellId
  | call_selectCell cellId focused => selectCell cellId focused
  | call_submitInput code inputCell fresh => submitInput code inputCell fresh
  | call_inputBlockToggled cellId => inputBlockToggled cellId
  | call_addCell payload => addCell payload
  end.

(** The controller states a run can reach: each call starts from the
    controller the previous one left, whether it returned or threw. *)
Inductive reachable (start : Controller) : Controller -> Prop :=
| reach_start : reachable start start
| reach_call (c : Controller) (call : Call) :
    reachable start c -> typed (perform call c) ->
    reachable start (after (perform call c)).

(** ** [NativeEditorStateController] *)

(** [handleMessage] of the native editor: the base dispatcher first, then
    three cases of its own, then the base dispatcher's result. *)
Definition native_handleMessage (msg : string) (payload : option Payload)
  : M bool :=
  result <- handleMessage msg payload ;;
  (if (msg =? LoadAllCells)%string then stopBusy
   else if (msg =? NotebookDirty)%string then setState (set_dirty true)
   else if (msg =? NotebookClean)%string then setState (set_dirty false)
   else ret tt) ;;
  ret result.

(** [cvm => cvm.cell.id === cellId]; [cellId] is optional, and no cell has
    the id [undefined]. *)
Definition hasId (cellId : option string) (cvm : ICellViewModel) : bool :=
  match cellId with
  | Some i => (id (cell cvm) =? i)%string
  | None => false
  end.

(** [this.getState()] is [this.state]. *)
Definition canMoveUp (cellId : option string) : M bool :=
  s <- getState ;;
  cells <- defined (cellVMs s) ;;
  let index := Js.findIndex (hasId cellId) cells in
  ret (0 <? index).

Definition canMoveDown (cellId : option string) : M bool :=
  s <- getState ;;
  cells <- defined (cellVMs s) ;;
  let index := Js.findIndex (hasId cellId) cells in
  s' <- getState ;;
  cells' <- defined (cellVMs s') ;;
  ret (index <? Js.length cells' - 1).

End MainStateController.

(** The two classes. *)
Definition MainStateController `{Externals} : ControllerClass :=
  {| this_alterCellVM := alterCellVM |}.

Definition NativeEditorStateController `{Externals} : ControllerClass :=
  {| this_alterCellVM := native_alterCellVM |}.

(** ** [IpynbEditor] *)

Module IpynbEditor.

Record Uri : Type := mkUri { fsPath : string }.

(** Calls on the methods inherited from [InteractiveBase]. *)
Inductive BaseCall : Type :=
| setTitle (title : string)
| postMessage (type : string) (cells : list ICell).

Record Editor : Type := mkEditor {
  _file : Uri;
  baseCalls : list BaseCall
}.

(** [path.basename] and the injected [INotebookImporter]; [importCells]
    yields [None] when its promise rejects. *)
Class Imports : Type := {
  basename : string -> string;
  importCells : string -> option (list ICell)
}.

(** How the promise of an [async] method settles. *)
Inductive Promise : Type :=
| Resolved (e : Editor)
| Rejected (e : Editor).

(** [get file()] *)
Definition file (e : Editor) : Uri := _file e.

(** [load(content, file)], run without another call in between: the two
    statements before the [await], then [postMessage] once the import has
    resolved; a rejected import rejects [load]. *)
Definition load `{Imports} `{InteractiveWindowMessages}
    (content : string) (file : Uri) (e : Editor) : Promise :=
  let e := mkEditor file (baseCalls e) in
  let e := mkEditor (_file e) (baseCalls e ++ [setTitle (basename (fsPath file))]) in
  match importCells content with
  | Some cells =>
      Resolved (mkEditor (_file e) (baseCalls e ++ [postMessage LoadAllCells cells]))
  | None => Rejected e
  end.

End IpynbEditor.

(** ** Concrete inputs

    A host without variable explorer or themes, helpers that take the input
    text of a cell to be its source, the message names, and a few cells and
    controllers on which the statements below are run. *)

Module Sample.

Definition host : Host :=
  {| HostState := unit;
     HostPayload := unit;
     hostResponse := fun _ _ _ _ s => mkHostOutcome unit s [] false;
     computeEditorOptions := fun _ s => s;
     themeRequests := fun _ _ => [] |}.

Definition externals : Externals :=
  {| extractInputText := fun c _ => source (data c);
     createCellVM := fun c _ canEdit =>
       mkCellVM c true true (source (data c)) false canEdit None;
     splitLines := fun code => [code];
     isMarkdown := fun _ _ => false;
     generateMarkdownFromCodeLines := fun lines => String.concat "" lines;
     parseSettings := fun _ => None |}.

Definition names : InteractiveWindowMessages :=
  {| StartCell := "start_cell"; FinishCell := "finish_cell";
     UpdateCell := "update_cell"; GetAllCells := "get_all_cells";
     ExpandAll := "expand_all"; CollapseAll := "collapse_all";
     DeleteAllCells := "delete_all_cells"; Redo := "redo"; Undo := "undo";
     StartProgress := "start_progress"; StopProgress := "stop_progress";
     UpdateSettings := "update_settings"; Activate := "activate";
     GetVariablesResponse := "get_variables_response";
     GetVariableValueResponse := "get_variable_value_response";
     LoadOnigasmAssemblyResponse := "load_onigasm_assembly_response";
     LoadTmLanguageResponse := "load_tmlanguage_response";
     RestartKernel := "restart_kernel";
     StartDebugging := "start_debugging"; StopDebugging := "stop_debugging";
     LoadAllCells := "load_all_cells";
     GetCssResponse := "get_css_response";
     GetMonacoThemeResponse := "get_monaco_theme_response";
     ScrollToCell := "scroll_to_cell";
     NotebookDirty := "dirty"; NotebookClean := "clean";
     DeleteCell := "delete_cell"; RemoveCell := "remove_cell";
     ReturnAllCells := "return_all_cells"; SendInfo := "send_info";
     SubmitNewCell := "submit_new_cell"; ReExecuteCell := "reexecute_cell";
     GetVariablesRequest := "get_variables_request";
     EditCellId := "edit_cell" |}.

Definition main : @ControllerClass externals := @MainStateController externals.

Definition someSettings : Settings := mkSettings true false "".

Definition production : IMainStateControllerProps := mkProps false false.

(** The numbers 1 to 9. *)
Definition digit (s : positive) : Js.Number := Js.Finite false s 1.

(** A code cell of two lines, and its view-models. *)
Definition twoLines : ICell :=
  mkCell "c1" "foo.py" 1 finished
         (mkCellData "code" (String "a" (String Js.newline "b"))
                     (Some (digit 1)) []).

Definition shownOpen : ICellViewModel :=
  mkCellVM twoLines true true (source (data twoLines)) true false None.

Definition shownCollapsedStale : ICellViewModel :=
  mkCellVM twoLines true false "stale" true false None.

Definition hiddenOpen : ICellViewModel :=
  mkCellVM twoLines false true (source (data twoLines)) true false None.

(** A second cell, and a cell of the kind the tests do not support that
    carries an execution count. *)
Definition other : ICell :=
  mkCell "c2" "foo.py" 5 finished
         (mkCellData "code" "x = 1" (Some (digit 2)) []).

Definition otherVM : ICellViewModel :=
  mkCellVM other true true "x = 1" false false None.



Definition stateOf (cells : Cells) (undos redos : list Cells) (count : Z)
  : @IMainState host :=
  @mkMainState host cells undos redos count false None false false None None None tt.

Definition controllerOf (s : @IMainState host) : @Controller host :=
  @mkController host s someSettings [] [].

(** A fresh controller with one cell, the same after one undoable change,
    and a controller showing the unsupported cell. *)
Definition oneCell : @Controller host :=
  controllerOf (stateOf (Some [shownOpen]) [] [] 0).

Definition twoCells : @Controller host :=
  controllerOf (stateOf (Some [shownOpen; otherVM]) [Some [shownOpen]] [] 0).


Definition empty : @Controller host :=
  controllerOf (stateOf (Some []) [] [] 0).

Definition notebook : IpynbEditor.Uri := IpynbEditor.mkUri "/work/nb.ipynb".

Definition imports : IpynbEditor.Imports :=
  {| IpynbEditor.basename := fun _ => "nb.ipynb";
     IpynbEditor.importCells := fun content =>
       if (content =? "")%string then None else Some [twoLines; other] |}.

Definition closedEditor : IpynbEditor.Editor :=
  IpynbEditor.mkEditor (IpynbEditor.mkUri "") [].

End Sample.

(** ** The bound on the stacks *)

Definition stacksBounded `{Host} (s : IMainState) : Prop :=
  (List.length (undoStack s) <= 11)%nat /\ (List.length (redoStack s) <= 11)%nat.

(** A method keeps the bound when the controller it leaves, returning or
    throwing, satisfies the bound whenever the controller it started from
    did. *)
Definition keepsStacksBounded `{Host} {A} (m : M A) : Prop :=
  forall c, stacksBounded (mainState c) ->
            stacksBounded (mainState (after (m c))).

(** ** Properties of [this.state] that calls keep *)

(** A method keeps [I] when the controller it leaves, returning or throwing,
    satisfies [I] whenever the one it started from did. *)
Definition keeps `{Host} {A} (I : IMainState -> Prop) (m : M A) : Prop :=
  forall c, I (mainState c) -> I (mainState (after (m c))).

(** A method returns keeping [I] when, started from a controller that
    satisfies [I], it returns (no exception escapes) with [I] still true. *)
Definition returnsKeeping `{Host} {A} (I : IMainState -> Prop) (m : M A) : Prop :=
  forall c, I (mainState c) ->
            exists a c', m c = Returned a c' /\ I (mainState c').

(** The cell list and every snapshot on the stacks is an array. *)
Definition wellFormed `{Host} (s : IMainState) : Prop :=
  cellVMs s <> None
  /\ Forall (fun cells : Cells => cells <> None) (undoStack s)
  /\ Forall (fun cells : Cells => cells <> None) (redoStack s).

(** The discipline of the toolbar: [undo] is asked only when [canUndo()],
    [redo] only when [canRedo()], also when they arrive as messages. *)
Definition guarded `{Host} `{InteractiveWindowMessages}
    (call : Call) (s : IMainState) : Prop :=
  match call with
  | call_undo => undoStack s <> []
  | call_redo => redoStack s <> []
  | call_handleMessage msg _ =>
      (msg = Undo -> undoStack s <> []) /\ (msg = Redo -> redoStack s <> [])
  | _ => True
  end.

Inductive reachableGuarded `{Host} `{X : Externals} `{@ControllerClass X}
    `{InteractiveWindowMessages} (props : IMainStateControllerProps)
    (start : Controller) : Controller -> Prop :=
| guarded_start : reachableGuarded props start start
| guarded_call (c : Controller) (call : Call) :
    reachableGuarded props start c ->
    guarded call (mainState c) ->
    typed (perform props call c) ->
    reachableGuarded props start (after (perform props call c)).

(** The calls that are neither [undo] nor [redo] and that write into no
    view-model object of the list.  The execution events ([StartCell],
    [FinishCell], [UpdateCell], [LoadAllCells]) are left out because
    [updateOrAdd] puts the cell into a view-model that snapshots may hold,
    and so is [submitInput] of another cell than the edit cell. *)
Definition leavesRedoStack `{Host} `{InteractiveWindowMessages}
    (call : Call) : Prop :=
  match call with
  | call_handleMessage msg _ =>
      msg <> Redo /\ msg <> Undo /\ msg <> StartCell /\ msg <> FinishCell
      /\ msg <> UpdateCell /\ msg <> LoadAllCells
  | call_redo | call_undo => False
  | call_submitInput _ (Some input) _ => id (cell input) = EditCellId
  | _ => True
  end.

(** The calls that change no cell list through an undoable step and that
    write into no view-model object of the list. *)
Definition leavesUndoStack `{Host} `{InteractiveWindowMessages}
    (call : Call) : Prop :=
  match call with
  | call_handleMessage msg _ =>
      msg <> StartCell /\ msg <> FinishCell /\ msg <> UpdateCell
      /\ msg <> DeleteAllCells /\ msg <> Redo /\ msg <> Undo
      /\ msg <> LoadAllCells
  | call_redo | call_undo | call_deleteCell _ | call_clearAll
  | call_submitInput _ _ _ | call_addCell _ => False
  | _ => True
  end.

(** Every call but the [RestartKernel] message. *)
Definition notRestart `{Host} `{InteractiveWindowMessages} (call : Call) : Prop :=
  match call with
  | call_handleMessage msg _ => msg <> RestartKernel
  | _ => True
  end.

(** Further concrete inputs. *)

Module More.

(** [Sample.twoCells] after [undo]: one cell, with a snapshot to redo. *)
Definition undone : @Controller Sample.host :=
  after (@undo Sample.host Sample.names Sample.twoCells).

Definition perform (call : @Call Sample.host) : @M Sample.host unit :=
  @perform Sample.host Sample.externals Sample.main Sample.names
    Sample.production call.

Definition handleMessage (msg : string) (payload : option (@Payload Sample.host))
  : @M Sample.host bool :=
  @handleMessage Sample.host Sample.externals Sample.main Sample.names
    Sample.production msg payload.

End More.

(** ** Undoable edits *)

(** The calls that replace the cell list after pushing the old one on the
    undo stack: deleting a cell that is there, clearing, adding a cell, and
    submitting the edit cell. *)
Definition undoableEdit `{Host} `{InteractiveWindowMessages}
    (call : Call) (cells : list ICellViewModel) : Prop :=
  match call with
  | call_deleteCell cellId =>
      existsb (fun vm => (id (cell vm) =? cellId)%string) cells = true
  | call_clearAll => True
  | call_addCell (Some _) => True
  | call_submitInput _ (Some input) _ => id (cell input) = EditCellId
  | _ => False
  end.
Module MoreStacks.

(** A controller with one snapshot to undo and eleven to redo. *)
Definition fullRedo : @Controller Sample.host :=
  Sample.controllerOf
    (Sample.stateOf (Some [Sample.shownOpen]) [Some []]
       (repeat (Some [Sample.otherVM]) 11) 0).

End MoreStacks.

(** ** Moving a cell in the native editor

    [moveCellUp] and [moveCellDown] of [NativeEditorStateController] swap two
    elements of the array [this.getState().cellVMs] in place and store the
    array back with [setState].  What they do to the array is modelled on the
    array itself: its elements, which a write of [undefined] turns into a
    hole, and its property ["-1"], which a write at index [-1] creates (it is
    no element and does not count in [length]).  The array they start from is
    a cell list as the controller builds them, without holes and without that
    property. *)

Record CellArray : Type := mkCellArray {
  elements : list (option ICellViewModel);
  minusOne : option ICellViewModel
}.

Definition arrayOf (cells : list ICellViewModel) : CellArray :=
  mkCellArray (map Some cells) None.

(** [a[i]] for [i >= -1]: [undefined] for a hole and outside the elements. *)
Definition readAt (a : CellArray) (i : Z) : option ICellViewModel :=
  if i =? -1 then minusOne a
  else match Js.get (elements a) i with
       | Some element => element
       | None => None
       end.

(** [a[i] = v] for [-1 <= i < a.length], the indices the two methods write
    at. *)
Definition writeAt (a : CellArray) (i : Z) (v : option ICellViewModel)
  : CellArray :=
  if i =? -1 then mkCellArray (elements a) v
  else mkCellArray (Js.update (elements a) (Z.to_nat i) (fun _ => v))
                   (minusOne a).

(** [[a[i], a[j]] = [a[j], a[i]]]: the right-hand side is read first, then
    the two targets are written from left to right. *)
Definition swapInPlace (a : CellArray) (i j : Z) : CellArray :=
  let right := (readAt a j, readAt a i) in
  let a := writeAt a i (fst right) in
  writeAt a j (snd right).

Definition moveCellUp (cellId : option string) (cellVms : list ICellViewModel)
  : CellArray :=
  let index := Js.findIndex (hasId cellId) cellVms in
  if 0 <? index then swapInPlace (arrayOf cellVms) (index - 1) index
  else arrayOf cellVms.

Definition moveCellDown (cellId : option string) (cellVms : list ICellViewModel)
  : CellArray :=
  let index := Js.findIndex (hasId cellId) cellVms in
  if index <? Js.length cellVms - 1
  then swapInPlace (arrayOf cellVms) (index + 1) index
  else arrayOf cellVms.

(** ** The code editors of the cells

    [MainStateController] keeps a [Map] from the id of a monaco model to the
    id of the cell shown in it.  The four methods that use it touch nothing
    else but the post office ([readOnlyCodeCreated] also reads the cell
    list), so they are modelled on the map and on what they post. *)

Module CodeEditors.

(** [Map<string, string>]: [get] and [set]. *)
Definition MonacoMap : Type := list (string * string).

Fixpoint mapGet (m : MonacoMap) (key : string) : option string :=
  match m with
  | [] => None
  | (k, v) :: rest => if (k =? key)%string then Some v else mapGet rest key
  end.

Fixpoint mapSet (m : MonacoMap) (key value : string) : MonacoMap :=
  match m with
  | [] => [(key, value)]
  | (k, v) :: rest =>
      if (k =? key)%string then (k, value) :: rest
      else (k, v) :: mapSet rest key value
  end.

(** What these methods post; [Changes] stands for monaco's
    [IModelContentChange[]]. *)
Inductive EditorMessage (Changes : Type) : Type :=
| EditCell (changes : Changes) (cellId : string)
| AddCell (fullText currentText file cellId : string).
Arguments EditCell {Changes}.
Arguments AddCell {Changes}.

Record Editors (Changes : Type) : Type := mkEditors {
  monacoIdToCellId : MonacoMap;
  sent : list (EditorMessage Changes)
}.
Arguments mkEditors {Changes}.
Arguments monacoIdToCellId {Changes}.
Arguments sent {Changes}.

(** [codeChange(changes, id, modelId)] *)
Definition codeChange {Changes} (changes : Changes) (cellId modelId : string)
    (e : Editors Changes) : Editors Changes :=
  let expectedCellId := mapGet (monacoIdToCellId e) modelId in
  let same :=
    match expectedCellId with
    | Some expected => (expected =? cellId)%string
    | None => false
    end in
  if negb same
  then mkEditors (mapSet (monacoIdToCellId e) modelId cellId) (sent e)
  else mkEditors (monacoIdToCellId e) (sent e ++ [EditCell changes cellId]).

(** [readOnlyCodeCreated(_text, file, id, monacoId)]; [None] is the
    [TypeError] of [find] on a cell list that is [undefined]. *)
Definition readOnlyCodeCreated {Changes} `{Externals} (file cellId monacoId : string)
    (cellVMs : Cells) (settings : Settings) (e : Editors Changes)
  : option (Editors Changes) :=
  match cellVMs with
  | None => None
  | Some cells =>
      let posted :=
        match Js.find (fun c => (id (cell c) =? cellId)%string) cells with
        | Some found =>
            sent e ++ [AddCell (extractInputText (cell found) settings)
                               (inputBlockText found) file cellId]
        | None => sent e
        end in
      Some (mkEditors (mapSet (monacoIdToCellId e) monacoId cellId) posted)
  end.

(** [editableCodeCreated(_text, _file, id, monacoId)] *)
Definition editableCodeCreated {Changes} (cellId monacoId : string)
    (e : Editors Changes) : Editors Changes :=
  mkEditors (mapSet (monacoIdToCellId e) monacoId cellId) (sent e).

(** [getCellId(monacoId)]: an empty string is falsy. *)
Definition getCellId {Changes} `{InteractiveWindowMessages} (monacoId : string)
    (e : Editors Changes) : string :=
  match mapGet (monacoIdToCellId e) monacoId with
  | Some result => if (result =? "")%string then EditCellId else result
  | None => EditCellId
  end.

End CodeEditors.

(** ** The variable explorer's responses

    [getVariablesResponse] and [getVariableValueResponse], two of the
    handlers that [Host] keeps abstract, on the fields they read and write:
    [variables], [pendingVariableCount] and [currentExecutionCount]. *)

Module VariableExplorer.

(** [IJupyterVariable]: the handlers read [name] and [executionCount];
    [shown] stands for the other fields. *)
Record IJupyterVariable : Type := mkVariable {
  name : string;
  executionCount : option Z;
  shown : string
}.

Record IJupyterVariablesResponse : Type := mkResponse {
  responseCount : Z;
  responseVariables : list IJupyterVariable
}.

Record Explorer : Type := mkExplorer {
  variables : list IJupyterVariable;
  pendingVariableCount : Z;
  requested : list IJupyterVariable
}.

(** [newState.splice(index, 1, variable)] for an index inside the array *)
Definition splice1 (vars : list IJupyterVariable) (index : Z)
    (variable : IJupyterVariable) : list IJupyterVariable :=
  Js.update vars (Z.to_nat index) (fun _ => variable).

(** [getVariableValueResponse(payload)] with [this.state.currentExecutionCount]
    being [current] *)
Definition getVariableValueResponse (payload : option IJupyterVariable)
    (current : Z) (x : Explorer) : Explorer :=
  match payload with
  | Some variable =>
      match executionCount variable with
      | Some count =>
          if count =? current then
            let stateVariable :=
              Js.findIndex (fun v => (name v =? name variable)%string)
                           (variables x) in
            if 0 <=? stateVariable then
              mkExplorer (splice1 (variables x) stateVariable variable)
                         (Z.max 0 (pendingVariableCount x - 1))
                         (requested x)
            else x
          else x
      | None => x
      end
  | None => x
  end.

(** [getVariablesResponse(payload)]: the new variables are stored and a
    [GetVariableValueRequest] is posted for each of them, in their order. *)
Definition getVariablesResponse (payload : option IJupyterVariablesResponse)
    (current : Z) (x : Explorer) : Explorer :=
  match payload with
  | Some variablesResponse =>
      if responseCount variablesResponse =? current then
        mkExplorer (responseVariables variablesResponse)
                   (Js.length (responseVariables variablesResponse))
                   (requested x ++ responseVariables variablesResponse)
      else x
  | None => x
  end.

(** The value responses for a list of variables, one after the other. *)
Definition valueResponses (responses : list IJupyterVariable) (current : Z)
    (x : Explorer) : Explorer :=
  fold_left (fun x' r => getVariableValueResponse (Some r) current x')
            responses x.

End VariableExplorer.
(** ** Loading the tokenizer's grammar files

    [loadOnigasm], [loadTmlanguage] and the handlers of their responses, on
    the two deferred promises of the controller and on the requests posted.
    [createDeferred] and the promises come from the [async] utilities, which
    are parameters here. *)

Module Tokenizer.

Class Deferreds : Type := {
  Deferred : Type;
  Resolution : Type;
  createDeferred : Deferred;
  (** [deferred.resolve(value)]; [None] is [undefined] *)
  resolve : option Resolution -> Deferred -> Deferred
}.

Inductive Request : Type :=
| LoadOnigasmAssemblyRequest
| LoadTmLanguageRequest.

Record Loader `{Deferreds} : Type := mkLoader {
  onigasmPromise : option Deferred;
  tmlangugePromise : option Deferred;
  requests : list Request
}.
Arguments mkLoader {_}.

Section WithDeferreds.
Context `{Deferreds}.

(** [loadOnigasm()]: the loader afterwards and the promise returned. *)
Definition loadOnigasm (l : Loader) : Loader * Deferred :=
  match onigasmPromise l with
  | None =>
      let created := createDeferred in
      (mkLoader (Some created) (tmlangugePromise l)
                (requests l ++ [LoadOnigasmAssemblyRequest]),
       created)
  | Some promise => (l, promise)
  end.

Definition loadTmlanguage (l : Loader) : Loader * Deferred :=
  match tmlangugePromise l with
  | None =>
      let created := createDeferred in
      (mkLoader (onigasmPromise l) (Some created)
                (requests l ++ [LoadTmLanguageRequest]),
       created)
  | Some promise => (l, promise)
  end.

(** [handleOnigasmResponse(payload)]; [payload] is what the typed array made
    of [payload.data] holds, [None] when there is no payload. *)
Definition handleOnigasmResponse (payload : option Resolution) (l : Loader)
  : Loader :=
  match onigasmPromise l with
  | Some promise =>
      mkLoader (Some (resolve payload promise)) (tmlangugePromise l)
               (requests l)
  | None => l
  end.

Definition handleTmLanguageResponse (payload : option Resolution) (l : Loader)
  : Loader :=
  match tmlangugePromise l with
  | Some promise =>
      mkLoader (onigasmPromise l) (Some (resolve payload promise))
               (requests l)
  | None => l
  end.

End WithDeferreds.

End Tokenizer.

(** ** The [Code] component *)

Module CodeComponent.

Record ICodeProps : Type := mkCodeProps {
  readOnly : bool;
  showWatermark : bool
}.

Record ICodeState : Type := mkCodeState {
  allowWatermark : bool
}.

(** The state the constructor sets. *)
Definition initialState : ICodeState := mkCodeState true.

(** What [render] computes: the class of the outer [div] and the class of
    the watermark. *)
Definition classes (props : ICodeProps) : string :=
  if readOnly props then "code-area" else "code-area code-area-editable".

Definition waterMarkClass (props : ICodeProps) (s : ICodeState) : string :=
  if showWatermark props && allowWatermark s && negb (readOnly props)
  then "code-watermark" else "hide".

(** The text model handed to [onModelChanged]. *)
Record ITextModel : Type := mkTextModel {
  valueLength : Z;
  modelId : string
}.

(** [onModelChanged(changes, model)]: the new state, and the model id with
    which [props.onChange] is called; without a model, reading [model.id]
    throws after the test, which is [None]. *)
Definition onModelChanged (props : ICodeProps) (model : option ITextModel)
    (s : ICodeState) : ICodeState * option string :=
  match model with
  | Some m =>
      ((if negb (readOnly props) then mkCodeState (valueLength m =? 0) else s),
       Some (modelId m))
  | None => (s, None)
  end.

End CodeComponent.

Module MoreInputs.

Definition x : VariableExplorer.IJupyterVariable :=
  VariableExplorer.mkVariable "x" (Some 3) "".
Definition xValue : VariableExplorer.IJupyterVariable :=
  VariableExplorer.mkVariable "x" (Some 3) "1".
Definition y : VariableExplorer.IJupyterVariable :=
  VariableExplorer.mkVariable "y" (Some 3) "".
Definition yValue : VariableExplorer.IJupyterVariable :=
  VariableExplorer.mkVariable "y" (Some 3) "[1, 2]".

Definition noVariables : VariableExplorer.Explorer :=
  VariableExplorer.mkExplorer [] 0 [].

(** The edit cell with some code in it. *)
Definition editCell : ICellViewModel :=
  mkCellVM (mkCell "edit_cell" "" 0 finished (mkCellData "code" "" None []))
           true true "" false true None.

End MoreInputs.
Module TokenizerRuns.
Import Tokenizer.

(** What can happen to the loader, in any order. *)
Inductive LoaderCall `{Deferreds} : Type :=
| callLoadOnigasm
| callLoadTmlanguage
| onigasmResponse (payload : option Resolution)
| tmLanguageResponse (payload : option Resolution).

Definition step `{Deferreds} (l : Loader) (call : LoaderCall) : Loader :=
  match call with
  | callLoadOnigasm => fst (loadOnigasm l)
  | callLoadTmlanguage => fst (loadTmlanguage l)
  | onigasmResponse payload => handleOnigasmResponse payload l
  | tmLanguageResponse payload => handleTmLanguageResponse payload l
  end.

(** The loader of a new controller. *)
Definition fresh `{Deferreds} : Loader := mkLoader None None [].

Definition run `{Deferreds} (calls : list LoaderCall) : Loader :=
  fold_left step calls fresh.

(** Promises that only remember whether they were resolved. *)
Definition flags : Deferreds :=
  {| Deferred := bool;
     Resolution := string;
     createDeferred := false;
     resolve := fun _ _ => true |}.

End TokenizerRuns.

(** * Properties *)

(** ** Arrays and strings *)

Lemma length_nonneg {A} (l : list A) : 0 <= Js.length l.
Proof. unfold Js.length. lia. Qed.

Lemma slice_prefix {A} (l : list A) (e : Z) :
  0 <= e -> Js.slice l 0 e = firstn (Z.to_nat e) l.
Proof.
  intros He. unfold Js.slice, Js.relative, Js.length.
  replace (0 <? 0) with false by reflexivity.
  assert (Hlt : (e <? 0) = false) by (apply Z.ltb_ge; lia).
  rewrite Hlt.
  replace (Z.min 0 (Z.of_nat (List.length l))) with 0 by lia.
  rewrite Z.sub_0_r. simpl skipn.
  destruct (Z.le_ge_cases e (Z.of_nat (List.length l))) as [Hle | Hge].
  - now rewrite Z.min_l.
  - rewrite Z.min_r by lia. rewrite Nat2Z.id.
    rewrite !firstn_all2; trivial; lia.
Qed.

Lemma slice_drop_last {A} (l : list A) :
  Js.slice l 0 (Js.length l - 1) = removelast l.
Proof.
  destruct l as [| x rest] eqn:El; [reflexivity |].
  rewrite <- El.
  assert (Hlen : Js.length l - 1 = Z.of_nat (pred (List.length l))).
  { unfold Js.length. subst l. simpl List.length. lia. }
  rewrite slice_prefix by lia.
  rewrite removelast_firstn_len. f_equal. lia.
Qed.

Lemma get_last {A} (rest : list A) (x : A) :
  Js.get (rest ++ [x]) (Js.length (rest ++ [x]) - 1) = Some x.
Proof.
  unfold Js.get, Js.length. rewrite length_app. simpl List.length.
  assert (Hlt : (Z.of_nat (List.length rest + 1) - 1 <? 0) = false)
    by (apply Z.ltb_ge; lia).
  rewrite Hlt.
  replace (Z.to_nat (Z.of_nat (List.length rest + 1) - 1))
    with (List.length rest) by lia.
  rewrite nth_error_app2 by lia. now rewrite Nat.sub_diag.
Qed.

Lemma findIndexFrom_absent {A} (p : A -> bool) (l : list A) (i : Z) :
  existsb p l = false -> Js.findIndexFrom p l i = -1.
Proof.
  revert i. induction l as [| x rest IH]; intros i Hex; [reflexivity |].
  simpl in Hex. apply orb_false_iff in Hex as [Hx Hrest].
  simpl. rewrite Hx. now apply IH.
Qed.

Lemma findIndexFrom_present {A} (p : A -> bool) (l : list A) (i : Z) :
  existsb p l = true ->
  i <= Js.findIndexFrom p l i < i + Js.length l.
Proof.
  revert i. induction l as [| x rest IH]; intros i Hex; [discriminate |].
  simpl in Hex. simpl Js.findIndexFrom. unfold Js.length. simpl List.length.
  destruct (p x).
  - lia.
  - simpl in Hex. specialize (IH (i + 1) Hex). unfold Js.length in IH. lia.
Qed.

Lemma findIndex_found {A} (p : A -> bool) (l : list A) :
  (0 <=? Js.findIndex p l) = existsb p l.
Proof.
  unfold Js.findIndex. destruct (existsb p l) eqn:Hex.
  - apply Z.leb_le. now apply findIndexFrom_present.
  - now rewrite findIndexFrom_absent.
Qed.

Lemma find_found {A} (p : A -> bool) (l : list A) :
  existsb p l = true -> exists x, Js.find p l = Some x /\ p x = true.
Proof.
  unfold Js.find. induction l as [| y rest IH]; [discriminate |].
  simpl. destruct (p y) eqn:Hy.
  - intros _. now exists y.
  - simpl. exact IH.
Qed.

Lemma find_absent {A} (p : A -> bool) (l : list A) :
  existsb p l = false -> Js.find p l = None.
Proof.
  unfold Js.find. induction l as [| y rest IH]; [reflexivity |].
  simpl. destruct (p y); [discriminate | exact IH].
Qed.

(** *** Numbers printed and read back *)

Lemma digitOf_range (c : ascii) (d : Z) : Js.digitOf c = Some d -> 0 <= d <= 9.
Proof.
  unfold Js.digitOf.
  destruct ((48 <=? _) && (_ <=? 57)) eqn:E; [| discriminate].
  intros [= <-]. apply andb_prop in E as [E1 E2]. lia.
Qed.

Lemma readDigits_app (s1 rest : string) (acc : Z) :
  Js.allDigits s1 = true ->
  Js.readDigits (s1 ++ rest) acc = Js.readDigits rest (Js.readDigits s1 acc).
Proof.
  revert acc. induction s1 as [| c s1 IH]; intros acc Hall; [reflexivity |].
  cbn in *. destruct (Js.digitOf c); [now apply IH | discriminate].
Qed.

Lemma readDigits_acc (s : string) (acc : Z) :
  Js.allDigits s = true ->
  Js.readDigits s acc = acc * 10 ^ Js.strlen s + Js.readDigits s 0
  /\ 0 <= Js.readDigits s 0 < 10 ^ Js.strlen s.
Proof.
  unfold Js.strlen. revert acc.
  induction s as [| c s IH]; intros acc Hall.
  - cbn. lia.
  - cbn [Js.allDigits] in Hall. cbn [Js.readDigits String.length].
    destruct (Js.digitOf c) as [d |] eqn:Ed; [| discriminate].
    apply digitOf_range in Ed.
    destruct (IH (10 * acc + d) Hall) as [Hacc _].
    destruct (IH (10 * 0 + d) Hall) as [Hd Hbound].
    rewrite Nat2Z.inj_succ, Z.pow_succ_r by lia.
    rewrite Hacc, Hd. split; nia.
Qed.

Lemma readDigits_step (c : ascii) (rest : string) (acc d : Z) :
  Js.digitOf c = Some d ->
  Js.readDigits (String c rest) acc = Js.readDigits rest (10 * acc + d).
Proof. intros Hc. cbn. now rewrite Hc. Qed.

Ltac digit_step :=
  match goal with
  | |- context [Js.readDigits (String ?c _) _] =>
      let v := eval vm_compute in (Js.digitOf c) in
      match v with
      | Some ?d => rewrite (readDigits_step c _ _ d eq_refl)
      end
  end.

Lemma readDigits_stop (c : ascii) (rest : string) (acc : Z) :
  Js.digitOf c = None -> Js.readDigits (String c rest) acc = acc.
Proof. intros Hc. cbn. now rewrite Hc. Qed.

Lemma allDigits_zeros (m : nat) : Js.allDigits (Js.zeros m) = true.
Proof. induction m; [reflexivity | exact IHm]. Qed.

Lemma strlen_zeros (m : nat) : Js.strlen (Js.zeros m) = Z.of_nat m.
Proof.
  unfold Js.strlen. f_equal. induction m; [reflexivity | cbn; now f_equal].
Qed.

Lemma readDigits_zeros (m : nat) : Js.readDigits (Js.zeros m) 0 = 0.
Proof.
  induction m as [| m IH]; [reflexivity | exact IH].
Qed.

Lemma allDigits_uint (d : Decimal.uint) :
  Js.allDigits (NilEmpty.string_of_uint d) = true.
Proof. induction d; cbn; assumption || reflexivity. Qed.

Lemma readDigits_uint_acc (d : Decimal.uint) (p : positive) :
  Js.readDigits (NilEmpty.string_of_uint d) (Z.pos p)
  = Z.pos (Pos.of_uint_acc d p).
Proof.
  revert p.
  induction d; intros p; cbn [NilEmpty.string_of_uint Pos.of_uint_acc];
    [reflexivity | ..];
    rewrite <- IHd; digit_step; f_equal; lia.
Qed.

Lemma readDigits_uint (d : Decimal.uint) :
  Js.readDigits (NilEmpty.string_of_uint d) 0 = Z.of_N (Pos.of_uint d).
Proof.
  induction d; cbn [NilEmpty.string_of_uint Pos.of_uint];
    [reflexivity | ..];
    digit_step; [exact IHd | apply readDigits_uint_acc ..].
Qed.

Lemma digitsOf_nilEmpty (s : positive) :
  Js.digitsOf s = NilEmpty.string_of_uint (Pos.to_uint s).
Proof.
  unfold Js.digitsOf, NilZero.string_of_uint.
  pose proof (DecimalPos.Unsigned.to_uint_nonnil s) as Hnil.
  destruct (Pos.to_uint s); [contradiction | reflexivity ..].
Qed.

Lemma allDigits_digitsOf (s : positive) : Js.allDigits (Js.digitsOf s) = true.
Proof. rewrite digitsOf_nilEmpty. apply allDigits_uint. Qed.

Lemma readDigits_digitsOf (s : positive) :
  Js.readDigits (Js.digitsOf s) 0 = Z.pos s.
Proof.
  rewrite digitsOf_nilEmpty, readDigits_uint, DecimalPos.Unsigned.of_to.
  reflexivity.
Qed.

Lemma digitsOf_first (s : positive) :
  exists c rest d, Js.digitsOf s = String c rest /\ Js.digitOf c = Some d.
Proof.
  pose proof (allDigits_digitsOf s) as Hall.
  rewrite digitsOf_nilEmpty in *.
  pose proof (DecimalPos.Unsigned.to_uint_nonnil s) as Hnil.
  destruct (NilEmpty.string_of_uint (Pos.to_uint s)) as [| c rest] eqn:E.
  - destruct (Pos.to_uint s); [contradiction | discriminate ..].
  - cbn [Js.allDigits] in Hall.
    destruct (Js.digitOf c) as [d |] eqn:Ed; [| discriminate].
    now exists c, rest, d.
Qed.

Lemma substring_split (s : string) (m : nat) :
  (m <= String.length s)%nat ->
  s = (substring 0 m s ++ substring m (String.length s - m) s)%string.
Proof.
  revert m. induction s as [| c s IH]; intros [| m] Hm; cbn in *.
  - reflexivity.
  - lia.
  - f_equal. clear. induction s as [| c' s IH]; cbn; [reflexivity |].
    now rewrite <- IH at 1.
  - f_equal. apply IH. lia.
Qed.

Lemma allDigits_app (s1 s2 : string) :
  Js.allDigits (s1 ++ s2) = (Js.allDigits s1 && Js.allDigits s2)%bool.
Proof.
  induction s1 as [| c s1 IH]; cbn [append Js.allDigits]; [reflexivity |].
  destruct (Js.digitOf c); [exact IH | reflexivity].
Qed.

Lemma strlen_app (s1 s2 : string) :
  Js.strlen (s1 ++ s2) = Js.strlen s1 + Js.strlen s2.
Proof.
  unfold Js.strlen. rewrite <- Nat2Z.inj_add. f_equal.
  induction s1; cbn; [reflexivity | now f_equal].
Qed.

Lemma strlen_prefix (s : string) (m : nat) :
  (m <= String.length s)%nat -> Js.strlen (substring 0 m s) = Z.of_nat m.
Proof.
  unfold Js.strlen. intros Hm. f_equal. revert m Hm.
  induction s as [| c s IH]; intros [| m] Hm; cbn in *;
    [reflexivity | lia | reflexivity | f_equal; apply IH; lia].
Qed.

(** The first [m] digits of a string of digits are its value divided by the
    power of ten of the digits left out. *)
Lemma readDigits_prefix (s : string) (m : nat) :
  Js.allDigits s = true ->
  (m <= String.length s)%nat ->
  Js.allDigits (substring 0 m s) = true
  /\ Js.readDigits (substring 0 m s) 0
     = Js.readDigits s 0 / 10 ^ (Js.strlen s - Z.of_nat m).
Proof.
  intros Hall Hm.
  pose proof (substring_split s m Hm) as Hsplit.
  pose proof (strlen_prefix s m Hm) as Hlen.
  set (pre := substring 0 m s) in *.
  set (suf := substring m (String.length s - m) s) in *.
  clearbody pre suf. subst s.
  rewrite allDigits_app in Hall. apply andb_prop in Hall as [Hpre Hsuf].
  split; [exact Hpre |].
  rewrite strlen_app, Hlen, readDigits_app by exact Hpre.
  replace (Z.of_nat m + Js.strlen suf - Z.of_nat m) with (Js.strlen suf) by lia.
  destruct (readDigits_acc suf (Js.readDigits pre 0) Hsuf) as [-> Hbound].
  apply Z.div_unique with (r := Js.readDigits suf 0); lia.
Qed.

Lemma digit_first (c : ascii) (rest : string) (d : Z) :
  Js.digitOf c = Some d ->
  Js.parseInt (String c rest) = Some (Js.readDigits (String c rest) 0)
  /\ Js.parseInt (String "-" (String c rest))
     = Some (- Js.readDigits (String c rest) 0).
Proof.
  intros Hd. unfold Js.parseInt.
  assert (Hws : Js.isWhiteSpace c = false /\ c <> "-"%char /\ c <> "+"%char).
  { unfold Js.digitOf in Hd. unfold Js.isWhiteSpace.
    destruct ((48 <=? _) && (_ <=? 57)) eqn:E; [| discriminate].
    apply andb_prop in E as [E1 E2].
    split; [| split; intros ->; cbn in E1; discriminate].
    apply orb_false_intro; [apply orb_false_intro |]; lia. }
  destruct Hws as (Hws & Hminus & Hplus).
  assert (Hread : Js.readInteger (String c rest)
                  = Some (Js.readDigits (String c rest) 0)).
  { unfold Js.readInteger. now rewrite Hd. }
  split.
  - cbn [Js.trimStart]. rewrite Hws.
    destruct c as [[] [] [] [] [] [] [] []]; try exact Hread;
      exfalso; (now apply Hminus) || (now apply Hplus).
  - change (Js.trimStart (String "-" (String c rest)))
      with (String "-" (String c rest)).
    cbv iota beta. now rewrite Hread.
Qed.

(** [parseInt(x.toString(), 10)] for every finite number [x]: never [NaN],
    and the integer that [Js.integerRead] computes. *)
Lemma parseInt_toString (x : Js.Number) :
  Js.parseInt (Js.toString x) = Some (Js.integerRead x).
Proof.
  destruct x as [| negative s n]; [reflexivity |].
  destruct (digitsOf_first s) as (c & rest & d & Hdigits & Hd).
  pose proof (allDigits_digitsOf s) as Hall.
  pose proof (readDigits_digitsOf s) as Hvalue.
  cbn [Js.toString Js.integerRead].
  set (digits := Js.digitsOf s) in *.
  set (k := Js.strlen digits) in *.
  assert (Hk : 1 <= k).
  { unfold k, Js.strlen. rewrite Hdigits. cbn [String.length]. lia. }
  assert (Hparse : forall text m,
    (exists c' rest' d', text = String c' rest' /\ Js.digitOf c' = Some d') ->
    Js.readDigits text 0 = m ->
    Js.parseInt (if negative then String "-" text else text)
    = Some (if negative then - m else m)).
  { intros text m (c' & rest' & d' & -> & Hd') <-.
    destruct (digit_first c' rest' d' Hd') as [Hplain Hminus].
    now destruct negative. }
  assert (Hprefix : forall m tail,
    (1 <= m <= String.length digits)%nat ->
    (exists c' rest', tail = String c' rest' /\ Js.digitOf c' = None) ->
    (exists c' rest' d',
        (substring 0 m digits ++ tail)%string = String c' rest'
        /\ Js.digitOf c' = Some d')
    /\ Js.readDigits (substring 0 m digits ++ tail) 0
       = Z.pos s / 10 ^ (k - Z.of_nat m)).
  { intros m tail Hm (c' & rest' & -> & Hstop).
    destruct (readDigits_prefix digits m Hall ltac:(lia)) as [Hpre Hread].
    split.
    - rewrite Hdigits. destruct m as [| m]; [lia |]. cbn [substring append].
      eexists c, _, d. split; [reflexivity | exact Hd].
    - rewrite readDigits_app, readDigits_stop, Hread, Hvalue by assumption.
      reflexivity. }
  assert (Hlen : Z.of_nat (String.length digits) = k) by reflexivity.
  destruct ((k <=? n) && (n <=? 21)) eqn:Einteger.
  - apply andb_prop in Einteger as [Hkn Hn].
    replace ((0 <? n) && (n <=? 21)) with true
      by (symmetry; apply andb_true_intro; split; lia).
    rewrite Hkn. apply Hparse.
    + rewrite Hdigits. cbn [append].
      eexists c, _, d. split; [reflexivity | exact Hd].
    + rewrite readDigits_app by exact Hall.
      destruct (readDigits_acc (Js.zeros (Z.to_nat (n - k))) (Js.readDigits digits 0)
                  (allDigits_zeros _)) as [-> _].
      rewrite readDigits_zeros, strlen_zeros, Hvalue, Z2Nat.id by lia. lia.
  - destruct ((0 <? n) && (n <=? 21)) eqn:Efraction.
    + apply andb_prop in Efraction as [H0 Hn].
      assert (Hnk : (k <=? n) = false).
      { rewrite Hn, andb_true_r in Einteger. exact Einteger. }
      rewrite Hnk.
      destruct (Hprefix (Z.to_nat n)
                  ("." ++ substring (Z.to_nat n) (Z.to_nat (k - n)) digits)%string)
        as [Hfirst Hread].
      * lia.
      * eexists "."%char, _. split; reflexivity.
      * apply Hparse; [exact Hfirst |]. rewrite Hread, Z2Nat.id by lia.
        reflexivity.
    + destruct ((-6 <? n) && (n <=? 0)) eqn:Esmall.
      * apply (Hparse _ 0); [| reflexivity].
        eexists "0"%char, _, 0. split; reflexivity.
      * destruct (k =? 1) eqn:Eone.
        -- apply Hparse.
           ++ rewrite Hdigits. cbn [append].
              eexists c, _, d. split; [reflexivity | exact Hd].
           ++ rewrite readDigits_app by exact Hall.
              unfold Js.exponentPart. rewrite readDigits_stop by reflexivity.
              rewrite Hvalue. replace (k - 1) with 0 by lia.
              now rewrite Z.div_1_r.
        -- destruct (Hprefix 1%nat
                       ("." ++ substring 1 (Z.to_nat (k - 1)) digits
                        ++ Js.exponentPart n)%string) as [Hfirst Hread].
           ++ lia.
           ++ eexists "."%char, _. split; reflexivity.
           ++ apply Hparse; [exact Hfirst |]. exact Hread.
Qed.


Lemma parseIntOfToString_spec (x : Js.Number) :
  parseIntOfToString x = Js.integerRead x.
Proof. unfold parseIntOfToString. now rewrite parseInt_toString. Qed.

(** From 1e21 on the text is in exponent notation and [parseInt] stops at
    its first digit or at the point; a fraction is cut off. *)
Lemma parseIntOfToString_examples :
  parseIntOfToString (Js.Finite false 1 22) = 1
  /\ parseIntOfToString (Js.Finite false 15 1) = 1
  /\ parseIntOfToString (Js.Finite false 1 21) = 10 ^ 20
  /\ Js.toString (Js.Finite false 1 22) = "1e+21"
  /\ Js.toString (Js.Finite false 15 1) = "1.5".
Proof. repeat split; vm_compute; reflexivity. Qed.

Lemma substring_length_le (n m : nat) (s : string) :
  (String.length (substring n m s) <= m)%nat.
Proof.
  revert n m. induction s as [| ch rest IH]; intros n m.
  - destruct n, m; simpl; lia.
  - destruct n as [| n'].
    + destruct m as [| m']; simpl; [lia |]. specialize (IH O m'). lia.
    + simpl. apply IH.
Qed.

Lemma strslice_prefix (s : string) (e : Z) :
  0 <= e -> (String.length (Js.strslice s 0 e) <= Z.to_nat e)%nat.
Proof.
  intros He. unfold Js.strslice.
  eapply Nat.le_trans; [apply substring_length_le |].
  unfold Js.relative, Js.strlen.
  replace (0 <? 0) with false by reflexivity.
  assert (Hlt : (e <? 0) = false) by (apply Z.ltb_ge; lia).
  rewrite Hlt. lia.
Qed.

(** ** The stacks *)

Lemma pushStack_firstn (stack : list Cells) (cells : Cells) :
  pushStack stack cells
  = firstn (Nat.min (List.length stack) 10) stack ++ [cells].
Proof.
  unfold pushStack, stackLimit. rewrite slice_prefix.
  - f_equal. f_equal. unfold Js.length. lia.
  - pose proof (length_nonneg stack). lia.
Qed.

Lemma pushStack_length (stack : list Cells) (cells : Cells) :
  (List.length (pushStack stack cells) <= 11)%nat.
Proof.
  rewrite pushStack_firstn, length_app, length_firstn. simpl. lia.
Qed.

Lemma pushStack_short (stack : list Cells) (cells : Cells) :
  (List.length stack <= 10)%nat -> pushStack stack cells = stack ++ [cells].
Proof.
  intros Hlen. rewrite pushStack_firstn. f_equal.
  apply firstn_all2. lia.
Qed.

Lemma pushStack_last (stack : list Cells) (cells : Cells) :
  last (pushStack stack cells) None = cells.
Proof. unfold pushStack. apply last_last. Qed.

Lemma top_last (stack : list Cells) : top stack = last stack None.
Proof.
  destruct stack as [| x rest] using rev_ind; [reflexivity |].
  unfold top. now rewrite get_last, last_last.
Qed.

Lemma top_snoc (rest : list Cells) (cells : Cells) : top (rest ++ [cells]) = cells.
Proof. now rewrite top_last, last_last. Qed.

(** ** Running methods *)

Section Running.
Context `{Host}.

Lemma after_bind {A B} (m : M A) (k : A -> M B) (c : Controller) :
  after (bind m k c)
  = match m c with
    | Returned a c' => after (k a c')
    | Thrown c' => c'
    | Untyped c' => c'
    end.
Proof. unfold bind. now destruct (m c). Qed.

Lemma after_defined {A} (o : option A) (c : Controller) :
  after (defined o c) = c.
Proof. now destruct o. Qed.

End Running.

Section SendInfo.
Context `{Host} `{InteractiveWindowMessages}.

(** [sendInfo] writes nothing to [this.state]. *)
Lemma sendInfo_state (c : Controller) :
  mainState (after (sendInfo c)) = mainState c.
Proof.
  unfold sendInfo, getNonEditCellVMs, bind, getState, defined, ret, throw,
    sendMessage.
  destruct (cellVMs (mainState c)) eqn:Ecells; cbn; rewrite ?Ecells; reflexivity.
Qed.

Lemma sendInfo_settings (c : Controller) :
  settings (after (sendInfo c)) = settings c.
Proof.
  unfold sendInfo, getNonEditCellVMs, bind, getState, defined, ret, throw,
    sendMessage.
  destruct (cellVMs (mainState c)) eqn:Ecells; cbn; rewrite ?Ecells; reflexivity.
Qed.

End SendInfo.

(** ** Undo and redo *)

Section UndoRedo.
Context `{Host} `{InteractiveWindowMessages}.

Lemma undo_state (c : Controller) :
  let s := mainState c in
  mainState (after (undo c))
  = set_skipNextScroll true
      (set_redoStack (pushStack (redoStack s) (cellVMs s))
        (set_undoStack (removelast (undoStack s))
          (set_cellVMs (last (undoStack s) None) s))).
Proof.
  unfold undo, bind, getState, sendMessage, setState. cbn.
  rewrite sendInfo_state. cbn.
  now rewrite slice_drop_last, top_last.
Qed.

Lemma redo_state (c : Controller) :
  let s := mainState c in
  mainState (after (redo c))
  = set_skipNextScroll true
      (set_redoStack (removelast (redoStack s))
        (set_undoStack (pushStack (undoStack s) (cellVMs s))
          (set_cellVMs (last (redoStack s) None) s))).
Proof.
  unfold redo, bind, getState, sendMessage, setState. cbn.
  rewrite sendInfo_state. cbn.
  now rewrite slice_drop_last, top_last.
Qed.

(** C1.  On a non-empty undo stack, [undo] makes the top of the undo stack
    the current cell list, takes it off the undo stack (the old stack is the
    new one with the new current list on top) and pushes the list that was
    current onto the redo stack with [pushStack], that is after the first ten
    snapshots of the redo stack; [redo] does the same with the two stacks
    exchanged. *)
Theorem undo_redo_pop_and_push (c : Controller) :
  let s := mainState c in
  (undoStack s <> [] ->
   let s' := mainState (after (undo c)) in
   cellVMs s' = last (undoStack s) None
   /\ undoStack s = undoStack s' ++ [cellVMs s']
   /\ redoStack s' = pushStack (redoStack s) (cellVMs s)
   /\ redoStack s' = firstn 10 (redoStack s) ++ [cellVMs s])
  /\
  (redoStack s <> [] ->
   let s' := mainState (after (redo c)) in
   cellVMs s' = last (redoStack s) None
   /\ redoStack s = redoStack s' ++ [cellVMs s']
   /\ undoStack s' = pushStack (undoStack s) (cellVMs s)
   /\ undoStack s' = firstn 10 (undoStack s) ++ [cellVMs s]).
Proof.
  assert (Hten : forall (stack : list Cells) cells,
             pushStack stack cells = firstn 10 stack ++ [cells]).
  { intros stack cells. rewrite pushStack_firstn. f_equal.
    destruct (Nat.le_ge_cases (List.length stack) 10) as [Hle | Hge].
    - rewrite Nat.min_l by exact Hle. now rewrite !firstn_all2 by lia.
    - now rewrite Nat.min_r by exact Hge. }
  cbv zeta. split; intros Hne.
  - rewrite undo_state. cbn. repeat split.
    + now apply app_removelast_last.
    + apply Hten.
  - rewrite redo_state. cbn. repeat split.
    + now apply app_removelast_last.
    + apply Hten.
Qed.

(** Without the premise: on an empty undo stack [undo] reads
    [undoStack[-1]], stores [undefined] as the cell list, and the [sendInfo]
    that follows throws on it. *)
Lemma undo_on_empty_stack (c : Controller) :
  undoStack (mainState c) = [] ->
  exists c', undo c = Thrown c' /\ cellVMs (mainState c') = None.
Proof.
  intros Hempty.
  unfold undo, bind, getState, sendMessage, setState, sendInfo,
    getNonEditCellVMs, defined, throw.
  rewrite Hempty. cbn. eexists. split; reflexivity.
Qed.

(** C2.  With a non-empty undo stack of at most 11 snapshots and a redo
    stack of at most 10, [undo] followed by [redo] gives back the cell list
    and both stacks. *)
Theorem undo_then_redo (c : Controller) :
  let s := mainState c in
  undoStack s <> [] ->
  (List.length (undoStack s) <= 11)%nat ->
  (List.length (redoStack s) <= 10)%nat ->
  let s'' := mainState (after (redo (after (undo c)))) in
  cellVMs s'' = cellVMs s
  /\ undoStack s'' = undoStack s
  /\ redoStack s'' = redoStack s.
Proof.
  cbv zeta. intros Hne Hundo Hredo.
  rewrite redo_state, undo_state. cbn.
  rewrite (pushStack_short (redoStack (mainState c))) by exact Hredo.
  rewrite last_last, removelast_last.
  repeat split.
  rewrite pushStack_short.
  - symmetry. now apply app_removelast_last.
  - destruct (undoStack (mainState c)) as [| x rest] using rev_ind;
      [contradiction |].
    rewrite removelast_last. rewrite length_app in Hundo. simpl in Hundo. lia.
Qed.

End UndoRedo.

Lemma undo_redo_pop_and_push_witness :
  let c := Sample.twoCells in
  cellVMs (mainState (after (@undo Sample.host Sample.names c)))
  = Some [Sample.shownOpen]
  /\ undoStack (mainState (after (@undo Sample.host Sample.names c))) = []
  /\ redoStack (mainState (after (@undo Sample.host Sample.names c)))
     = [Some [Sample.shownOpen; Sample.otherVM]].
Proof.
  cbv zeta.
  destruct (proj1 (@undo_redo_pop_and_push Sample.host Sample.names
                     Sample.twoCells) ltac:(discriminate))
    as (Hcells & Hundo & Hredo & _).
  rewrite Hcells, Hredo. split; [reflexivity | split; reflexivity].
Defined.

Lemma undo_then_redo_witness :
  let c := Sample.twoCells in
  let s'' := mainState (after (@redo Sample.host Sample.names
                                 (after (@undo Sample.host Sample.names c)))) in
  cellVMs s'' = cellVMs (mainState c)
  /\ undoStack s'' = undoStack (mainState c)
  /\ redoStack s'' = redoStack (mainState c).
Proof.
  apply (@undo_then_redo Sample.host Sample.names Sample.twoCells).
  - discriminate.
  - simpl. lia.
  - simpl. lia.
Defined.

(** ** Deleting a cell *)

Section DeleteCell.
Context `{Host} `{InteractiveWindowMessages}.

(** C3.  [deleteCell(cellId)] on a controller whose cell list is [cells]:
    when some cell has the id, the new list is [cells] without the cells of
    that id, [cells] is pushed onto the undo stack and the redo stack stays;
    when none has it, the call returns with the controller as it was, so
    nothing was written and nothing was sent. *)
Theorem deleteCell_spec (cellId : string) (c : Controller)
    (cells : list ICellViewModel) :
  cellVMs (mainState c) = Some cells ->
  let present := existsb (fun vm => (id (cell vm) =? cellId)%string) cells in
  (present = true ->
   let s' := mainState (after (deleteCell cellId c)) in
   cellVMs s'
   = Some (filter (fun vm => negb (id (cell vm) =? cellId)%string) cells)
   /\ undoStack s' = pushStack (undoStack (mainState c)) (Some cells)
   /\ redoStack s' = redoStack (mainState c))
  /\
  (present = false -> deleteCell cellId c = Returned tt c).
Proof.
  intros Hcells. cbv zeta. split; intros Hpresent.
  - destruct (find_found _ _ Hpresent) as (vm & Hfind & _).
    unfold deleteCell, bind, getState, defined, ret.
    rewrite Hcells, Hfind. cbn. rewrite Hcells. cbn.
    repeat split.
  - unfold deleteCell, bind, getState, defined, ret.
    now rewrite Hcells, (find_absent _ _ Hpresent).
Qed.

End DeleteCell.

Lemma deleteCell_spec_witness :
  let c := Sample.twoCells in
  let s' := mainState (after (@deleteCell Sample.host Sample.names "c1" c)) in
  cellVMs s' = Some [Sample.otherVM]
  /\ undoStack s' = [Some [Sample.shownOpen];
                     Some [Sample.shownOpen; Sample.otherVM]]
  /\ redoStack s' = []
  /\ @deleteCell Sample.host Sample.names "c9" c = Returned tt c.
Proof.
  cbv zeta.
  destruct (@deleteCell_spec Sample.host Sample.names "c1" Sample.twoCells
              [Sample.shownOpen; Sample.otherVM] eq_refl) as [Hfound _].
  destruct (Hfound eq_refl) as (Hcells & Hundo & Hredo).
  destruct (@deleteCell_spec Sample.host Sample.names "c9" Sample.twoCells
              [Sample.shownOpen; Sample.otherVM] eq_refl) as [_ Habsent].
  rewrite Hcells, Hundo, Hredo, (Habsent eq_refl).
  split; [reflexivity | split; [reflexivity | split; reflexivity]].
Defined.

(** ** Moving cells in the native editor *)

Section CanMove.
Context `{Host}.

(** C10.  For a [cellId] that no cell of the current list has, [findIndex]
    yields [-1]; [canMoveUp] returns [false], and [canMoveDown] returns
    [true] as soon as the list has a cell, since [-1 < length - 1]. *)
Theorem canMove_absent (cellId : option string) (c : Controller)
    (cells : list ICellViewModel) :
  cellVMs (mainState c) = Some cells ->
  (forall vm, In vm cells -> Some (id (cell vm)) <> cellId) ->
  Js.findIndex (hasId cellId) cells = -1
  /\ canMoveUp cellId c = Returned false c
  /\ (cells <> [] -> canMoveDown cellId c = Returned true c).
Proof.
  intros Hcells Habsent.
  assert (Hindex : Js.findIndex (hasId cellId) cells = -1).
  { apply findIndexFrom_absent.
    apply not_true_iff_false. intros Hex.
    apply existsb_exists in Hex as (vm & Hin & Hid).
    apply (Habsent vm Hin). unfold hasId in Hid.
    destruct cellId as [i |]; [| discriminate].
    apply String.eqb_eq in Hid. now rewrite Hid. }
  split; [exact Hindex |]. split.
  - unfold canMoveUp, bind, getState, defined, ret.
    now rewrite Hcells, Hindex.
  - intros Hne. unfold canMoveDown, bind, getState, defined, ret.
    rewrite Hcells. cbn. rewrite Hcells, Hindex. do 2 f_equal.
    apply Z.ltb_lt. unfold Js.length.
    destruct cells; [contradiction | simpl List.length; lia].
Qed.

End CanMove.

Lemma canMove_absent_witness :
  @canMoveUp Sample.host (Some "c9") Sample.twoCells
  = Returned false Sample.twoCells
  /\ @canMoveDown Sample.host (Some "c9") Sample.twoCells
     = Returned true Sample.twoCells.
Proof.
  destruct (@canMove_absent Sample.host (Some "c9") Sample.twoCells
              [Sample.shownOpen; Sample.otherVM] eq_refl) as (_ & Hup & Hdown).
  - intros vm [<- | [<- | []]]; discriminate.
  - split; [exact Hup | apply Hdown; discriminate].
Defined.

(** ** Loading a notebook *)

Section Load.
Context `{IpynbEditor.Imports} `{InteractiveWindowMessages}.

(** C7.  When [load(content, file)] resolves, [file] of the editor is the
    given one, and the calls on the base class are those made before followed
    by [setTitle] of the basename of [file.fsPath] and by [postMessage] of
    [LoadAllCells] with the cells that [importCells(content)] resolved to. *)
Theorem load_resolved (content : string) (file : IpynbEditor.Uri)
    (e e' : IpynbEditor.Editor) :
  IpynbEditor.load content file e = IpynbEditor.Resolved e' ->
  IpynbEditor.file e' = file
  /\ exists cells,
       IpynbEditor.importCells content = Some cells
       /\ IpynbEditor.baseCalls e'
          = IpynbEditor.baseCalls e
            ++ [IpynbEditor.setTitle
                  (IpynbEditor.basename (IpynbEditor.fsPath file));
                IpynbEditor.postMessage LoadAllCells cells].
Proof.
  unfold IpynbEditor.load.
  destruct (IpynbEditor.importCells content) as [cells |]; [| discriminate].
  intros [= <-]. cbn. split; [reflexivity |].
  exists cells. split; [reflexivity |]. now rewrite <- app_assoc.
Qed.

(** [load] resolves exactly when the import does. *)
Lemma load_resolves_iff (content : string) (file : IpynbEditor.Uri)
    (e : IpynbEditor.Editor) :
  (exists e', IpynbEditor.load content file e = IpynbEditor.Resolved e')
  <-> IpynbEditor.importCells content <> None.
Proof.
  unfold IpynbEditor.load.
  destruct (IpynbEditor.importCells content) as [cells |]; split.
  - discriminate.
  - intros _. eexists. reflexivity.
  - intros [e' He']. discriminate.
  - intros Hne. now contradiction Hne.
Qed.

End Load.

Lemma load_resolved_witness :
  exists e',
    @IpynbEditor.load Sample.imports Sample.names "{}" Sample.notebook
      Sample.closedEditor = IpynbEditor.Resolved e'
    /\ IpynbEditor.file e' = Sample.notebook
    /\ IpynbEditor.baseCalls e'
       = [IpynbEditor.setTitle "nb.ipynb";
          IpynbEditor.postMessage "load_all_cells" [Sample.twoLines; Sample.other]].
Proof.
  eexists. split; [reflexivity |].
  destruct (@load_resolved Sample.imports Sample.names "{}" Sample.notebook
              Sample.closedEditor _ eq_refl) as (Hfile & cells & Himport & Hcalls).
  split; [exact Hfile |].
  rewrite Hcalls. injection Himport as <-. reflexivity.
Defined.

(** ** Showing, hiding, collapsing and expanding a cell *)

Lemma substring_min (n : nat) (s : string) :
  substring 0 (Nat.min n (String.length s)) s = substring 0 n s.
Proof.
  revert n. induction s as [| ch rest IH]; intros n.
  - now destruct n.
  - destruct n as [| n']; [reflexivity |].
    simpl. now rewrite IH.
Qed.

Lemma strslice_substring (s : string) (e : Z) :
  0 <= e -> Js.strslice s 0 e = substring 0 (Z.to_nat e) s.
Proof.
  intros He. unfold Js.strslice, Js.relative, Js.strlen.
  replace (0 <? 0) with false by reflexivity.
  assert (Hlt : (e <? 0) = false) by (apply Z.ltb_ge; lia).
  rewrite Hlt.
  replace (Z.min 0 (Z.of_nat (String.length s))) with 0 by lia.
  rewrite Z.sub_0_r. simpl Z.to_nat at 1.
  rewrite <- (substring_min (Z.to_nat e)). f_equal. lia.
Qed.

(** [splitFirst] cuts the text at its first line feed. *)
Lemma splitFirst_line (s : string) :
  (forall n, get n (Js.splitFirst s) <> Some Js.newline)
  /\ (s = Js.splitFirst s
      \/ exists rest, s = (Js.splitFirst s ++ String Js.newline rest)%string).
Proof.
  induction s as [| ch tail [IHfree IHcut]].
  - split; [now intros [| n] | now left].
  - simpl. destruct (Ascii.eqb_spec ch Js.newline) as [-> | Hch].
    + split; [now intros [| n] | right; now exists tail].
    + split.
      * intros [| n]; simpl; [congruence | apply IHfree].
      * destruct IHcut as [Hall | [rest Hrest]].
        -- left. now rewrite <- Hall.
        -- right. exists rest. simpl. now rewrite <- Hrest.
Qed.

Lemma collapsedText_spec (text : string) :
  collapsedText text
  = if (text =? "")%string then ""
    else (substring 0 255 (Js.splitFirst text) ++ "...")%string.
Proof.
  unfold collapsedText. destruct text as [| ch rest]; [reflexivity |].
  replace (0 <? Js.strlen (String ch rest)) with true
    by (symmetry; apply Z.ltb_lt; unfold Js.strlen; simpl String.length; lia).
  rewrite strslice_substring by lia. reflexivity.
Qed.

Section AlterCellVM.
Context `{Externals}.
Variable st : Settings.

Lemma alterCellVM_not_code (vm : ICellViewModel) (visible expanded : bool) :
  cell_type (data (cell vm)) <> "code" -> alterCellVM st vm visible expanded = vm.
Proof.
  intros Hcode. unfold alterCellVM.
  destruct (String.eqb_spec (cell_type (data (cell vm))) "code");
    [contradiction | reflexivity].
Qed.

(** C5, as the code has it.  For a code cell that is shown and needs
    collapsing: [alterCellVM] with [expanded = false] on an open input block
    closes it and sets its text to the first line of the extracted input
    text, cut after 255 characters, followed by ["..."] (an empty text stays
    empty); with [expanded = true] on a closed input block it opens it and
    sets the full extracted text; when the block already is in the state asked
    for, its text is left as it is.  A cell that is not a code cell is
    returned unchanged. *)
Theorem alterCellVM_collapse_expand (vm : ICellViewModel) (visible : bool) :
  (cell_type (data (cell vm)) = "code" ->
   inputBlockShow vm = true ->
   inputBlockCollapseNeeded vm = true ->
   let text := extractInputText (cell vm) st in
   (inputBlockOpen vm = true ->
    let vm' := alterCellVM st vm visible false in
    inputBlockOpen vm' = false
    /\ inputBlockText vm'
       = (if (text =? "")%string then ""
          else (substring 0 255 (Js.splitFirst text) ++ "...")%string)
    /\ (String.length (substring 0 255 (Js.splitFirst text)) <= 255)%nat)
   /\ (inputBlockOpen vm = false ->
       let vm' := alterCellVM st vm visible true in
       inputBlockOpen vm' = true /\ inputBlockText vm' = text)
   /\ (forall expanded, inputBlockOpen vm = expanded ->
       let vm' := alterCellVM st vm visible expanded in
       inputBlockOpen vm' = expanded
       /\ inputBlockText vm' = inputBlockText vm))
  /\ (cell_type (data (cell vm)) <> "code" ->
      forall expanded, alterCellVM st vm visible expanded = vm).
Proof.
  split.
  - intros Hcode Hshow Hneeded. cbv zeta.
    unfold alterCellVM. rewrite Hcode.
    replace ("code" =? "code")%string with true by reflexivity.
    destruct vm as [c show open text needed canEdit direct].
    simpl in Hshow, Hneeded. subst show needed.
    split; [| split].
    + intros Hopen. simpl in Hopen. subst open.
      rewrite <- collapsedText_spec.
      split; [| split]; [| | apply substring_length_le];
        destruct visible; reflexivity.
    + intros Hopen. simpl in Hopen. subst open.
      split; destruct visible; reflexivity.
    + intros expanded Hopen. simpl in Hopen. subst open.
      split; destruct visible, expanded; reflexivity.
  - intros Hcode expanded. now apply alterCellVM_not_code.
Qed.

End AlterCellVM.

Lemma alterCellVM_collapse_expand_witness :
  let vm := Sample.shownOpen in
  let vm' := @alterCellVM Sample.externals Sample.someSettings vm true false in
  inputBlockOpen vm' = false /\ inputBlockText vm' = "a...".
Proof.
  cbv zeta.
  destruct (proj1 (@alterCellVM_collapse_expand Sample.externals
                     Sample.someSettings Sample.shownOpen true)
              eq_refl eq_refl eq_refl) as [Hcollapse _].
  destruct (Hcollapse eq_refl) as (Hopen & Htext & _).
  split; [exact Hopen | exact Htext].
Defined.

(** C5 as the specification words it fails on a cell whose input block is
    already closed: [alterCellVM(vm, true, false)] returns such a view-model
    as it is, whatever its text. *)
Lemma alterCellVM_collapse_counterexample :
  ~ (forall (X : Externals) (st : Settings) (vm : ICellViewModel)
            (visible : bool),
        cell_type (data (cell vm)) = "code" ->
        inputBlockShow vm = true ->
        inputBlockCollapseNeeded vm = true ->
        let text := extractInputText (cell vm) st in
        inputBlockText (alterCellVM st vm visible false)
        = (if (text =? "")%string then ""
           else (substring 0 255 (Js.splitFirst text) ++ "...")%string)).
Proof.
  intros Hclaim.
  specialize (Hclaim Sample.externals Sample.someSettings
                Sample.shownCollapsedStale true eq_refl eq_refl eq_refl).
  discriminate Hclaim.
Qed.

(** C8 at a hidden code cell whose input block is open and needs collapsing:
    the first [alterCellVM(vm, true, false)] only shows the cell, because the
    test for collapsing reads [inputBlockShow] of the view-model it was given;
    the second one collapses it. *)
Lemma alterCellVM_twice_on_hidden_cell :
  let alter := @alterCellVM Sample.externals Sample.someSettings in
  let once := alter Sample.hiddenOpen true false in
  let twice := alter once true false in
  once = mkCellVM Sample.twoLines true true (source (data Sample.twoLines))
                  true false None
  /\ twice = mkCellVM Sample.twoLines true false "a..." true false None
  /\ twice <> once.
Proof.
  cbv zeta. split; [reflexivity | split; [reflexivity | discriminate]].
Qed.

(** Apart from that case, a second [alterCellVM] changes nothing. *)
Lemma alterCellVM_idempotent_unless `{Externals} (st : Settings)
    (vm : ICellViewModel) (visible expanded : bool) :
  (cell_type (data (cell vm)) = "code"
   /\ inputBlockShow vm = false /\ visible = true
   /\ inputBlockCollapseNeeded vm = true
   /\ inputBlockOpen vm <> expanded)
  \/ alterCellVM st (alterCellVM st vm visible expanded) visible expanded
     = alterCellVM st vm visible expanded.
Proof.
  destruct vm as [c show open text needed canEdit direct].
  unfold alterCellVM. cbn [cell inputBlockShow inputBlockOpen
                            inputBlockCollapseNeeded].
  destruct (String.eqb_spec (cell_type (data c)) "code") as [Hcode | Hcode].
  - destruct show, open, needed, visible, expanded; cbn;
      rewrite ?Hcode; cbn;
      first [ now right | left; repeat split; discriminate ].
  - right. cbn. now destruct (String.eqb_spec (cell_type (data c)) "code").
Qed.

(** ** Execution events and the execution count *)

Section ExecutionCount.
Context `{Host} `{X : Externals} `{@ControllerClass X} `{InteractiveWindowMessages}.
Variable props : IMainStateControllerProps.

Local Notation "'count' c" := (currentExecutionCount (mainState c))
  (at level 10, c at level 9, only parsing).

Lemma newExecutionCount_spec (n : Z) (target : ICell) :
  newExecutionCount n target
  = match execution_count (data target) with
    | Some x => if Js.truthy x then Z.max n (Js.integerRead x) else n
    | None => n
    end.
Proof.
  unfold newExecutionCount.
  destruct (execution_count (data target)) as [x |]; [| reflexivity].
  now rewrite parseIntOfToString_spec.
Qed.

Lemma newExecutionCount_ge (n : Z) (target : ICell) :
  n <= newExecutionCount n target.
Proof.
  rewrite newExecutionCount_spec.
  destruct (execution_count (data target)) as [x |]; [| lia].
  destruct (Js.truthy x); lia.
Qed.







End ExecutionCount.



(** It fails as well, with every cell supported, on an execution count that
    is no integer below 10^21: for 1e21 the count becomes 1, which is what
    [parseInt] reads in ['1e+21']. *)
Lemma cell_events_execution_count_large :
  let target :=
    mkCell "c2" "foo.py" 5 finished
           (mkCellData "code" "x = 1" (Some (Js.Finite false 1 22)) []) in
  Js.valueOf (Js.Finite false 1 22) = 10 ^ 21
  /\ currentExecutionCount
       (mainState (after (@handleMessage Sample.host Sample.externals
                            Sample.main Sample.names Sample.production
                            "finish_cell" (Some (PCell target))
                            Sample.twoCells)))
     = 1.
Proof. split; vm_compute; reflexivity. Qed.

(** ** The dispatcher *)

Section Dispatch.
Context `{Host} `{X : Externals} `{@ControllerClass X} `{InteractiveWindowMessages}.
Variable props : IMainStateControllerProps.

Lemma returned_then_ret {A B} (m : M A) (b b' : B) (c : Controller) :
  returned (bind m (fun _ => ret b) c) = Some b' -> b' = b.
Proof.
  unfold bind, ret. destruct (m c); cbn; congruence.
Qed.

Lemma returned_cast_then_ret {A B C} (cast : M A) (k : A -> M B) (b b' : C)
    (c : Controller) :
  returned (bind cast (fun a => bind (k a) (fun _ => ret b)) c) = Some b' ->
  b' = b.
Proof.
  unfold bind at 1. destruct (cast c) as [a c' | c' | c']; cbn;
    [apply returned_then_ret | discriminate | discriminate].
Qed.

(** Whenever [handleMessage] returns, it returns [true] for the nine message
    types and [false] for any other string. *)
Lemma handleMessage_returns (msg : string) (payload : option Payload)
    (c : Controller) (b : bool) :
  returned (handleMessage props msg payload c) = Some b ->
  b = answersTrue msg.
Proof.
  unfold handleMessage, answersTrue.
  repeat match goal with
  | |- context [if (msg =? ?name)%string then _ else _] =>
      destruct (msg =? name)%string;
      [ rewrite ?orb_true_r; cbn [orb];
        first [ apply returned_then_ret | apply returned_cast_then_ret ] | ]
  end.
  cbn [orb]. apply returned_then_ret.
Qed.

(** The three cases that [NativeEditorStateController] adds return. *)
Lemma native_cases_return (msg : string) (c : Controller) :
  exists c',
    (if (msg =? LoadAllCells)%string then stopBusy
     else if (msg =? NotebookDirty)%string then setState (set_dirty true)
     else if (msg =? NotebookClean)%string then setState (set_dirty false)
     else ret tt) c = Returned tt c'.
Proof.
  destruct (msg =? LoadAllCells)%string.
  - unfold stopBusy, bind, getState. destruct (busy (mainState c));
      eexists; reflexivity.
  - destruct (msg =? NotebookDirty)%string; [eexists; reflexivity |].
    destruct (msg =? NotebookClean)%string; eexists; reflexivity.
Qed.

(** [NativeEditorStateController.handleMessage] returns when, and what, the
    base dispatcher returns. *)
Lemma native_handleMessage_returns (msg : string) (payload : option Payload)
    (c : Controller) :
  returned (native_handleMessage props msg payload c)
  = returned (handleMessage props msg payload c).
Proof.
  unfold native_handleMessage. unfold bind at 1.
  destruct (handleMessage props msg payload c) as [b c1 | c1 | c1];
    [| reflexivity | reflexivity].
  unfold bind. destruct (native_cases_return msg c1) as [c2 ->].
  reflexivity.
Qed.

(** A string without a case falls to [default]: [handleMessage] returns
    [false] and the controller is as before. *)
Lemma handleMessage_default (msg : string) (payload : option Payload)
    (c : Controller) :
  hasCase msg = false -> handleMessage props msg payload c = Returned false c.
Proof.
  unfold hasCase, answersTrue. intros Hcase.
  repeat match type of Hcase with
         | (_ || _)%bool = false =>
             let Hlast := fresh "Hlast" in
             apply orb_false_iff in Hcase as [Hcase Hlast]
         end.
  unfold handleMessage.
  repeat match goal with
         | Hname : (msg =? ?name)%string = false |- _ =>
             rewrite Hname; clear Hname
         end.
  reflexivity.
Qed.

(** On a controller whose cell list and popped snapshot are arrays the nine
    cases return [true]; here for [Undo], for an execution event and for
    [GetAllCells]. *)
Lemma handleMessage_returns_true_examples :
  returned (@handleMessage Sample.host Sample.externals Sample.main Sample.names
              Sample.production "undo" None Sample.twoCells) = Some true
  /\ returned (@handleMessage Sample.host Sample.externals Sample.main
                 Sample.names Sample.production "finish_cell"
                 (Some (PCell Sample.other)) Sample.twoCells) = Some true
  /\ returned (@handleMessage Sample.host Sample.externals Sample.main
                 Sample.names Sample.production "get_all_cells" None
                 Sample.twoCells) = Some true
  /\ returned (@handleMessage Sample.host Sample.externals Sample.main
                 Sample.names Sample.production "restart_kernel" None
                 Sample.twoCells) = Some false.
Proof. repeat split. Qed.

(** A [ScrollToCell] message without payload: the case reads [payload.id]
    and the [TypeError] leaves [handleMessage]. *)
Lemma handleScrollToCell_no_payload (c : Controller) :
  handleScrollToCell None c = Thrown c.
Proof. reflexivity. Qed.

End Dispatch.

(** C6 at [ScrollToCell] without payload: no value is returned, where the
    claim has [false]; the native editor's dispatcher does the same. *)
Lemma handleMessage_scrollToCell_without_payload :
  @handleMessage Sample.host Sample.externals Sample.main Sample.names
    Sample.production "scroll_to_cell" None Sample.oneCell
  = Thrown Sample.oneCell
  /\ @native_handleMessage Sample.host Sample.externals
       (@NativeEditorStateController Sample.externals) Sample.names
       Sample.production "scroll_to_cell" None Sample.oneCell
     = Thrown Sample.oneCell
  /\ @answersTrue Sample.names "scroll_to_cell" = false.
Proof. split; [reflexivity | split; reflexivity]. Qed.

(** ** The stacks stay bounded *)

Lemma slice_length_le {A} (l : list A) (b e : Z) :
  (List.length (Js.slice l b e) <= List.length l)%nat.
Proof.
  unfold Js.slice. rewrite length_firstn, length_skipn. lia.
Qed.

Section StackBound.
Context `{Host}.

Lemma keeps_ret {A} (a : A) : keepsStacksBounded (ret a).
Proof. now intros c Hc. Qed.

Lemma keeps_throw {A} : keepsStacksBounded (@throw _ A).
Proof. now intros c Hc. Qed.

Lemma keeps_untyped {A} : keepsStacksBounded (@untyped _ A).
Proof. now intros c Hc. Qed.

Lemma keeps_defined {A} (o : option A) : keepsStacksBounded (defined o).
Proof. intros c Hc. now rewrite after_defined. Qed.

Lemma keeps_getState : keepsStacksBounded getState.
Proof. now intros c Hc. Qed.

Lemma keeps_getSettings : keepsStacksBounded getSettings.
Proof. now intros c Hc. Qed.

Lemma keeps_putSettings (st : Settings) : keepsStacksBounded (putSettings st).
Proof. now intros c Hc. Qed.

Lemma keeps_sendMessage (type : string) (payload : Sent) :
  keepsStacksBounded (sendMessage type payload).
Proof. now intros c Hc. Qed.

Lemma keeps_postAll (ms : list Message) : keepsStacksBounded (postAll ms).
Proof. now intros c Hc. Qed.

Lemma keeps_callProps (call : PropsCall) : keepsStacksBounded (callProps call).
Proof. now intros c Hc. Qed.

Lemma keeps_setState (newState : IMainState -> IMainState) :
  (forall s, stacksBounded s -> stacksBounded (newState s)) ->
  keepsStacksBounded (setState newState).
Proof. intros Hnew c Hc. now apply Hnew. Qed.

Lemma keeps_bind {A B} (m : M A) (k : A -> M B) :
  keepsStacksBounded m -> (forall a, keepsStacksBounded (k a)) ->
  keepsStacksBounded (bind m k).
Proof.
  intros Hm Hk c Hc. rewrite after_bind.
  specialize (Hm c Hc). destruct (m c) as [a c' | c' | c']; cbn in Hm;
    [now apply Hk | exact Hm | exact Hm].
Qed.

(** After [this.state] was read, what follows may rely on the bound for the
    state that was read. *)
Lemma keeps_with_state {B} (k : IMainState -> M B) :
  (forall s, stacksBounded s -> keepsStacksBounded (k s)) ->
  keepsStacksBounded (bind getState k).
Proof.
  intros Hk c Hc. rewrite after_bind. cbn. now apply Hk.
Qed.

Lemma keeps_forEach {A} (f : A -> M unit) (xs : list A) :
  (forall x, keepsStacksBounded (f x)) -> keepsStacksBounded (forEach f xs).
Proof.
  intros Hf. induction xs as [| x rest IH]; cbn [forEach].
  - apply keeps_ret.
  - apply keeps_bind; [apply Hf | intros _; exact IH].
Qed.

Lemma bounded_pushStack (stack : list Cells) (cells : Cells) :
  (List.length (pushStack stack cells) <= 11)%nat.
Proof. apply pushStack_length. Qed.

Lemma bounded_slice (stack : list Cells) (b e : Z) :
  (List.length stack <= 11)%nat -> (List.length (Js.slice stack b e) <= 11)%nat.
Proof. intros Hlen. pose proof (slice_length_le stack b e). lia. Qed.

End StackBound.

Create HintDb stacks.

#[local] Hint Resolve keeps_ret keeps_throw keeps_untyped keeps_defined
  keeps_getState keeps_getSettings keeps_putSettings keeps_sendMessage
  keeps_postAll keeps_callProps bounded_pushStack bounded_slice : stacks.

(** One step through a method: a bind, a branch, or a write whose new stacks
    come from [pushStack], from [slice], or from the state itself. *)
Ltac keeps_step :=
  lazymatch goal with
  | |- keepsStacksBounded (bind getState _) =>
      apply keeps_with_state; intros ? ?
  | |- keepsStacksBounded (bind _ _) => apply keeps_bind; [| intros ?]
  | |- keepsStacksBounded (setState _) =>
      apply keeps_setState;
      let s := fresh "s" in let Hs := fresh "Hs" in
      intros s Hs; destruct Hs;
      repeat match goal with
             | Hb : stacksBounded _ |- _ => destruct Hb
             end;
      split; cbn; auto with stacks
  | |- keepsStacksBounded (if ?b then _ else _) => destruct b
  | |- keepsStacksBounded (match ?x with _ => _ end) => destruct x
  | |- keepsStacksBounded _ => solve [auto with stacks]
  end.

Ltac keeps := cbv zeta; repeat keeps_step.

Section StackBoundOfMethods.
Context `{Host} `{X : Externals} `{@ControllerClass X} `{InteractiveWindowMessages}.
Variable props : IMainStateControllerProps.

Lemma keeps_sendInfo : keepsStacksBounded sendInfo.
Proof. unfold sendInfo, getNonEditCellVMs. keeps. Qed.

Lemma keeps_stopBusy : keepsStacksBounded stopBusy.
Proof. unfold stopBusy. keeps. Qed.

Lemma keeps_redo : keepsStacksBounded redo.
Proof. unfold redo. keeps. apply keeps_sendInfo. Qed.

Lemma keeps_undo : keepsStacksBounded undo.
Proof. unfold undo. keeps. apply keeps_sendInfo. Qed.

Lemma keeps_deleteCell (cellId : string) : keepsStacksBounded (deleteCell cellId).
Proof. unfold deleteCell. keeps. Qed.

Lemma keeps_alterAllCellVMs (visible expanded : bool) :
  keepsStacksBounded (alterAllCellVMs visible expanded).
Proof. unfold alterAllCellVMs. keeps. Qed.

Lemma keeps_collapseAllSilent : keepsStacksBounded collapseAllSilent.
Proof. unfold collapseAllSilent. keeps; apply keeps_alterAllCellVMs. Qed.

Lemma keeps_expandAllSilent : keepsStacksBounded expandAllSilent.
Proof. unfold expandAllSilent. keeps; apply keeps_alterAllCellVMs. Qed.

Lemma keeps_clearAllSilent : keepsStacksBounded clearAllSilent.
Proof. unfold clearAllSilent. keeps. apply keeps_sendInfo. Qed.

Lemma keeps_addCell (payload : option ICell) :
  keepsStacksBounded (addCell props payload).
Proof. unfold addCell. keeps. apply keeps_sendInfo. Qed.

Lemma keeps_submitInput (code : string) (inputCell : option ICellViewModel)
    (fresh : string) :
  keepsStacksBounded (submitInput props code inputCell fresh).
Proof. unfold submitInput. keeps. Qed.

Lemma keeps_inputBlockToggled (cellId : string) :
  keepsStacksBounded (inputBlockToggled cellId).
Proof. unfold inputBlockToggled. keeps. Qed.

Lemma keeps_refreshVariables (n : option Z) :
  keepsStacksBounded (refreshVariables n).
Proof. unfold refreshVariables. keeps. Qed.

Lemma keeps_getAllCells : keepsStacksBounded getAllCells.
Proof. unfold getAllCells. keeps. Qed.

Lemma keeps_updateOrAdd (target : ICell) (allowAdd : bool) :
  keepsStacksBounded (updateOrAdd props target allowAdd).
Proof.
  unfold updateOrAdd. keeps;
    first [apply keeps_refreshVariables | apply keeps_addCell].
Qed.

Lemma keeps_finishCell (payload : option ICell) :
  keepsStacksBounded (finishCell props payload).
Proof.
  unfold finishCell. keeps;
    first [apply keeps_updateOrAdd | apply keeps_sendInfo].
Qed.

Lemma keeps_startCell (payload : option ICell) :
  keepsStacksBounded (startCell props payload).
Proof. unfold startCell. keeps; apply keeps_updateOrAdd. Qed.

Lemma keeps_updateCell (payload : option ICell) :
  keepsStacksBounded (updateCell props payload).
Proof. unfold updateCell. keeps; apply keeps_updateOrAdd. Qed.

Lemma keeps_hostHandler (h : HostHandler) (payload : option Payload) :
  keepsStacksBounded (hostHandler props h payload).
Proof. unfold hostHandler, asHostPayload. keeps. Qed.

Lemma keeps_updateSettings (payload : option Payload) :
  keepsStacksBounded (updateSettings payload).
Proof.
  unfold updateSettings, toggleCellInputVisibility. keeps;
    apply keeps_alterAllCellVMs.
Qed.

Lemma keeps_handleLoadAllCells (payload : option Payload) :
  keepsStacksBounded (handleLoadAllCells props payload).
Proof.
  unfold handleLoadAllCells. keeps.
  apply keeps_forEach. intros target. apply keeps_finishCell.
Qed.

Lemma keeps_handleScrollToCell (payload : option Payload) :
  keepsStacksBounded (handleScrollToCell payload).
Proof. unfold handleScrollToCell. keeps. Qed.

#[local] Hint Resolve keeps_sendInfo keeps_stopBusy keeps_redo keeps_undo
  keeps_deleteCell keeps_alterAllCellVMs keeps_collapseAllSilent
  keeps_expandAllSilent keeps_clearAllSilent keeps_addCell keeps_submitInput
  keeps_inputBlockToggled keeps_refreshVariables keeps_updateOrAdd
  keeps_finishCell keeps_startCell keeps_updateCell keeps_hostHandler
  keeps_updateSettings keeps_handleLoadAllCells keeps_handleScrollToCell
  keeps_getAllCells : stacks.

Lemma keeps_handleMessage (msg : string) (payload : option Payload) :
  keepsStacksBounded (handleMessage props msg payload).
Proof. unfold handleMessage, asCell. keeps. Qed.

Lemma keeps_native_handleMessage (msg : string) (payload : option Payload) :
  keepsStacksBounded (native_handleMessage props msg payload).
Proof.
  unfold native_handleMessage. keeps. apply keeps_handleMessage.
Qed.

Lemma keeps_perform (call : Call) : keepsStacksBounded (perform props call).
Proof.
  destruct call; cbn [perform];
    unfold collapseAll, expandAll, clearAll, codeLostFocus, codeGotFocus,
      selectCell;
    keeps; apply keeps_handleMessage.
Qed.

(** C9.  [pushStack] keeps the first [min(length, 10)] snapshots of the
    stack and appends the new one, so its result has at most 11; every call
    on the controller keeps both stacks within 11 snapshots; hence both
    stacks hold at most 11 snapshots in every controller reached from one
    whose stacks are empty. *)
Theorem stacks_hold_at_most_11 (start c : Controller) :
  undoStack (mainState start) = [] ->
  redoStack (mainState start) = [] ->
  reachable props start c ->
  (List.length (undoStack (mainState c)) <= 11)%nat
  /\ (List.length (redoStack (mainState c)) <= 11)%nat
  /\ (forall call,
        (List.length (undoStack (mainState (after (perform props call c)))) <= 11)%nat
        /\ (List.length (redoStack (mainState (after (perform props call c)))) <= 11)%nat)
  /\ (forall stack cells,
        pushStack stack cells
        = firstn (Nat.min (List.length stack) 10) stack ++ [cells]
        /\ (List.length (pushStack stack cells) <= 11)%nat).
Proof.
  intros Hundo Hredo Hreach.
  assert (Hbound : stacksBounded (mainState c)).
  { induction Hreach as [| c call Hreach IH Htyped].
    - unfold stacksBounded. rewrite Hundo, Hredo. simpl. lia.
    - now apply keeps_perform. }
  destruct Hbound as [Hu Hr]. split; [exact Hu |]. split; [exact Hr |].
  split.
  - intros call. apply (keeps_perform call c). now split.
  - intros stack cells. split; [apply pushStack_firstn | apply pushStack_length].
Qed.

End StackBoundOfMethods.

Lemma stacks_hold_at_most_11_witness :
  let c := after (@perform Sample.host Sample.externals Sample.main
                    Sample.names Sample.production
                    (call_addCell (Some Sample.other)) Sample.oneCell) in
  undoStack (mainState c) = [Some [Sample.shownOpen]]
  /\ (List.length (undoStack (mainState c)) <= 11)%nat
  /\ (List.length (redoStack (mainState c)) <= 11)%nat.
Proof.
  cbv zeta. split; [reflexivity |].
  assert (Hreach : @reachable Sample.host Sample.externals Sample.main
                     Sample.names Sample.production Sample.oneCell
                     (after (@perform Sample.host Sample.externals Sample.main
                               Sample.names Sample.production
                               (call_addCell (Some Sample.other))
                               Sample.oneCell))).
  { apply reach_call; [apply reach_start | exact I]. }
  destruct (@stacks_hold_at_most_11 Sample.host Sample.externals Sample.main
              Sample.names Sample.production Sample.oneCell _ eq_refl eq_refl
              Hreach) as (Hu & Hr & _).
  split; [exact Hu | exact Hr].
Defined.

(** * Further properties *)

(** ** A small logic of kept properties *)

Section Keeping.
Context `{Host}.
Variable I : IMainState -> Prop.

Lemma kept_ret {A} (a : A) : keeps I (ret a).
Proof. now intros c Hc. Qed.

Lemma kept_throw {A} : keeps I (@throw _ A).
Proof. now intros c Hc. Qed.

Lemma kept_untyped {A} : keeps I (@untyped _ A).
Proof. now intros c Hc. Qed.

Lemma kept_defined {A} (o : option A) : keeps I (defined o).
Proof. intros c Hc. now rewrite after_defined. Qed.

Lemma kept_getState : keeps I getState.
Proof. now intros c Hc. Qed.

Lemma kept_getSettings : keeps I getSettings.
Proof. now intros c Hc. Qed.

Lemma kept_putSettings (st : Settings) : keeps I (putSettings st).
Proof. now intros c Hc. Qed.

Lemma kept_sendMessage (type : string) (payload : Sent) :
  keeps I (sendMessage type payload).
Proof. now intros c Hc. Qed.

Lemma kept_postAll (ms : list Message) : keeps I (postAll ms).
Proof. now intros c Hc. Qed.

Lemma kept_callProps (call : PropsCall) : keeps I (callProps call).
Proof. now intros c Hc. Qed.

Lemma kept_setState (newState : IMainState -> IMainState) :
  (forall s, I s -> I (newState s)) -> keeps I (setState newState).
Proof. intros Hnew c Hc. now apply Hnew. Qed.

Lemma kept_bind {A B} (m : M A) (k : A -> M B) :
  keeps I m -> (forall a, keeps I (k a)) -> keeps I (bind m k).
Proof.
  intros Hm Hk c Hc. rewrite after_bind.
  specialize (Hm c Hc). destruct (m c) as [a c' | c' | c']; cbn in Hm;
    [now apply Hk | exact Hm | exact Hm].
Qed.

Lemma kept_with_state {B} (k : IMainState -> M B) :
  (forall s, I s -> keeps I (k s)) -> keeps I (bind getState k).
Proof. intros Hk c Hc. rewrite after_bind. cbn. now apply Hk. Qed.

Lemma kept_forEach {A} (f : A -> M unit) (xs : list A) :
  (forall x, keeps I (f x)) -> keeps I (forEach f xs).
Proof.
  intros Hf. induction xs as [| x rest IH]; cbn [forEach].
  - apply kept_ret.
  - apply kept_bind; [apply Hf | intros _; exact IH].
Qed.

End Keeping.

Create HintDb kept.

#[local] Hint Resolve kept_ret kept_throw kept_untyped kept_defined
  kept_getState kept_getSettings kept_putSettings kept_sendMessage
  kept_postAll kept_callProps : kept.

(** One step through a method for a kept property; [write] proves that a
    [setState] keeps it, and a comparison of the message with a name that the
    hypotheses exclude is discarded. *)
Ltac kept_step write :=
  lazymatch goal with
  | |- keeps _ (bind getState _) => apply kept_with_state; intros ? ?
  | |- keeps _ (bind _ _) => apply kept_bind; [| intros ?]
  | |- keeps _ (setState _) =>
      apply kept_setState;
      let s := fresh "s" in let Hs := fresh "Hs" in
      intros s Hs; write
  | |- keeps _ (if (?msg =? ?name)%string then _ else _) =>
      let E := fresh "E" in
      destruct (msg =? name)%string eqn:E;
      [ try solve [exfalso; apply String.eqb_eq in E; auto] | ]
  | |- keeps _ (if ?b then _ else _) => destruct b
  | |- keeps _ (match ?x with _ => _ end) => destruct x
  | |- keeps _ _ => solve [auto with kept]
  end.

Ltac kept write := repeat (cbv beta iota zeta; kept_step write).

Lemma kept_at `{Host} {A} (I : IMainState -> Prop) (m : M A) (c : Controller) :
  keeps I m -> I (mainState c) -> I (mainState (after (m c))).
Proof. intros Hm Hc. now apply Hm. Qed.

Lemma Forall_slice {A} (P : A -> Prop) (l : list A) (b e : Z) :
  Forall P l -> Forall P (Js.slice l b e).
Proof.
  intros Hl. unfold Js.slice.
  assert (Hskip : forall n (xs : list A), Forall P xs -> Forall P (skipn n xs)).
  { induction n as [| n IH]; intros xs Hxs; [exact Hxs |].
    destruct Hxs; [constructor | now apply IH]. }
  assert (Hfirst : forall n (xs : list A), Forall P xs -> Forall P (firstn n xs)).
  { induction n as [| n IH]; intros xs Hxs; [constructor |].
    destruct Hxs; constructor; [assumption | now apply IH]. }
  now apply Hfirst, Hskip.
Qed.

Lemma Forall_pushStack (P : Cells -> Prop) (stack : list Cells) (cells : Cells) :
  Forall P stack -> P cells -> Forall P (pushStack stack cells).
Proof.
  intros Hstack Hcells. unfold pushStack. apply Forall_app. split.
  - now apply Forall_slice.
  - now constructor.
Qed.

Ltac unfold_methods :=
  unfold perform, handleMessage, native_handleMessage,
    hostHandler, updateSettings, handleLoadAllCells, handleScrollToCell,
    startCell, finishCell, updateCell, updateOrAdd, addCell, submitInput,
    inputBlockToggled, getAllCells, refreshVariables, clearAll, clearAllSilent,
    collapseAll, expandAll, collapseAllSilent, expandAllSilent,
    toggleCellInputVisibility, alterAllCellVMs, deleteCell, stopBusy,
    codeLostFocus, codeGotFocus, selectCell, sendInfo, getNonEditCellVMs,
    asCell, asHostPayload.

(** ** Which calls write the stacks and the execution count *)

Section WhoWrites.
Context `{Host} `{X : Externals} `{@ControllerClass X} `{InteractiveWindowMessages}.
Variable props : IMainStateControllerProps.

Lemma kept_finishCell_each (I : IMainState -> Prop) (cells : list ICell) :
  (forall target, keeps I (finishCell props (Some target))) ->
  keeps I (forEach (fun c => finishCell props (Some c)) cells).
Proof. intros Hfinish. now apply kept_forEach. Qed.

(** No call lowers [currentExecutionCount], except the [RestartKernel]
    message. *)
Theorem executionCount_lowered_by_restart_only (call : Call) (c : Controller) :
  notRestart call ->
  currentExecutionCount (mainState c)
  <= currentExecutionCount (mainState (after (perform props call c))).
Proof.
  intros Hcall.
  assert (Hkeeps : keeps (fun s => currentExecutionCount (mainState c)
                                   <= currentExecutionCount s)
                         (perform props call)).
  { assert (Hundo : keeps (fun s => currentExecutionCount (mainState c)
                                    <= currentExecutionCount s) undo).
    { unfold undo. unfold_methods. kept ltac:(cbn; assumption). }
    assert (Hredo : keeps (fun s => currentExecutionCount (mainState c)
                                    <= currentExecutionCount s) redo).
    { unfold redo. unfold_methods. kept ltac:(cbn; assumption). }
    destruct call as [msg payload | | | | | | | | | | | | | |];
      cbn in Hcall; try exact Hundo; try exact Hredo;
      unfold_methods;
      try (kept ltac:(cbn;
             first [ assumption
                   | lazymatch goal with
                     | |- _ <= newExecutionCount ?k _ =>
                         apply Z.le_trans with k;
                         [assumption | apply newExecutionCount_ge]
                     end ]));
      try exact Hundo; try exact Hredo;
      apply kept_forEach; intros target; unfold_methods;
      kept ltac:(cbn;
             first [ assumption
                   | lazymatch goal with
                     | |- _ <= newExecutionCount ?k _ =>
                         apply Z.le_trans with k;
                         [assumption | apply newExecutionCount_ge]
                     end ]). }
  apply Hkeeps. lia.
Qed.

End WhoWrites.

Section WhoWritesStacks.
Context `{Host} `{X : Externals} `{InteractiveWindowMessages}.
Variable props : IMainStateControllerProps.

(** In the interactive window ([MainStateController], whose [alterCellVM]
    copies the view-model it changes), a call that is neither [undo] nor
    [redo], as a method or as a message, leaves the redo stack as it is: a
    new edit ([addCell], [deleteCell], [clearAll], [submitInput] of the edit
    cell) does not clear it.  The calls that write into a view-model of the
    list in place are not spoken of. *)
Theorem redoStack_kept_by_edits (call : Call) (c : Controller) :
  leavesRedoStack call ->
  redoStack (mainState (after (@perform _ X MainStateController _ props call c)))
  = redoStack (mainState c).
Proof.
  intros Hcall.
  assert (Hkeeps : keeps (fun s => redoStack s = redoStack (mainState c))
                         (@perform _ X MainStateController _ props call)).
  { destruct call as [msg payload | | | | | | | | | | | | | |];
      cbn in Hcall; try contradiction;
      try (destruct Hcall as (Hredo & Hundo & Hstart & Hfinish & Hupdate
                              & Hload));
      unfold_methods;
      kept ltac:(cbn; congruence). }
  now apply Hkeeps.
Qed.

(** In the interactive window, collapsing, expanding, toggling an input
    block, focus and selection, [stopBusy], [refreshVariables] and all the
    host's messages leave both stacks as they are: none of them is an
    undoable step.  [alterCellVM] of [MainStateController] copies the
    view-model it changes, so the snapshots are not written through the
    list either. *)
Theorem stacks_kept_by_view_changes (call : Call) (c : Controller) :
  leavesUndoStack call ->
  undoStack (mainState (after (@perform _ X MainStateController _ props call c)))
  = undoStack (mainState c)
  /\ redoStack (mainState (after (@perform _ X MainStateController _ props
                                     call c)))
     = redoStack (mainState c).
Proof.
  intros Hcall.
  assert (Hkeeps : keeps (fun s => undoStack s = undoStack (mainState c)
                                   /\ redoStack s = redoStack (mainState c))
                         (@perform _ X MainStateController _ props call)).
  { destruct call as [msg payload | | | | | | | | | | | | | |];
      cbn in Hcall; try contradiction;
      try (destruct Hcall as (Hstart & Hfinish & Hupdate & Hclear & Hredo
                              & Hundo & Hload));
      unfold_methods;
      kept ltac:(cbn; intuition congruence). }
  now apply Hkeeps.
Qed.

End WhoWritesStacks.
(** ** The cell list stays an array under the toolbar's discipline *)

Ltac well_formed_write :=
  repeat match goal with
         | Hw : wellFormed _ |- _ => destruct Hw as (? & ? & ?)
         end;
  unfold wellFormed; cbn;
  repeat match goal with
         | |- _ /\ _ => split
         end;
  first [ assumption | discriminate
        | apply Forall_pushStack; [assumption | first [assumption | discriminate]]
        | apply Forall_slice; assumption ].

Section WellFormed.
Context `{Host} `{X : Externals} `{@ControllerClass X} `{InteractiveWindowMessages}.
Variable props : IMainStateControllerProps.

Lemma last_of_defined (stack : list Cells) :
  stack <> [] -> Forall (fun cells : Cells => cells <> None) stack ->
  last stack None <> None.
Proof.
  intros Hne Hall.
  destruct stack as [| x rest] using rev_ind; [contradiction |].
  rewrite last_last. apply Forall_app in Hall as [_ Hx]. now inversion Hx.
Qed.

Lemma Forall_removelast {A} (P : A -> Prop) (l : list A) :
  Forall P l -> Forall P (removelast l).
Proof.
  intros Hl. destruct l as [| x rest] using rev_ind; [constructor |].
  rewrite removelast_last. now apply Forall_app in Hl as [Hrest _].
Qed.

Lemma undo_wellFormed (c : Controller) :
  wellFormed (mainState c) -> undoStack (mainState c) <> [] ->
  wellFormed (mainState (after (undo c))).
Proof.
  intros (Hcells & Hundo & Hredo) Hne. rewrite undo_state.
  unfold wellFormed. cbn. split; [| split].
  - now apply last_of_defined.
  - now apply Forall_removelast.
  - now apply Forall_pushStack.
Qed.

Lemma redo_wellFormed (c : Controller) :
  wellFormed (mainState c) -> redoStack (mainState c) <> [] ->
  wellFormed (mainState (after (redo c))).
Proof.
  intros (Hcells & Hundo & Hredo) Hne. rewrite redo_state.
  unfold wellFormed. cbn. split; [| split].
  - now apply last_of_defined.
  - now apply Forall_pushStack.
  - now apply Forall_removelast.
Qed.

Lemma finishCell_wellFormed (payload : option ICell) :
  keeps wellFormed (finishCell props payload).
Proof. unfold_methods. kept well_formed_write. Qed.

Lemma handleMessage_wellFormed (msg : string) (payload : option Payload)
    (c : Controller) :
  wellFormed (mainState c) ->
  guarded (call_handleMessage msg payload) (mainState c) ->
  wellFormed (mainState (after (handleMessage props msg payload c))).
Proof.
  intros Hwf [Hundo Hredo]. unfold handleMessage.
  assert (Hother : forall (m : M bool),
             keeps wellFormed m -> wellFormed (mainState (after (m c)))).
  { intros m Hm. now apply kept_at. }
  destruct (msg =? StartCell)%string;
    [apply Hother; unfold_methods; kept well_formed_write |].
  destruct (msg =? FinishCell)%string;
    [apply Hother; unfold_methods; kept well_formed_write |].
  destruct (msg =? UpdateCell)%string;
    [apply Hother; unfold_methods; kept well_formed_write |].
  destruct (msg =? GetAllCells)%string;
    [apply Hother; unfold_methods; kept well_formed_write |].
  destruct (msg =? ExpandAll)%string;
    [apply Hother; unfold_methods; kept well_formed_write |].
  destruct (msg =? CollapseAll)%string;
    [apply Hother; unfold_methods; kept well_formed_write |].
  destruct (msg =? DeleteAllCells)%string;
    [apply Hother; unfold_methods; kept well_formed_write |].
  destruct (msg =? Redo)%string eqn:Eredo.
  { apply String.eqb_eq in Eredo. rewrite after_bind.
    assert (Hwf' := redo_wellFormed c Hwf (Hredo Eredo)).
    destruct (redo c) as [[] c' | c' | c']; exact Hwf'. }
  destruct (msg =? Undo)%string eqn:Eundo.
  { apply String.eqb_eq in Eundo. rewrite after_bind.
    assert (Hwf' := undo_wellFormed c Hwf (Hundo Eundo)).
    destruct (undo c) as [[] c' | c' | c']; exact Hwf'. }
  apply Hother. unfold_methods. kept well_formed_write.
  apply kept_forEach. intros target. kept well_formed_write.
Qed.

Lemma perform_wellFormed (call : Call) (c : Controller) :
  wellFormed (mainState c) -> guarded call (mainState c) ->
  wellFormed (mainState (after (perform props call c))).
Proof.
  intros Hwf Hguard.
  destruct call as [msg payload | | | | | | | | | | | | | |];
    try solve [apply kept_at; [| exact Hwf];
               unfold_methods; kept well_formed_write].
  - cbn [perform]. rewrite after_bind.
    assert (Hwf' := handleMessage_wellFormed msg payload c Hwf Hguard).
    destruct (handleMessage props msg payload c) as [b c' | c' | c'];
      exact Hwf'.
  - now apply redo_wellFormed.
  - now apply undo_wellFormed.
Qed.

(** When [undo] and [redo] are asked only on a non-empty stack, the cell
    list and every snapshot stay arrays: [cellVMs] is never [undefined] in a
    controller reached from one whose list and snapshots are arrays. *)
Theorem guarded_runs_keep_cell_list (start c : Controller) :
  wellFormed (mainState start) ->
  reachableGuarded props start c ->
  wellFormed (mainState c) /\ cellVMs (mainState c) <> None.
Proof.
  intros Hstart Hreach.
  assert (Hwf : wellFormed (mainState c)).
  { induction Hreach as [| c call Hreach IH Hguard Htyped];
      [exact Hstart | now apply perform_wellFormed]. }
  split; [exact Hwf | apply Hwf].
Qed.

End WellFormed.

(** ** Calls that return *)

Section Returning.
Context `{Host}.
Variable I : IMainState -> Prop.

Lemma rk_ret {A} (a : A) : returnsKeeping I (ret a).
Proof. intros c Hc. now exists a, c. Qed.

Lemma rk_getState : returnsKeeping I getState.
Proof. intros c Hc. now exists (mainState c), c. Qed.

Lemma rk_getSettings : returnsKeeping I getSettings.
Proof. intros c Hc. now exists (settings c), c. Qed.

Lemma rk_putSettings (st : Settings) : returnsKeeping I (putSettings st).
Proof. intros c Hc. eexists _, _. split; [reflexivity | exact Hc]. Qed.

Lemma rk_sendMessage (type : string) (payload : Sent) :
  returnsKeeping I (sendMessage type payload).
Proof. intros c Hc. eexists _, _. split; [reflexivity | exact Hc]. Qed.

Lemma rk_postAll (ms : list Message) : returnsKeeping I (postAll ms).
Proof. intros c Hc. eexists _, _. split; [reflexivity | exact Hc]. Qed.

Lemma rk_callProps (call : PropsCall) : returnsKeeping I (callProps call).
Proof. intros c Hc. eexists _, _. split; [reflexivity | exact Hc]. Qed.

Lemma rk_setState (newState : IMainState -> IMainState) :
  (forall s, I s -> I (newState s)) -> returnsKeeping I (setState newState).
Proof.
  intros Hnew c Hc. eexists _, _. split; [reflexivity | now apply Hnew].
Qed.

Lemma rk_bind {A B} (m : M A) (k : A -> M B) :
  returnsKeeping I m -> (forall a, returnsKeeping I (k a)) ->
  returnsKeeping I (bind m k).
Proof.
  intros Hm Hk c Hc. destruct (Hm c Hc) as (a & c' & Hrun & Hc').
  unfold bind. rewrite Hrun. now apply Hk.
Qed.

Lemma rk_with_state {B} (k : IMainState -> M B) :
  (forall s, I s -> returnsKeeping I (k s)) ->
  returnsKeeping I (bind getState k).
Proof. intros Hk c Hc. unfold bind. cbn. now apply Hk. Qed.

Lemma rk_defined {A B} (a : A) (k : A -> M B) :
  returnsKeeping I (k a) -> returnsKeeping I (bind (defined (Some a)) k).
Proof. intros Hk c Hc. unfold bind. cbn. now apply Hk. Qed.

Lemma rk_forEach {A} (f : A -> M unit) (xs : list A) :
  (forall x, returnsKeeping I (f x)) -> returnsKeeping I (forEach f xs).
Proof.
  intros Hf. induction xs as [| x rest IH]; cbn [forEach].
  - apply rk_ret.
  - apply rk_bind; [apply Hf | intros _; exact IH].
Qed.

End Returning.

Create HintDb returning.

#[local] Hint Resolve rk_ret rk_getState rk_getSettings rk_putSettings
  rk_sendMessage rk_postAll rk_callProps : returning.

(** One step through a method that returns on a well-formed state: the cell
    list that [defined] reads is an array there. *)
Ltac rk_step :=
  lazymatch goal with
  | |- returnsKeeping _ (bind getState _) => apply rk_with_state; intros ? ?
  | |- returnsKeeping _ (bind (defined (cellVMs ?s)) _) =>
      let E := fresh "E" in
      destruct (cellVMs s) eqn:E;
      [ apply rk_defined
      | exfalso;
        match goal with
        | Hw : wellFormed s |- _ => destruct Hw as (Hw & _); now apply Hw
        end ]
  | |- returnsKeeping _ (bind _ _) => apply rk_bind; [| intros ?]
  | |- returnsKeeping _ (setState _) =>
      apply rk_setState;
      let s := fresh "s" in let Hs := fresh "Hs" in
      intros s Hs; well_formed_write
  | |- returnsKeeping _ (if ?b then _ else _) => destruct b
  | |- returnsKeeping _ (match ?x with _ => _ end) => destruct x
  | |- returnsKeeping _ _ => solve [auto with returning]
  end.

Ltac rk := repeat (cbv beta iota zeta; rk_step).

Section NoException.
Context `{Host} `{X : Externals} `{@ControllerClass X} `{InteractiveWindowMessages}.
Variable props : IMainStateControllerProps.

Lemma undo_returns (c : Controller) :
  wellFormed (mainState c) -> undoStack (mainState c) <> [] ->
  exists c', undo c = Returned tt c' /\ wellFormed (mainState c').
Proof.
  intros Hwf Hne.
  assert (Hafter := undo_wellFormed c Hwf Hne).
  destruct Hwf as (Hcells & Hundo & Hredo).
  assert (Htop := last_of_defined _ Hne Hundo). rewrite <- top_last in Htop.
  revert Hafter.
  unfold undo, bind, getState, sendMessage, setState, sendInfo,
    getNonEditCellVMs, defined, ret, throw. cbn.
  destruct (top (undoStack (mainState c))) as [cells |]; [| contradiction].
  cbn. intros Hafter. eexists. split; [reflexivity | exact Hafter].
Qed.

Lemma redo_returns (c : Controller) :
  wellFormed (mainState c) -> redoStack (mainState c) <> [] ->
  exists c', redo c = Returned tt c' /\ wellFormed (mainState c').
Proof.
  intros Hwf Hne.
  assert (Hafter := redo_wellFormed c Hwf Hne).
  destruct Hwf as (Hcells & Hundo & Hredo).
  assert (Htop := last_of_defined _ Hne Hredo). rewrite <- top_last in Htop.
  revert Hafter.
  unfold redo, bind, getState, sendMessage, setState, sendInfo,
    getNonEditCellVMs, defined, ret, throw. cbn.
  destruct (top (redoStack (mainState c))) as [cells |]; [| contradiction].
  cbn. intros Hafter. eexists. split; [reflexivity | exact Hafter].
Qed.

(** On a controller whose cell list and snapshots are arrays, each of the
    nine message types returns [true] (no exception escapes): with no payload
    or a cell as payload, and with [Undo] and [Redo] arriving only when there
    is something to undo or redo. *)
Theorem handleMessage_returns_true (msg : string) (payload : option Payload)
    (c : Controller) :
  wellFormed (mainState c) ->
  guarded (call_handleMessage msg payload) (mainState c) ->
  (payload = None \/ exists target, payload = Some (PCell target)) ->
  answersTrue msg = true ->
  exists c',
    handleMessage props msg payload c = Returned true c'
    /\ wellFormed (mainState c').
Proof.
  intros Hwf [Hundo Hredo] Hpayload Hnine. unfold answersTrue in Hnine.
  assert (Hother : forall (m : M bool),
             returnsKeeping wellFormed m ->
             (forall b c', m c = Returned b c' -> b = true) ->
             exists c', m c = Returned true c' /\ wellFormed (mainState c')).
  { intros m Hm Htrue. destruct (Hm c Hwf) as (b & c' & Hrun & Hwf').
    rewrite (Htrue b c' Hrun) in Hrun. now exists c'. }
  assert (Hvalue : forall A (m : M A) b c',
             bind m (fun _ => ret true) c = Returned b c' -> b = true).
  { intros A m b c'. unfold bind, ret.
    destruct (m c); [intros [= <- _]; reflexivity | discriminate | discriminate]. }
  assert (Hcast : forall (k : option ICell -> M unit),
             (forall target, returnsKeeping wellFormed (k target)) ->
             returnsKeeping wellFormed
               (bind (asCell payload)
                     (fun cell => bind (k cell) (fun _ => ret true)))).
  { intros k Hk.
    destruct Hpayload as [-> | [target ->]]; cbn [asCell];
      (apply rk_bind; [apply rk_ret | intros cell; apply rk_bind;
                                      [apply Hk | intros _; apply rk_ret]]). }
  assert (Hcastvalue : forall (k : option ICell -> M unit) b c',
             bind (asCell payload)
                  (fun cell => bind (k cell) (fun _ => ret true)) c
             = Returned b c' -> b = true).
  { intros k b c'. unfold bind at 1.
    destruct (asCell payload c) as [cell c1 | c1 | c1]; try discriminate.
    unfold bind, ret.
    destruct (k cell c1); [intros [= <- _]; reflexivity | discriminate | discriminate]. }
  unfold handleMessage.
  destruct (msg =? StartCell)%string.
  { apply Hother; [| apply Hcastvalue]. apply Hcast. intros target.
    unfold_methods. rk. }
  destruct (msg =? FinishCell)%string.
  { apply Hother; [| apply Hcastvalue]. apply Hcast. intros target.
    unfold_methods. rk. }
  destruct (msg =? UpdateCell)%string.
  { apply Hother; [| apply Hcastvalue]. apply Hcast. intros target.
    unfold_methods. rk. }
  destruct (msg =? GetAllCells)%string.
  { apply Hother; [| apply Hvalue]. unfold_methods. rk. }
  destruct (msg =? ExpandAll)%string.
  { apply Hother; [| apply Hvalue]. unfold_methods. rk. }
  destruct (msg =? CollapseAll)%string.
  { apply Hother; [| apply Hvalue]. unfold_methods. rk. }
  destruct (msg =? DeleteAllCells)%string.
  { apply Hother; [| apply Hvalue]. unfold_methods. rk. }
  destruct (msg =? Redo)%string eqn:Eredo.
  { apply String.eqb_eq in Eredo.
    destruct (redo_returns c Hwf (Hredo Eredo)) as (c' & Hrun & Hwf').
    exists c'. unfold bind. now rewrite Hrun. }
  destruct (msg =? Undo)%string eqn:Eundo.
  { apply String.eqb_eq in Eundo.
    destruct (undo_returns c Hwf (Hundo Eundo)) as (c' & Hrun & Hwf').
    exists c'. unfold bind. now rewrite Hrun. }
  discriminate Hnine.
Qed.

(** On such a controller the public methods return as well, whatever their
    arguments; [submitInput] needs its input cell. *)
Theorem methods_return (call : Call) (c : Controller) :
  wellFormed (mainState c) ->
  guarded call (mainState c) ->
  (forall msg payload, call <> call_handleMessage msg payload) ->
  (forall code fresh, call <> call_submitInput code None fresh) ->
  exists c',
    perform props call c = Returned tt c' /\ wellFormed (mainState c').
Proof.
  intros Hwf Hguard Hmethod Hinput.
  assert (Hother : returnsKeeping wellFormed (perform props call) ->
                   exists c', perform props call c = Returned tt c'
                              /\ wellFormed (mainState c')).
  { intros Hm. destruct (Hm c Hwf) as ([] & c' & Hrun & Hwf'). now exists c'. }
  destruct call as [msg payload | | | | | | | | | | | |
                    code [input |] fresh | |];
    try (apply Hother; unfold_methods; rk; fail).
  - now contradiction (Hmethod msg payload).
  - now apply redo_returns.
  - now apply undo_returns.
  - now contradiction (Hinput code fresh).
Qed.

End NoException.
Lemma twoCells_wellFormed : @wellFormed Sample.host (mainState Sample.twoCells).
Proof.
  split; [discriminate | split]; simpl; repeat constructor; discriminate.
Qed.

Lemma redoStack_kept_by_edits_witness :
  redoStack (mainState (after (More.perform (call_deleteCell "c1") More.undone)))
  = [Some [Sample.shownOpen; Sample.otherVM]].
Proof.
  unfold More.perform, Sample.main.
  rewrite (@redoStack_kept_by_edits Sample.host Sample.externals Sample.names
             Sample.production (call_deleteCell "c1") More.undone I).
  reflexivity.
Defined.

Lemma stacks_kept_by_view_changes_witness :
  undoStack (mainState (after (More.perform call_collapseAll Sample.twoCells)))
  = [Some [Sample.shownOpen]]
  /\ redoStack (mainState (after (More.perform call_collapseAll Sample.twoCells)))
     = [].
Proof.
  unfold More.perform, Sample.main.
  destruct (@stacks_kept_by_view_changes Sample.host Sample.externals
              Sample.names Sample.production call_collapseAll
              Sample.twoCells I) as [Hundo Hredo].
  rewrite Hundo, Hredo. split; reflexivity.
Defined.

Lemma executionCount_lowered_by_restart_only_witness :
  (0 <=? currentExecutionCount
           (mainState (after (More.perform
                                (call_handleMessage "finish_cell"
                                   (Some (PCell Sample.other)))
                                Sample.twoCells)))) = true.
Proof.
  unfold More.perform. apply Z.leb_le.
  apply (@executionCount_lowered_by_restart_only Sample.host Sample.externals
           Sample.main Sample.names Sample.production
           (call_handleMessage "finish_cell" (Some (PCell Sample.other)))
           Sample.twoCells).
  simpl. discriminate.
Defined.

Lemma guarded_runs_keep_cell_list_witness :
  wellFormed (mainState (after (More.perform call_undo Sample.twoCells))).
Proof.
  unfold More.perform.
  apply (@guarded_runs_keep_cell_list Sample.host Sample.externals Sample.main
           Sample.names Sample.production Sample.twoCells).
  - exact twoCells_wellFormed.
  - apply guarded_call; [apply guarded_start | simpl; discriminate | exact I].
Defined.

Lemma handleMessage_returns_true_witness :
  exists c', More.handleMessage "undo" None Sample.twoCells = Returned true c'.
Proof.
  unfold More.handleMessage.
  destruct (@handleMessage_returns_true Sample.host Sample.externals Sample.main
              Sample.names Sample.production "undo" None Sample.twoCells)
    as (c' & Hrun & _).
  - exact twoCells_wellFormed.
  - simpl. split; [intros _; discriminate | intros Habs; discriminate Habs].
  - now left.
  - reflexivity.
  - now exists c'.
Defined.

Lemma methods_return_witness :
  exists c', More.perform (call_deleteCell "c1") Sample.twoCells = Returned tt c'.
Proof.
  unfold More.perform.
  destruct (@methods_return Sample.host Sample.externals Sample.main
              Sample.names Sample.production (call_deleteCell "c1")
              Sample.twoCells) as (c' & Hrun & _).
  - exact twoCells_wellFormed.
  - exact I.
  - discriminate.
  - discriminate.
  - now exists c'.
Defined.

(** ** The stacks at their limit, and edits undone *)

(** Once a stack holds eleven snapshots, [pushStack] puts the new snapshot in
    the place of the newest one: the ten oldest stay, the eleventh is lost. *)
Theorem pushStack_replaces_newest (older : list Cells) (newest cells : Cells) :
  List.length older = 10%nat ->
  pushStack (older ++ [newest]) cells = older ++ [cells].
Proof.
  intros Hlen. rewrite pushStack_firstn. f_equal.
  rewrite length_app. simpl List.length.
  replace (Nat.min (List.length older + 1) 10) with (List.length older) by lia.
  rewrite firstn_app, Nat.sub_diag, firstn_all. simpl. apply app_nil_r.
Qed.

Lemma pushStack_replaces_newest_witness :
  pushStack (repeat (Some []) 10 ++ [Some [Sample.shownOpen]])
            (Some [Sample.otherVM])
  = repeat (Some []) 10 ++ [Some [Sample.otherVM]].
Proof. apply pushStack_replaces_newest. reflexivity. Defined.

Section Edits.
Context `{Host} `{X : Externals} `{@ControllerClass X} `{InteractiveWindowMessages}.
Variable props : IMainStateControllerProps.

(** With eleven snapshots to redo, [undo] followed by [redo] gives back the
    cell list and the undo stack, but the newest of the redo snapshots is
    gone. *)
Theorem undo_then_redo_drops_newest_redo (c : Controller) :
  let s := mainState c in
  undoStack s <> [] ->
  (List.length (undoStack s) <= 11)%nat ->
  List.length (redoStack s) = 11%nat ->
  let s'' := mainState (after (redo (after (undo c)))) in
  cellVMs s'' = cellVMs s
  /\ undoStack s'' = undoStack s
  /\ redoStack s'' = removelast (redoStack s)
  /\ redoStack s'' <> redoStack s.
Proof.
  cbv zeta. intros Hne Hundo Hredo.
  rewrite redo_state, undo_state. cbn.
  destruct (redoStack (mainState c)) as [| newest older _] using rev_ind;
    [discriminate |].
  rewrite length_app in Hredo. simpl in Hredo.
  rewrite pushStack_replaces_newest by lia.
  rewrite !last_last, !removelast_last.
  split; [reflexivity |]. split; [| split; [reflexivity |]].
  - rewrite pushStack_short.
    + symmetry. now apply app_removelast_last.
    + destruct (undoStack (mainState c)) as [| x rest _] using rev_ind;
        [contradiction |].
      rewrite removelast_last. rewrite length_app in Hundo. simpl in Hundo. lia.
  - intros Heq. apply (f_equal (@List.length _)) in Heq.
    rewrite length_app in Heq. simpl in Heq. lia.
Qed.

(** What an undoable edit leaves on the stacks. *)
Lemma undoableEdit_pushes (call : Call) (c : Controller)
    (cells : list ICellViewModel) :
  cellVMs (mainState c) = Some cells ->
  undoableEdit call cells ->
  undoStack (mainState (after (perform props call c)))
  = pushStack (undoStack (mainState c)) (Some cells)
  /\ redoStack (mainState (after (perform props call c)))
     = redoStack (mainState c).
Proof.
  intros Hcells Hedit.
  destruct call as [| | | | cellId | | | | | | | |
                    code [input |] fresh | | [target |]];
    cbn in Hedit; try contradiction; cbn [perform].
  - destruct (find_found _ _ Hedit) as (vm & Hfind & _).
    unfold deleteCell, bind, getState, defined, ret.
    rewrite Hcells, Hfind. cbn. rewrite Hcells. cbn. repeat split.
  - unfold clearAll, clearAllSilent, bind, getState, sendMessage, setState.
    cbn. rewrite ?sendInfo_state. cbn. rewrite ?Hcells. repeat split.
  - unfold submitInput. rewrite Hedit, String.eqb_refl.
    unfold bind, getSettings, getState, defined, ret, setState.
    rewrite Hcells. cbn.
    destruct (state _); cbn; rewrite ?Hcells; repeat split.
  - unfold addCell, bind, getSettings, getState, defined, ret, setState.
    rewrite Hcells. cbn. rewrite ?sendInfo_state. cbn. rewrite ?Hcells.
    repeat split.
Qed.

(** An undoable edit followed by [undo] gives back the cell list and the
    undo stack, as long as the undo stack held at most ten snapshots; the
    list the edit produced is then on top of the redo stack. *)
Theorem edit_then_undo (call : Call) (c : Controller)
    (cells : list ICellViewModel) :
  cellVMs (mainState c) = Some cells ->
  undoableEdit call cells ->
  (List.length (undoStack (mainState c)) <= 10)%nat ->
  let edited := after (perform props call c) in
  let s' := mainState (after (undo edited)) in
  cellVMs s' = Some cells
  /\ undoStack s' = undoStack (mainState c)
  /\ last (redoStack s') None = cellVMs (mainState edited).
Proof.
  intros Hcells Hedit Hlen. cbv zeta.
  destruct (undoableEdit_pushes call c cells Hcells Hedit) as [Hundo Hredo].
  rewrite undo_state. cbn. rewrite Hundo, pushStack_short by exact Hlen.
  rewrite last_last, removelast_last. repeat split. apply pushStack_last.
Qed.

End Edits.
(** ** What goes through the post office *)

Section Posted.
Context `{Host} `{InteractiveWindowMessages}.

(** [deleteCell] of a cell that is there posts [DeleteCell] and then
    [RemoveCell] with the id, and nothing else: no [SendInfo] follows, unlike
    after [undo], [redo], [clearAll] and [addCell]. *)
Theorem deleteCell_posts (cellId : string) (c : Controller)
    (cells : list ICellViewModel) :
  cellVMs (mainState c) = Some cells ->
  existsb (fun vm => (id (cell vm) =? cellId)%string) cells = true ->
  exists c',
    deleteCell cellId c = Returned tt c'
    /\ posted c' = posted c ++ [mkMessage DeleteCell NoPayload;
                                mkMessage RemoveCell (SentId cellId)]
    /\ propsCalls c' = propsCalls c
    /\ settings c' = settings c.
Proof.
  intros Hcells Hpresent.
  destruct (find_found _ _ Hpresent) as (vm & Hfind & Hid).
  apply String.eqb_eq in Hid.
  unfold deleteCell, bind, getState, defined, ret, sendMessage, setState.
  rewrite Hcells, Hfind. cbn. rewrite Hcells. cbn.
  eexists. split; [reflexivity |]. cbn. rewrite Hid, <- app_assoc.
  repeat split.
Qed.

(** [undo] with something to undo returns after posting [Undo] and then one
    [SendInfo], and leaves the same state whenever the host runs the callback
    of [setState].  The info describes [this.state] as [sendInfo] finds it.
    When [props.setState] has run the callback by then, these are the stacks
    and the cells that [undo] leaves.  When React keeps the update until the
    handler has returned ([undoBatched]), these are the stacks and the cells
    from before the [undo]: the counts sent are those of the state that was
    undone. *)
Theorem undo_posts (c : Controller) :
  wellFormed (mainState c) ->
  undoStack (mainState c) <> [] ->
  (exists c' info restored,
     undo c = Returned tt c'
     /\ posted c' = posted c ++ [mkMessage Undo NoPayload;
                                 mkMessage SendInfo (SentInfo info)]
     /\ cellVMs (mainState c') = Some restored
     /\ visibleCells info
        = map cell (filter (fun vm => negb (editable vm)) restored)
     /\ cellCount info = Js.length (visibleCells info)
     /\ undoCount info = Js.length (undoStack (mainState c'))
     /\ redoCount info = Js.length (redoStack (mainState c')))
  /\ (exists c' info current,
        undoBatched c = Returned tt c'
        /\ posted c' = posted c ++ [mkMessage Undo NoPayload;
                                    mkMessage SendInfo (SentInfo info)]
        /\ mainState c' = mainState (after (undo c))
        /\ cellVMs (mainState c) = Some current
        /\ visibleCells info
           = map cell (filter (fun vm => negb (editable vm)) current)
        /\ cellCount info = Js.length (visibleCells info)
        /\ undoCount info = Js.length (undoStack (mainState c))
        /\ redoCount info = Js.length (redoStack (mainState c))
        /\ undoCount info = Js.length (undoStack (mainState c')) + 1).
Proof.
  intros (Hcells & Hundo & Hredo) Hne.
  assert (Htop := last_of_defined _ Hne Hundo). rewrite <- top_last in Htop.
  destruct (top (undoStack (mainState c))) as [restored |] eqn:Etop;
    [| contradiction].
  destruct (cellVMs (mainState c)) as [current |] eqn:Ecurrent;
    [| contradiction].
  split.
  - unfold undo, bind, getState, sendMessage, setState, sendInfo,
      getNonEditCellVMs, defined, ret, throw. cbn. rewrite Etop. cbn.
    eexists _, _, restored. split; [reflexivity |]. cbn.
    rewrite <- app_assoc. cbn.
    split; [reflexivity |]. split; [reflexivity |]. split; [reflexivity |].
    split; [cbn; unfold Js.length; now rewrite length_map |].
    split; reflexivity.
  - unfold undoBatched, undo, setStateBatched, sendInfo, getNonEditCellVMs,
      bind, getState, sendMessage, setState, defined, ret, throw.
    cbn. rewrite ?Ecurrent, ?Etop. cbn. rewrite ?Ecurrent. cbn.
    eexists _, _, current. split; [reflexivity |]. cbn.
    rewrite <- app_assoc. cbn.
    split; [reflexivity |]. split; [reflexivity |]. split; [reflexivity |].
    split; [reflexivity |].
    split; [cbn; unfold Js.length; now rewrite length_map |].
    split; [reflexivity |]. split; [reflexivity |].
    rewrite slice_drop_last. unfold Js.length.
    destruct (undoStack (mainState c)) as [| x rest _] using rev_ind;
      [contradiction |].
    rewrite removelast_last, length_app. simpl. lia.
Qed.

End Posted.
Lemma undo_then_redo_drops_newest_redo_witness :
  let s'' := mainState (after (@redo Sample.host Sample.names
                                 (after (@undo Sample.host Sample.names
                                           MoreStacks.fullRedo)))) in
  cellVMs s'' = Some [Sample.shownOpen]
  /\ List.length (redoStack s'') = 10%nat.
Proof.
  cbv zeta.
  destruct (@undo_then_redo_drops_newest_redo Sample.host Sample.names
              MoreStacks.fullRedo) as (Hcells & _ & Hredo & _).
  - discriminate.
  - simpl. lia.
  - reflexivity.
  - rewrite Hcells, Hredo. split; reflexivity.
Defined.

Lemma edit_then_undo_witness :
  let edited := after (More.perform (call_deleteCell "c1") Sample.twoCells) in
  cellVMs (mainState edited) = Some [Sample.otherVM]
  /\ cellVMs (mainState (after (@undo Sample.host Sample.names edited)))
     = Some [Sample.shownOpen; Sample.otherVM].
Proof.
  cbv zeta. split; [reflexivity |]. unfold More.perform.
  apply (@edit_then_undo Sample.host Sample.externals Sample.main Sample.names
           Sample.production (call_deleteCell "c1") Sample.twoCells
           [Sample.shownOpen; Sample.otherVM]).
  - reflexivity.
  - reflexivity.
  - simpl. lia.
Defined.

Lemma deleteCell_posts_witness :
  exists c',
    @deleteCell Sample.host Sample.names "c1" Sample.twoCells = Returned tt c'
    /\ posted c' = [mkMessage "delete_cell" NoPayload;
                    mkMessage "remove_cell" (SentId "c1")].
Proof.
  destruct (@deleteCell_posts Sample.host Sample.names "c1" Sample.twoCells
              [Sample.shownOpen; Sample.otherVM] eq_refl eq_refl)
    as (c' & Hrun & Hposted & _).
  exists c'. split; [exact Hrun | exact Hposted].
Defined.

Lemma undo_posts_witness :
  (exists c' info,
     @undo Sample.host Sample.names Sample.twoCells = Returned tt c'
     /\ undoCount info = 0 /\ redoCount info = 1 /\ cellCount info = 1)
  /\ (exists c' info,
        @undoBatched Sample.host Sample.names Sample.twoCells = Returned tt c'
        /\ undoCount info = 1 /\ redoCount info = 0 /\ cellCount info = 2).
Proof.
  destruct (@undo_posts Sample.host Sample.names Sample.twoCells
              twoCells_wellFormed)
    as [(c' & info & restored & Hrun & Hposted & Hcells & Hvisible & Hcount
         & Hundo & Hredo)
        (b' & binfo & current & Hbrun & Hbposted & Hstate & Hcurrent
         & Hbvisible & Hbcount & Hbundo & Hbredo & _)].
  - discriminate.
  - split.
    + exists c', info. split; [exact Hrun |].
      injection Hrun as <-. cbn in Hcells. injection Hcells as <-.
      rewrite Hundo, Hredo, Hcount, Hvisible. repeat split.
    + exists b', binfo. split; [exact Hbrun |].
      cbn in Hcurrent. injection Hcurrent as <-.
      rewrite Hbundo, Hbredo, Hbcount, Hbvisible. repeat split.
Defined.

(** ** More on showing and collapsing *)

Section Visibility.
Context `{X : Externals}.
Variable st : Settings.

(** [alterCellVM] leaves the cell, [editable], [inputBlockCollapseNeeded] and
    [directInput] alone; on a code cell it always ends with
    [inputBlockShow = visible]; the open flag is the old one or [expanded];
    and on a hidden view-model it changes neither the open flag nor the
    text, whether the cell stays hidden or becomes visible. *)
Theorem alterCellVM_frame (vm : ICellViewModel) (visible expanded : bool) :
  let vm' := alterCellVM st vm visible expanded in
  cell vm' = cell vm
  /\ editable vm' = editable vm
  /\ inputBlockCollapseNeeded vm' = inputBlockCollapseNeeded vm
  /\ directInput vm' = directInput vm
  /\ (cell_type (data (cell vm)) = "code" -> inputBlockShow vm' = visible)
  /\ (inputBlockOpen vm' = inputBlockOpen vm \/ inputBlockOpen vm' = expanded)
  /\ (inputBlockShow vm = false ->
      inputBlockOpen vm' = inputBlockOpen vm
      /\ inputBlockText vm' = inputBlockText vm).
Proof.
  destruct vm as [c show open text needed canEdit direct].
  unfold alterCellVM. cbn [cell inputBlockShow inputBlockOpen
                            inputBlockCollapseNeeded].
  destruct (String.eqb_spec (cell_type (data c)) "code") as [Hcode | Hcode].
  - destruct show, open, needed, visible, expanded; cbn;
      repeat split; auto; discriminate.
  - cbn. repeat split; auto; contradiction.
Qed.

(** Collapsing a shown, open input block whose text is the extracted input
    text and expanding it again gives back the view-model. *)
Lemma expand_after_collapse (vm : ICellViewModel) :
  inputBlockShow vm = true ->
  inputBlockOpen vm = true ->
  inputBlockText vm = extractInputText (cell vm) st ->
  alterCellVM st (alterCellVM st vm true false) true true = vm.
Proof.
  destruct vm as [c show open text needed canEdit direct]. cbn.
  intros -> -> ->. unfold alterCellVM.
  cbn [cell inputBlockShow inputBlockOpen inputBlockCollapseNeeded].
  destruct (String.eqb_spec (cell_type (data c)) "code") as [Hcode | Hcode].
  - destruct needed; cbn; rewrite ?Hcode; cbn; reflexivity.
  - cbn. now destruct (String.eqb_spec (cell_type (data c)) "code").
Qed.

End Visibility.

Section VisibilityOfAll.
Context `{Host} `{X : Externals}.

(** In the interactive window, collapsing all cells and expanding them again
    gives back the cell list, when every input block was shown and open with
    the extracted input text. *)
Theorem collapseAll_then_expandAll (c : Controller)
    (cells : list ICellViewModel) :
  cellVMs (mainState c) = Some cells ->
  Forall (fun vm => inputBlockShow vm = true
                    /\ inputBlockOpen vm = true
                    /\ inputBlockText vm
                       = extractInputText (cell vm) (settings c)) cells ->
  let collapsed := after (@collapseAllSilent _ X MainStateController c) in
  cellVMs (mainState (after (@expandAllSilent _ X MainStateController collapsed)))
  = Some cells.
Proof.
  intros Hcells Hall. cbv zeta.
  unfold collapseAllSilent, expandAllSilent, alterAllCellVMs, bind,
    getSettings, getState, defined, ret, setState.
  destruct (showCellInputCode (settings c)) eqn:Eshow; cbn;
    rewrite ?Eshow; cbn; rewrite ?Hcells; cbn; rewrite ?Eshow; cbn;
    [| reflexivity].
  f_equal. rewrite map_map. rewrite <- (map_id cells) at 2.
  apply map_ext_in. intros vm Hin.
  rewrite Forall_forall in Hall. destruct (Hall vm Hin) as (Hs & Ho & Ht).
  now apply expand_after_collapse.
Qed.

(** [alterAllCellVMs] of the interactive window changes no cell and no
    [editable] flag, keeps the cells in their order, and leaves every code
    cell with [inputBlockShow = visible]. *)
Theorem alterAllCellVMs_frame (visible expanded : bool) (c : Controller)
    (cells : list ICellViewModel) :
  cellVMs (mainState c) = Some cells ->
  exists c' cells',
    @alterAllCellVMs _ X MainStateController visible expanded c = Returned tt c'
    /\ cellVMs (mainState c') = Some cells'
    /\ map cell cells' = map cell cells
    /\ map editable cells' = map editable cells
    /\ Forall (fun vm => cell_type (data (cell vm)) = "code" ->
                         inputBlockShow vm = visible) cells'
    /\ posted c' = posted c.
Proof.
  intros Hcells.
  unfold alterAllCellVMs, bind, getSettings, getState, defined, ret, setState.
  rewrite Hcells. cbn. eexists _, _. split; [reflexivity |]. cbn.
  split; [reflexivity |].
  split; [| split; [| split; [| reflexivity]]].
  - rewrite map_map. apply map_ext. intros vm.
    apply (alterCellVM_frame (settings c) vm visible expanded).
  - rewrite map_map. apply map_ext. intros vm.
    apply (alterCellVM_frame (settings c) vm visible expanded).
  - apply Forall_forall. intros vm' Hin.
    apply in_map_iff in Hin as (vm & <- & Hin).
    destruct (alterCellVM_frame (settings c) vm visible expanded)
      as (Hcell & _ & _ & _ & Hshow & _).
    rewrite Hcell. exact Hshow.
Qed.

(** In the native editor nothing collapses or hides: whatever [visible] and
    [expanded] ask for, [alterAllCellVMs] leaves every input block open and
    editable with the extracted input text, and changes no cell. *)
Theorem native_alterAllCellVMs_opens (visible expanded : bool) (c : Controller)
    (cells : list ICellViewModel) :
  cellVMs (mainState c) = Some cells ->
  exists c' cells',
    @alterAllCellVMs _ X NativeEditorStateController visible expanded c
    = Returned tt c'
    /\ cellVMs (mainState c') = Some cells'
    /\ map cell cells' = map cell cells
    /\ map inputBlockShow cells' = map inputBlockShow cells
    /\ Forall (fun vm => inputBlockOpen vm = true
                         /\ editable vm = true
                         /\ inputBlockText vm
                            = extractInputText (cell vm) (settings c)) cells'.
Proof.
  intros Hcells.
  unfold alterAllCellVMs, bind, getSettings, getState, defined, ret, setState.
  rewrite Hcells. cbn. eexists _, _. split; [reflexivity |]. cbn.
  split; [reflexivity |].
  split; [| split].
  - rewrite map_map. now apply map_ext.
  - rewrite map_map. now apply map_ext.
  - apply Forall_forall. intros vm' Hin.
    apply in_map_iff in Hin as (vm & <- & Hin). now repeat split.
Qed.

End VisibilityOfAll.
(** ** Writing one cell of the list *)

Lemma findIndexFrom_split {A} (p : A -> bool) (l : list A) :
  existsb p l = true ->
  exists before x rest,
    l = before ++ x :: rest
    /\ p x = true
    /\ Forall (fun y => p y = false) before
    /\ forall i, Js.findIndexFrom p l i = i + Z.of_nat (List.length before).
Proof.
  induction l as [| y l IH]; [discriminate |].
  cbn [existsb]. destruct (p y) eqn:Hy.
  - intros _. exists [], y, l.
    split; [reflexivity |]. split; [exact Hy |]. split; [constructor |].
    intros i. cbn. rewrite Hy. lia.
  - cbn [orb]. intros Hex.
    destruct (IH Hex) as (before & x & rest & -> & Hx & Hbefore & Hindex).
    exists (y :: before), x, rest.
    split; [reflexivity |]. split; [exact Hx |].
    split; [now constructor |].
    intros i. cbn [Js.findIndexFrom]. rewrite Hy, Hindex.
    cbn [List.length app]. lia.
Qed.

Lemma update_middle {A} (before : list A) (x : A) (rest : list A) (f : A -> A) :
  Js.update (before ++ x :: rest) (List.length before) f = before ++ f x :: rest.
Proof.
  induction before as [| y before IH]; [reflexivity |].
  cbn. now rewrite IH.
Qed.

Lemma update_found {A} (p : A -> bool) (l : list A) (f : A -> A) :
  existsb p l = true ->
  exists before x rest,
    l = before ++ x :: rest
    /\ p x = true
    /\ Forall (fun y => p y = false) before
    /\ Js.update l (Z.to_nat (Js.findIndex p l)) f = before ++ f x :: rest.
Proof.
  intros Hex.
  destruct (findIndexFrom_split p l Hex)
    as (before & x & rest & -> & Hx & Hbefore & Hindex).
  exists before, x, rest.
  split; [reflexivity |]. split; [exact Hx |]. split; [exact Hbefore |].
  unfold Js.findIndex. rewrite Hindex. simpl Z.add. rewrite Nat2Z.id.
  apply update_middle.
Qed.

Section OneCell.
Context `{Host} `{X : Externals} `{@ControllerClass X} `{InteractiveWindowMessages}.
Variable props : IMainStateControllerProps.


(** For a cell that is not in the list, [updateCell] returns with the
    controller as it was, while [startCell] and [finishCell] of a supported
    cell append its view-model and push the old list on the undo stack. *)
Theorem unknown_cell (target : ICell) (c : Controller)
    (cells : list ICellViewModel) :
  cellVMs (mainState c) = Some cells ->
  existsb (sameCell target) cells = false ->
  updateCell props (Some target) c = Returned tt c
  /\ (isCellSupported props target = true ->
      let st := settings c in
      let added :=
        this_alterCellVM st (createCellVM target st (defaultEditable props))
          (showCellInputCode st) (negb (collapseCellInputCodeByDefault st)) in
      forall handler,
        handler = startCell props \/ handler = finishCell props ->
        exists c',
          handler (Some target) c = Returned tt c'
          /\ cellVMs (mainState c') = Some (cells ++ [added])
          /\ undoStack (mainState c')
             = pushStack (undoStack (mainState c)) (Some cells)
          /\ redoStack (mainState c') = redoStack (mainState c)).
Proof.
  intros Hcells Habsent. split.
  - unfold updateCell.
    destruct (isCellSupported props target); [| reflexivity].
    unfold updateOrAdd, bind, getState, defined, ret.
    now rewrite Hcells, findIndex_found, Habsent.
  - intros Hsupported. cbv zeta. intros handler [-> | ->];
      unfold startCell, finishCell; rewrite Hsupported;
      unfold updateOrAdd, addCell, sendInfo, getNonEditCellVMs, bind, getState,
        getSettings, defined, ret, setState, sendMessage;
      rewrite Hcells, findIndex_found, Habsent; cbn; rewrite Hcells; cbn;
      eexists; (split; [reflexivity |]); cbn; rewrite ?Hcells; repeat split.
Qed.


End OneCell.
Lemma collapseAll_then_expandAll_witness :
  let collapsed :=
    after (@collapseAllSilent Sample.host Sample.externals Sample.main
             Sample.oneCell) in
  cellVMs (mainState collapsed)
  = Some [mkCellVM Sample.twoLines true false "a..." true false None]
  /\ cellVMs (mainState (after (@expandAllSilent Sample.host Sample.externals
                                  Sample.main collapsed)))
     = Some [Sample.shownOpen].
Proof.
  cbv zeta. split; [reflexivity |].
  apply (@collapseAll_then_expandAll Sample.host Sample.externals
           Sample.oneCell [Sample.shownOpen] eq_refl).
  repeat constructor.
Defined.

Lemma alterAllCellVMs_frame_witness :
  exists c' cells',
    @alterAllCellVMs Sample.host Sample.externals Sample.main false true
      Sample.twoCells = Returned tt c'
    /\ cellVMs (mainState c') = Some cells'
    /\ map cell cells' = [Sample.twoLines; Sample.other]
    /\ map inputBlockShow cells' = [false; false].
Proof.
  destruct (@alterAllCellVMs_frame Sample.host Sample.externals
              false true Sample.twoCells [Sample.shownOpen; Sample.otherVM]
              eq_refl)
    as (c' & cells' & Hrun & Hcells & Hmap & _).
  exists c', cells'. split; [exact Hrun |]. split; [exact Hcells |].
  split; [exact Hmap |].
  injection Hrun as <-. cbn in Hcells. injection Hcells as <-. reflexivity.
Defined.

Lemma native_alterAllCellVMs_opens_witness :
  exists c',
    @alterAllCellVMs Sample.host Sample.externals
      (@NativeEditorStateController Sample.externals) true false
      Sample.twoCells = Returned tt c'
    /\ option_map (map inputBlockOpen) (cellVMs (mainState c'))
       = Some [true; true].
Proof.
  destruct (@native_alterAllCellVMs_opens Sample.host Sample.externals
              true false Sample.twoCells
              [Sample.shownOpen; Sample.otherVM] eq_refl)
    as (c' & cells' & Hrun & Hcells & _).
  exists c'. split; [exact Hrun |].
  injection Hrun as <-. reflexivity.
Defined.


Lemma unknown_cell_witness :
  let target :=
    mkCell "c7" "foo.py" 20 finished (mkCellData "code" "y" None []) in
  @updateCell Sample.host Sample.externals Sample.main Sample.names
    Sample.production (Some target) Sample.twoCells
  = Returned tt Sample.twoCells
  /\ exists c',
       @startCell Sample.host Sample.externals Sample.main Sample.names
         Sample.production (Some target) Sample.twoCells = Returned tt c'
       /\ option_map (@List.length _) (cellVMs (mainState c')) = Some 3%nat.
Proof.
  cbv zeta.
  destruct (@unknown_cell Sample.host Sample.externals Sample.main Sample.names
              Sample.production
              (mkCell "c7" "foo.py" 20 finished (mkCellData "code" "y" None []))
              Sample.twoCells [Sample.shownOpen; Sample.otherVM]
              eq_refl eq_refl) as [Hupdate Hadd].
  split; [exact Hupdate |].
  destruct (Hadd eq_refl _ (or_introl eq_refl)) as (c' & Hrun & Hcells & _).
  exists c'. split; [exact Hrun |]. now rewrite Hcells.
Defined.


(** ** Moving a cell in the native editor *)

Lemma findIndex_middle {A} (p : A -> bool) (before : list A) (x : A)
    (rest : list A) :
  Forall (fun y => p y = false) before -> p x = true ->
  Js.findIndex p (before ++ x :: rest) = Z.of_nat (List.length before).
Proof.
  intros Hbefore Hx. unfold Js.findIndex.
  assert (Hfrom : forall i,
             Js.findIndexFrom p (before ++ x :: rest) i
             = i + Z.of_nat (List.length before)).
  { induction Hbefore as [| y before Hy Hbefore IH]; intros i; cbn.
    - rewrite Hx. lia.
    - rewrite Hy, IH. lia. }
  now rewrite Hfrom.
Qed.

Lemma get_middle {A} (before : list A) (x : A) (rest : list A) :
  Js.get (before ++ x :: rest) (Z.of_nat (List.length before)) = Some x.
Proof.
  unfold Js.get.
  replace (Z.of_nat (List.length before) <? 0) with false
    by (symmetry; apply Z.ltb_ge; lia).
  rewrite Nat2Z.id, nth_error_app2 by lia. now rewrite Nat.sub_diag.
Qed.

Lemma update_at {A} (before : list A) (x : A) (rest : list A) (f : A -> A)
    (n : nat) :
  n = List.length before ->
  Js.update (before ++ x :: rest) n f = before ++ f x :: rest.
Proof. intros ->. apply update_middle. Qed.

Lemma swap_neighbours (before : list ICellViewModel) (x y : ICellViewModel)
    (rest : list ICellViewModel) :
  let n := Z.of_nat (List.length before) in
  swapInPlace (arrayOf (before ++ x :: y :: rest)) n (n + 1)
  = arrayOf (before ++ y :: x :: rest)
  /\ swapInPlace (arrayOf (before ++ x :: y :: rest)) (n + 1) n
     = arrayOf (before ++ y :: x :: rest).
Proof.
  cbv zeta.
  assert (Hnext : Z.of_nat (List.length before) + 1
                  = Z.of_nat (List.length (map Some before ++ [Some x]))).
  { rewrite length_app, length_map. simpl List.length. lia. }
  assert (Hhere : Z.of_nat (List.length before)
                  = Z.of_nat (List.length (map Some before))).
  { now rewrite length_map. }
  assert (Hx : readAt (arrayOf (before ++ x :: y :: rest))
                 (Z.of_nat (List.length before)) = Some x).
  { unfold readAt, arrayOf. cbn [elements].
    replace (Z.of_nat (List.length before) =? -1) with false
      by (symmetry; apply Z.eqb_neq; lia).
    rewrite map_app. cbn [map]. rewrite Hhere at 1. now rewrite get_middle. }
  assert (Hy : readAt (arrayOf (before ++ x :: y :: rest))
                 (Z.of_nat (List.length before) + 1) = Some y).
  { unfold readAt, arrayOf. cbn [elements].
    replace (Z.of_nat (List.length before) + 1 =? -1) with false
      by (symmetry; apply Z.eqb_neq; lia).
    rewrite map_app. cbn [map].
    change (map Some before ++ Some x :: Some y :: map Some rest)
      with (map Some before ++ [Some x] ++ Some y :: map Some rest).
    rewrite app_assoc, Hnext. now rewrite get_middle. }
  assert (Hwrite : forall (l : list (option ICellViewModel)) u v w m,
             writeAt (mkCellArray (map Some before ++ u :: v :: l) m)
               (Z.of_nat (List.length before)) w
             = mkCellArray (map Some before ++ w :: v :: l) m
             /\ writeAt (mkCellArray (map Some before ++ u :: v :: l) m)
                  (Z.of_nat (List.length before) + 1) w
                = mkCellArray (map Some before ++ u :: w :: l) m).
  { intros l u v w m. unfold writeAt. cbn [elements minusOne].
    replace (Z.of_nat (List.length before) =? -1) with false
      by (symmetry; apply Z.eqb_neq; lia).
    replace (Z.of_nat (List.length before) + 1 =? -1) with false
      by (symmetry; apply Z.eqb_neq; lia).
    split; f_equal.
    - apply update_at. rewrite length_map. lia.
    - change (map Some before ++ u :: v :: l)
        with (map Some before ++ [u] ++ v :: l).
      rewrite app_assoc.
      rewrite (update_at (map Some before ++ [u]) v l).
      + now rewrite <- app_assoc.
      + rewrite length_app, length_map. simpl List.length. lia. }
  assert (Hstart : arrayOf (before ++ x :: y :: rest)
                   = mkCellArray (map Some before ++ Some x :: Some y
                                  :: map Some rest) None).
  { unfold arrayOf. now rewrite map_app. }
  assert (Hend : arrayOf (before ++ y :: x :: rest)
                 = mkCellArray (map Some before ++ Some y :: Some x
                                :: map Some rest) None).
  { unfold arrayOf. now rewrite map_app. }
  unfold swapInPlace. rewrite Hx, Hy. cbn [fst snd]. rewrite Hstart, Hend.
  split.
  - rewrite (proj1 (Hwrite _ _ _ _ _)). now rewrite (proj2 (Hwrite _ _ _ _ _)).
  - rewrite (proj2 (Hwrite _ _ _ _ _)). now rewrite (proj1 (Hwrite _ _ _ _ _)).
Qed.

Section Moves.
Variable cellId : option string.

(** [moveCellDown] swaps the first cell that has the id with the cell after
    it, and leaves the array as it is when that cell is the last one. *)
Theorem moveCellDown_present (before : list ICellViewModel) (x : ICellViewModel) :
  Forall (fun vm => hasId cellId vm = false) before ->
  hasId cellId x = true ->
  (forall y rest,
      moveCellDown cellId (before ++ x :: y :: rest)
      = arrayOf (before ++ y :: x :: rest))
  /\ moveCellDown cellId (before ++ [x]) = arrayOf (before ++ [x]).
Proof.
  intros Hbefore Hx. split.
  - intros y rest. unfold moveCellDown.
    rewrite (findIndex_middle _ before x (y :: rest) Hbefore Hx).
    replace (Z.of_nat (List.length before)
             <? Js.length (before ++ x :: y :: rest) - 1) with true.
    + apply swap_neighbours.
    + symmetry. apply Z.ltb_lt. unfold Js.length. rewrite length_app.
      simpl List.length. lia.
  - unfold moveCellDown.
    rewrite (findIndex_middle _ before x [] Hbefore Hx).
    replace (Z.of_nat (List.length before) <? Js.length (before ++ [x]) - 1)
      with false; [reflexivity |].
    symmetry. apply Z.ltb_ge. unfold Js.length. rewrite length_app.
    simpl List.length. lia.
Qed.

(** [moveCellDown] with an id that no cell has (for which [canMoveDown]
    answers [true]) takes index [-1]: the first element of the array becomes
    [undefined], and the cell that was there is kept only as the property
    ["-1"], outside the elements. *)
Theorem moveCellDown_absent_loses_first (first : ICellViewModel)
    (rest : list ICellViewModel) :
  existsb (hasId cellId) (first :: rest) = false ->
  moveCellDown cellId (first :: rest)
  = mkCellArray (None :: map Some rest) (Some first).
Proof.
  intros Habsent. unfold moveCellDown, Js.findIndex.
  rewrite (findIndexFrom_absent _ _ 0 Habsent).
  replace (-1 <? Js.length (first :: rest) - 1) with true
    by (symmetry; apply Z.ltb_lt; unfold Js.length; simpl List.length; lia).
  reflexivity.
Qed.

(** [moveCellUp] swaps the first cell that has the id with the cell before
    it; for the first cell of the list, and for an id that no cell has, it
    leaves the array as it is. *)
Theorem moveCellUp_cases (cells : list ICellViewModel) :
  (forall before y x rest,
      cells = before ++ y :: x :: rest ->
      Forall (fun vm => hasId cellId vm = false) (before ++ [y]) ->
      hasId cellId x = true ->
      moveCellUp cellId cells = arrayOf (before ++ x :: y :: rest))
  /\ (existsb (hasId cellId) cells = false ->
      moveCellUp cellId cells = arrayOf cells)
  /\ (forall x rest, cells = x :: rest -> hasId cellId x = true ->
      moveCellUp cellId cells = arrayOf cells).
Proof.
  split; [| split].
  - intros before y x rest -> Hbefore Hx. unfold moveCellUp.
    change (before ++ y :: x :: rest) with (before ++ [y] ++ x :: rest).
    rewrite app_assoc.
    rewrite (findIndex_middle _ (before ++ [y]) x rest Hbefore Hx).
    rewrite length_app. simpl List.length.
    replace (0 <? Z.of_nat (List.length before + 1)) with true
      by (symmetry; apply Z.ltb_lt; lia).
    rewrite <- app_assoc. cbn [app].
    replace (Z.of_nat (List.length before + 1) - 1)
      with (Z.of_nat (List.length before)) by lia.
    replace (Z.of_nat (List.length before + 1))
      with (Z.of_nat (List.length before) + 1) by lia.
    apply swap_neighbours.
  - intros Habsent. unfold moveCellUp, Js.findIndex.
    now rewrite (findIndexFrom_absent _ _ 0 Habsent).
  - intros x rest -> Hx. unfold moveCellUp, Js.findIndex. cbn.
    now rewrite Hx.
Qed.

(** Moving a cell down and up again gives back the list, when the cell that
    follows it does not have the same id. *)
Theorem moveCellDown_then_moveCellUp (before : list ICellViewModel)
    (x y : ICellViewModel) (rest : list ICellViewModel) :
  Forall (fun vm => hasId cellId vm = false) before ->
  hasId cellId x = true ->
  hasId cellId y = false ->
  moveCellDown cellId (before ++ x :: y :: rest)
  = arrayOf (before ++ y :: x :: rest)
  /\ moveCellUp cellId (before ++ y :: x :: rest)
     = arrayOf (before ++ x :: y :: rest).
Proof.
  intros Hbefore Hx Hy. split.
  - unfold moveCellDown.
    rewrite (findIndex_middle _ before x (y :: rest) Hbefore Hx).
    replace (Z.of_nat (List.length before)
             <? Js.length (before ++ x :: y :: rest) - 1) with true.
    + apply swap_neighbours.
    + symmetry. apply Z.ltb_lt. unfold Js.length. rewrite length_app.
      simpl List.length. lia.
  - unfold moveCellUp.
    change (before ++ y :: x :: rest) with (before ++ [y] ++ x :: rest).
    rewrite app_assoc.
    rewrite (findIndex_middle _ (before ++ [y]) x rest).
    + rewrite length_app. simpl List.length.
      replace (0 <? Z.of_nat (List.length before + 1)) with true
        by (symmetry; apply Z.ltb_lt; lia).
      rewrite <- app_assoc. cbn [app].
      replace (Z.of_nat (List.length before + 1) - 1)
        with (Z.of_nat (List.length before)) by lia.
      replace (Z.of_nat (List.length before + 1))
        with (Z.of_nat (List.length before) + 1) by lia.
      apply swap_neighbours.
    + apply Forall_app. split; [exact Hbefore | now constructor].
    + exact Hx.
Qed.

End Moves.

Lemma moveCellDown_present_witness :
  moveCellDown (Some "c1") [Sample.shownOpen; Sample.otherVM]
  = arrayOf [Sample.otherVM; Sample.shownOpen]
  /\ moveCellDown (Some "c2") [Sample.shownOpen; Sample.otherVM]
     = arrayOf [Sample.shownOpen; Sample.otherVM].
Proof.
  split.
  - apply (proj1 (moveCellDown_present (Some "c1") [] Sample.shownOpen
                    (Forall_nil _) eq_refl) Sample.otherVM []).
  - apply (moveCellDown_present (Some "c2") [Sample.shownOpen]
             Sample.otherVM); [repeat constructor | reflexivity].
Defined.

Lemma moveCellDown_absent_loses_first_witness :
  moveCellDown (Some "c9") [Sample.shownOpen; Sample.otherVM]
  = mkCellArray [None; Some Sample.otherVM] (Some Sample.shownOpen).
Proof.
  apply (moveCellDown_absent_loses_first (Some "c9") Sample.shownOpen
           [Sample.otherVM]).
  reflexivity.
Defined.

Lemma moveCellUp_cases_witness :
  moveCellUp (Some "c2") [Sample.shownOpen; Sample.otherVM]
  = arrayOf [Sample.otherVM; Sample.shownOpen]
  /\ moveCellUp None [Sample.shownOpen; Sample.otherVM]
     = arrayOf [Sample.shownOpen; Sample.otherVM].
Proof.
  destruct (moveCellUp_cases (Some "c2") [Sample.shownOpen; Sample.otherVM])
    as (Hswap & _).
  destruct (moveCellUp_cases None [Sample.shownOpen; Sample.otherVM])
    as (_ & Habsent & _).
  split.
  - apply (Hswap [] Sample.shownOpen Sample.otherVM [] eq_refl);
      [repeat constructor | reflexivity].
  - apply Habsent. reflexivity.
Defined.

Lemma moveCellDown_then_moveCellUp_witness :
  moveCellUp (Some "c1") [Sample.otherVM; Sample.shownOpen]
  = arrayOf [Sample.shownOpen; Sample.otherVM].
Proof.
  apply (moveCellDown_then_moveCellUp (Some "c1") [] Sample.shownOpen
           Sample.otherVM []); [constructor | reflexivity | reflexivity].
Defined.

(** ** The code editors of the cells *)

Section CodeEditorsFacts.
Import CodeEditors.

Lemma mapGet_mapSet_same (m : MonacoMap) (key value : string) :
  mapGet (mapSet m key value) key = Some value.
Proof.
  induction m as [| [k v] rest IH]; cbn.
  - now rewrite String.eqb_refl.
  - destruct (k =? key)%string eqn:Ek; cbn; rewrite Ek; [reflexivity | exact IH].
Qed.

Lemma mapGet_mapSet_other (m : MonacoMap) (key value other : string) :
  other <> key -> mapGet (mapSet m key value) other = mapGet m other.
Proof.
  intros Hother. induction m as [| [k v] rest IH]; cbn.
  - destruct (String.eqb_spec key other); [congruence | reflexivity].
  - destruct (String.eqb_spec k key) as [-> | Hk]; cbn.
    + destruct (String.eqb_spec key other); [congruence | reflexivity].
    + destruct (k =? other)%string; [reflexivity | exact IH].
Qed.

Context {Changes : Type} `{InteractiveWindowMessages}.

(** Once an editor is registered for a cell, by [editableCodeCreated], by
    [readOnlyCodeCreated] or by a first [codeChange], [getCellId] of its model
    answers with that cell's id, and with [EditCellId] when the id is the
    empty string; the answers for all other models stay as they were.  A
    model that is not registered is taken for the edit cell.
    [readOnlyCodeCreated] posts nothing when no cell of the list has the
    id. *)
Theorem getCellId_after_registration (cellId monacoId : string)
    (changes : Changes) (e : Editors Changes) :
  let answer := if (cellId =? "")%string then EditCellId else cellId in
  getCellId monacoId (editableCodeCreated cellId monacoId e) = answer
  /\ getCellId monacoId (codeChange changes cellId monacoId e) = answer
  /\ (forall (X : Externals) file cells st,
        exists e',
          readOnlyCodeCreated file cellId monacoId (Some cells) st e = Some e'
          /\ getCellId monacoId e' = answer
          /\ (forall other, other <> monacoId ->
                getCellId other e' = getCellId other e)
          /\ (existsb (fun vm => (id (cell vm) =? cellId)%string) cells = false ->
              sent e' = sent e))
  /\ (forall other, other <> monacoId ->
        getCellId other (editableCodeCreated cellId monacoId e)
        = getCellId other e
        /\ getCellId other (codeChange changes cellId monacoId e)
           = getCellId other e)
  /\ (mapGet (monacoIdToCellId e) monacoId = None ->
      getCellId monacoId e = EditCellId).
Proof.
  cbv zeta. unfold getCellId, editableCodeCreated, codeChange. cbn.
  split; [now rewrite mapGet_mapSet_same |].
  split; [| split; [| split]].
  - destruct (mapGet (monacoIdToCellId e) monacoId) as [expected |] eqn:Eget.
    + destruct (String.eqb_spec expected cellId) as [-> | Hne]; cbn.
      * now rewrite Eget.
      * now rewrite mapGet_mapSet_same.
    + cbn. now rewrite mapGet_mapSet_same.
  - intros X file cells st. unfold readOnlyCodeCreated. eexists.
    split; [reflexivity |]. cbn. rewrite mapGet_mapSet_same.
    split; [reflexivity |]. split.
    + intros other Hother. now rewrite mapGet_mapSet_other.
    + intros Habsent. now rewrite (find_absent _ _ Habsent).
  - intros other Hother. split; [now rewrite mapGet_mapSet_other |].
    destruct (negb _); cbn; [now rewrite mapGet_mapSet_other | reflexivity].
  - now intros ->.
Qed.

(** The first [codeChange] that reaches the controller from a model not yet
    registered for the cell is not passed on: it only registers the model.  A
    further [codeChange] with the same cell and model posts exactly one
    [EditCell] with its changes. *)
Theorem codeChange_first_registers_then_posts (first second : Changes)
    (cellId modelId : string) (e : Editors Changes) :
  let e1 := codeChange first cellId modelId e in
  (mapGet (monacoIdToCellId e) modelId <> Some cellId -> sent e1 = sent e)
  /\ mapGet (monacoIdToCellId e1) modelId = Some cellId
  /\ codeChange second cellId modelId e1
     = mkEditors (monacoIdToCellId e1) (sent e1 ++ [EditCell second cellId]).
Proof.
  cbv zeta.
  assert (Hregistered :
            mapGet (monacoIdToCellId (codeChange first cellId modelId e)) modelId
            = Some cellId).
  { unfold codeChange.
    destruct (mapGet (monacoIdToCellId e) modelId) as [expected |] eqn:Eget.
    - destruct (String.eqb_spec expected cellId) as [-> | Hne]; cbn;
        [exact Eget | apply mapGet_mapSet_same].
    - cbn. apply mapGet_mapSet_same. }
  split; [| split; [exact Hregistered |]].
  - intros Hnot. unfold codeChange.
    destruct (mapGet (monacoIdToCellId e) modelId) as [expected |];
      [| reflexivity].
    destruct (String.eqb_spec expected cellId) as [-> | Hne];
      [now contradiction Hnot | reflexivity].
  - unfold codeChange at 1. rewrite Hregistered.
    now rewrite String.eqb_refl.
Qed.

End CodeEditorsFacts.

(** ** The variable explorer's responses *)

Section VariableExplorerFacts.
Import VariableExplorer.
Variable current : Z.

(** As long as [0 <= pendingVariableCount <= variables.length], both
    handlers keep it so, whatever the payload. *)
Theorem pending_within_bounds (x : Explorer) :
  0 <= pendingVariableCount x <= Js.length (variables x) ->
  (forall payload,
      let x' := getVariableValueResponse payload current x in
      0 <= pendingVariableCount x' <= Js.length (variables x'))
  /\ (forall payload,
        let x' := getVariablesResponse payload current x in
        0 <= pendingVariableCount x' <= Js.length (variables x')).
Proof.
  intros Hx. split; intros payload; cbv zeta.
  - unfold getVariableValueResponse.
    destruct payload as [variable |]; [| exact Hx].
    destruct (executionCount variable) as [count |]; [| exact Hx].
    destruct (count =? current); [| exact Hx].
    destruct (0 <=? _); [| exact Hx].
    cbn. unfold splice1, Js.length in *.
    assert (Hlen : forall (l : list IJupyterVariable) n f,
               List.length (Js.update l n f) = List.length l).
    { induction l as [| y l IH]; intros [| n] f; cbn; auto. }
    rewrite Hlen. lia.
  - unfold getVariablesResponse.
    destruct payload as [response |]; [| exact Hx].
    destruct (_ =? current); [| exact Hx].
    cbn. unfold Js.length. lia.
Qed.

(** A value response never changes the names of the variables nor what was
    requested, and it is dropped, leaving everything as it was, when its
    execution count is missing or not the current one and when no variable
    has its name. *)
Theorem value_response_frame (variable : IJupyterVariable) (x : Explorer) :
  let x' := getVariableValueResponse (Some variable) current x in
  map name (variables x') = map name (variables x)
  /\ requested x' = requested x
  /\ (executionCount variable <> Some current -> x' = x)
  /\ (existsb (fun v => (name v =? name variable)%string) (variables x) = false ->
      x' = x).
Proof.
  cbv zeta. unfold getVariableValueResponse.
  destruct (executionCount variable) as [count |];
    [| repeat split; reflexivity].
  destruct (Z.eqb_spec count current) as [-> | Hcount].
  - rewrite findIndex_found.
    destruct (existsb _ (variables x)) eqn:Hex.
    + destruct (update_found _ (variables x) (fun _ => variable) Hex)
        as (before & v & rest & Hsplit & Hv & _ & Hupdate).
      cbn. unfold splice1. rewrite Hupdate, Hsplit.
      apply String.eqb_eq in Hv.
      split; [| split; [reflexivity | split; [now intros [] | discriminate]]].
      rewrite !map_app. cbn. now rewrite Hv.
    + repeat split; reflexivity.
  - split; [reflexivity |]. split; [reflexivity |]. split; reflexivity.
Qed.

Lemma valueResponses_fill (responses todo done : list IJupyterVariable)
    (asked : list IJupyterVariable) :
  map name responses = map name todo ->
  Forall (fun r => executionCount r = Some current) responses ->
  NoDup (map name (done ++ todo)) ->
  valueResponses responses current
    (mkExplorer (done ++ todo) (Js.length todo) asked)
  = mkExplorer (done ++ responses) 0 asked.
Proof.
  revert todo done.
  induction responses as [| r responses IH]; intros todo done Hnames Hcounts Hdup.
  - destruct todo; [reflexivity | discriminate].
  - destruct todo as [| t todo]; [discriminate |].
    cbn in Hnames. injection Hnames as Hname Hnames.
    inversion Hcounts as [| ? ? Hr Hrest]; subst.
    unfold valueResponses. cbn [fold_left].
    unfold getVariableValueResponse at 2. rewrite Hr, Z.eqb_refl.
    cbn [variables pendingVariableCount requested].
    assert (Hbefore : Forall (fun v => (name v =? name r)%string = false) done).
    { apply Forall_forall. intros v Hin. apply String.eqb_neq. intros Heq.
      rewrite map_app in Hdup. cbn in Hdup.
      apply NoDup_remove_2 in Hdup. apply Hdup. apply in_or_app. left.
      rewrite <- Hname, <- Heq. now apply in_map. }
    assert (Hhere : (name t =? name r)%string = true)
      by (apply String.eqb_eq; congruence).
    rewrite (findIndex_middle _ done t todo Hbefore Hhere).
    replace (0 <=? Z.of_nat (List.length done)) with true
      by (symmetry; apply Z.leb_le; lia).
    unfold splice1. rewrite Nat2Z.id, update_middle.
    replace (Z.max 0 (Js.length (t :: todo) - 1)) with (Js.length todo)
      by (unfold Js.length; simpl List.length; lia).
    change (done ++ r :: todo) with (done ++ [r] ++ todo).
    rewrite app_assoc.
    change (fold_left
              (fun x' r0 => getVariableValueResponse (Some r0) current x')
              responses ?x)
      with (valueResponses responses current x).
    rewrite IH; [now rewrite <- app_assoc | exact Hnames | exact Hrest |].
    rewrite <- app_assoc. cbn.
    rewrite map_app in *. cbn in *. now rewrite Hname.
Qed.

(** A whole refresh: after a variables response for the current execution
    count, one value request has been posted per variable, in order; and
    once a value response for the current count has arrived for each of
    them, the variables are those of the value responses and
    [pendingVariableCount] is zero.  The names of the variables are
    distinct. *)
Theorem refresh_completes (vars responses : list IJupyterVariable)
    (x : Explorer) :
  NoDup (map name vars) ->
  map name responses = map name vars ->
  Forall (fun r => executionCount r = Some current) responses ->
  let x1 := getVariablesResponse (Some (mkResponse current vars)) current x in
  let x2 := valueResponses responses current x1 in
  requested x1 = requested x ++ vars
  /\ pendingVariableCount x1 = Js.length vars
  /\ variables x2 = responses
  /\ pendingVariableCount x2 = 0
  /\ requested x2 = requested x1.
Proof.
  intros Hdup Hnames Hcounts. cbv zeta.
  unfold getVariablesResponse. cbn. rewrite Z.eqb_refl. cbn.
  split; [reflexivity |]. split; [reflexivity |].
  rewrite (valueResponses_fill responses vars [] _ Hnames Hcounts Hdup).
  now repeat split.
Qed.

End VariableExplorerFacts.
(** ** Loading the tokenizer's grammar files *)

Section TokenizerFacts.
Import Tokenizer TokenizerRuns.
Context `{Deferreds}.

Lemma NoDup_snoc {A} (l : list A) (x : A) :
  NoDup l -> ~ In x l -> NoDup (l ++ [x]).
Proof.
  induction 1 as [| y l Hy Hl IH]; cbn; intros Hx.
  - constructor; [now intros [] | constructor].
  - constructor.
    + intros Hin. apply in_app_or in Hin as [Hin | [<- | []]];
        [contradiction | apply Hx; now left].
    + apply IH. intros Hin. apply Hx. now right.
Qed.

Lemma loader_invariant (calls : list LoaderCall) :
  let l := run calls in
  NoDup (requests l)
  /\ (onigasmPromise l = None -> ~ In LoadOnigasmAssemblyRequest (requests l))
  /\ (tmlangugePromise l = None -> ~ In LoadTmLanguageRequest (requests l)).
Proof.
  cbv zeta. unfold run.
  induction calls as [| call calls IH] using rev_ind.
  - cbn. repeat split; [constructor | now intros _ [] | now intros _ []].
  - rewrite fold_left_app. cbn [fold_left].
    destruct IH as (Hdup & Honig & Htm).
    set (l := fold_left step calls fresh) in *.
    destruct call as [| | payload | payload]; cbn [step].
    + unfold loadOnigasm. destruct (onigasmPromise l) eqn:Eo; cbn.
      * rewrite Eo. repeat split; [assumption | discriminate | assumption].
      * split; [| split; [discriminate |]].
        -- apply NoDup_snoc; [assumption | now apply Honig].
        -- intros Hnone Hin. apply in_app_or in Hin as [Hin | [Hin | []]];
             [now apply (Htm Hnone) | discriminate].
    + unfold loadTmlanguage. destruct (tmlangugePromise l) eqn:Et; cbn.
      * rewrite Et. repeat split; [assumption | assumption | discriminate].
      * split; [| split; [| discriminate]].
        -- apply NoDup_snoc; [assumption | now apply Htm].
        -- intros Hnone Hin. apply in_app_or in Hin as [Hin | [Hin | []]];
             [now apply (Honig Hnone) | discriminate].
    + unfold handleOnigasmResponse. destruct (onigasmPromise l) eqn:Eo; cbn.
      * repeat split; [assumption | discriminate | assumption].
      * rewrite Eo. repeat split; assumption.
    + unfold handleTmLanguageResponse.
      destruct (tmlangugePromise l) eqn:Et; cbn.
      * repeat split; [assumption | assumption | discriminate].
      * rewrite Et. repeat split; assumption.
Qed.

(** Whatever the order of the loads and of the responses, each of the two
    requests is posted at most once; a load that follows another returns the
    promise of the first without posting, and a response that arrives before
    any load is dropped. *)
Theorem grammar_requested_once (calls : list LoaderCall) :
  let l := run calls in
  NoDup (requests l)
  /\ (let first := loadOnigasm l in
      loadOnigasm (fst first) = (fst first, snd first))
  /\ (let first := loadTmlanguage l in
      loadTmlanguage (fst first) = (fst first, snd first))
  /\ (forall payload,
        onigasmPromise l = None -> handleOnigasmResponse payload l = l)
  /\ (forall payload,
        tmlangugePromise l = None -> handleTmLanguageResponse payload l = l).
Proof.
  cbv zeta. split; [apply loader_invariant |].
  split; [| split; [| split]].
  - unfold loadOnigasm. destruct (onigasmPromise (run calls)) eqn:Eo; cbn;
      [now rewrite Eo | reflexivity].
  - unfold loadTmlanguage. destruct (tmlangugePromise (run calls)) eqn:Et; cbn;
      [now rewrite Et | reflexivity].
  - intros payload Hnone. unfold handleOnigasmResponse. now rewrite Hnone.
  - intros payload Hnone. unfold handleTmLanguageResponse. now rewrite Hnone.
Qed.

End TokenizerFacts.

(** ** The [Code] component *)

Section CodeComponentFacts.
Import CodeComponent.

(** After a change of the model the watermark is rendered exactly when the
    component is editable, has [showWatermark] set and the model is empty; a
    read-only component never renders it and keeps its state, and a new
    component renders it when it is editable and [showWatermark] is set. *)
Theorem watermark_shown_when_empty (props : ICodeProps) (model : ITextModel)
    (s : ICodeState) :
  let s' := fst (onModelChanged props (Some model) s) in
  (waterMarkClass props s' = "code-watermark"
   <-> readOnly props = false /\ showWatermark props = true
       /\ valueLength model = 0)
  /\ (waterMarkClass props s' = "hide"
      \/ waterMarkClass props s' = "code-watermark")
  /\ (readOnly props = true -> s' = s /\ waterMarkClass props s = "hide")
  /\ (waterMarkClass props initialState = "code-watermark"
      <-> readOnly props = false /\ showWatermark props = true).
Proof.
  cbv zeta. destruct props as [ro sw], s as [allow].
  unfold waterMarkClass, onModelChanged, initialState.
  cbn [readOnly showWatermark allowWatermark fst].
  destruct (Z.eqb_spec (valueLength model) 0) as [Hlen | Hlen];
    destruct ro, sw, allow; cbn;
    (split; [split; [intros Hc; try discriminate Hc; repeat split; auto
                    | intros (Hr & Hs & Hl); try discriminate; try reflexivity;
                      try contradiction]
            | split; [auto | split; [intros Hr; try discriminate Hr; split;
                                     reflexivity
                                    | split; [intros Hc; try discriminate Hc;
                                              split; reflexivity
                                             | intros (Hr & Hs);
                                               try discriminate;
                                               reflexivity]]]]).
Qed.

End CodeComponentFacts.

(** ** A notebook that does not load *)

Section LoadRejected.
Context `{IpynbEditor.Imports} `{InteractiveWindowMessages}.

(** When the import of the content fails, [load] rejects, but the editor has
    already taken the new file and set the new title; nothing was posted to
    the web view. *)
Theorem load_rejected (content : string) (file : IpynbEditor.Uri)
    (e : IpynbEditor.Editor) :
  IpynbEditor.importCells content = None ->
  exists e',
    IpynbEditor.load content file e = IpynbEditor.Rejected e'
    /\ IpynbEditor.file e' = file
    /\ IpynbEditor.baseCalls e'
       = IpynbEditor.baseCalls e
         ++ [IpynbEditor.setTitle
               (IpynbEditor.basename (IpynbEditor.fsPath file))].
Proof.
  intros Himport. unfold IpynbEditor.load. rewrite Himport.
  eexists. split; [reflexivity |]. split; reflexivity.
Qed.

End LoadRejected.

Lemma load_rejected_witness :
  exists e',
    @IpynbEditor.load Sample.imports Sample.names "" Sample.notebook
      Sample.closedEditor = IpynbEditor.Rejected e'
    /\ IpynbEditor.file e' = Sample.notebook
    /\ IpynbEditor.baseCalls e' = [IpynbEditor.setTitle "nb.ipynb"].
Proof.
  destruct (@load_rejected Sample.imports Sample.names "" Sample.notebook
              Sample.closedEditor eq_refl) as (e' & Hrun & Hfile & Hcalls).
  exists e'. split; [exact Hrun |]. split; [exact Hfile | exact Hcalls].
Defined.
Lemma pending_within_bounds_witness :
  let x1 :=
    VariableExplorer.getVariablesResponse
      (Some (VariableExplorer.mkResponse 3 [MoreInputs.x; MoreInputs.y])) 3
      MoreInputs.noVariables in
  VariableExplorer.pendingVariableCount x1 = 2
  /\ (0 <=? VariableExplorer.pendingVariableCount
              (VariableExplorer.getVariableValueResponse
                 (Some MoreInputs.xValue) 3 x1)) = true.
Proof.
  cbv zeta. split; [reflexivity |]. apply Z.leb_le.
  apply (pending_within_bounds 3
           (VariableExplorer.getVariablesResponse
              (Some (VariableExplorer.mkResponse 3
                       [MoreInputs.x; MoreInputs.y])) 3
              MoreInputs.noVariables)).
  cbn. lia.
Defined.

Lemma refresh_completes_witness :
  let x1 :=
    VariableExplorer.getVariablesResponse
      (Some (VariableExplorer.mkResponse 3 [MoreInputs.x; MoreInputs.y])) 3
      MoreInputs.noVariables in
  let x2 :=
    VariableExplorer.valueResponses [MoreInputs.xValue; MoreInputs.yValue] 3 x1 in
  VariableExplorer.variables x2 = [MoreInputs.xValue; MoreInputs.yValue]
  /\ VariableExplorer.pendingVariableCount x2 = 0.
Proof.
  cbv zeta.
  destruct (refresh_completes 3 [MoreInputs.x; MoreInputs.y]
              [MoreInputs.xValue; MoreInputs.yValue] MoreInputs.noVariables)
    as (_ & _ & Hvars & Hpending & _).
  - repeat constructor; cbn; intuition discriminate.
  - reflexivity.
  - repeat constructor.
  - split; [exact Hvars | exact Hpending].
Defined.

(** ** Submitting the edit cell *)

Section SubmitInput.
Context `{Host} `{X : Externals} `{@ControllerClass X} `{InteractiveWindowMessages}.
Variable props : IMainStateControllerProps.

(** [submitInput] of the edit cell, when [createCellVM] and [alterCellVM]
    keep the cell they are given: the list gets one more view-model, marked
    as direct input, whose cell has the new id; a first line that is markdown
    makes it a finished markdown cell and nothing is posted, otherwise the
    cell is executing with the code as its source and one [SubmitNewCell]
    with the code and the new id is posted. *)
Theorem submitInput_edit_cell (code fresh : string) (input : ICellViewModel)
    (c : Controller) (cells : list ICellViewModel) :
  (forall target st canEdit, cell (createCellVM target st canEdit) = target) ->
  (forall st vm visible expanded,
      cell (this_alterCellVM st vm visible expanded) = cell vm) ->
  id (cell input) = EditCellId ->
  cellVMs (mainState c) = Some cells ->
  exists c' added,
    submitInput props code (Some input) fresh c = Returned tt c'
    /\ cellVMs (mainState c') = Some (cells ++ [added])
    /\ id (cell added) = fresh
    /\ directInput added = Some true
    /\ (isMarkdown (settings c) (Js.get (splitLines code) 0) = true ->
        state (cell added) = finished
        /\ cell_type (data (cell added)) = "markdown"
        /\ source (data (cell added))
           = generateMarkdownFromCodeLines (splitLines code)
        /\ posted c' = posted c)
    /\ (isMarkdown (settings c) (Js.get (splitLines code) 0) = false ->
        state (cell added) = executing
        /\ cell_type (data (cell added)) = cell_type (data (cell input))
        /\ source (data (cell added)) = code
        /\ posted c' = posted c ++ [mkMessage SubmitNewCell (SentCode code fresh)]).
Proof.
  intros Hcreate Halter Hedit Hcells.
  unfold submitInput. rewrite Hedit, String.eqb_refl.
  unfold bind, getSettings, getState, defined, ret, setState, sendMessage.
  rewrite Hcells. cbv beta iota zeta.
  rewrite !Halter, !Hcreate.
  destruct (isMarkdown (settings c) (Js.get (splitLines code) 0)) eqn:Emd.
  - cbn [id with_state with_data]. rewrite Hedit, String.eqb_refl.
    cbn [cell with_cell with_directInput state with_id with_state].
    eexists _, _. split; [reflexivity |]. cbn [mainState cellVMs set_cellVMs
      set_undoStack set_redoStack set_skipNextScroll set_submittedText].
    split; [reflexivity |].
    cbn. rewrite ?Halter, ?Hcreate. cbn.
    repeat split; discriminate.
  - cbn [id with_state with_data]. rewrite Hedit, String.eqb_refl.
    cbn [cell with_cell with_directInput state with_id with_state].
    eexists _, _. split; [reflexivity |]. cbn [mainState cellVMs set_cellVMs
      set_undoStack set_redoStack set_skipNextScroll set_submittedText].
    split; [reflexivity |].
    cbn. rewrite ?Halter, ?Hcreate. cbn.
    repeat split; discriminate.
Qed.

End SubmitInput.

Lemma submitInput_edit_cell_witness :
  exists c',
    @submitInput Sample.host Sample.externals Sample.main Sample.names
      Sample.production "z = 3" (Some MoreInputs.editCell) "fresh-id"
      Sample.oneCell = Returned tt c'
    /\ option_map (map (fun vm => id (cell vm))) (cellVMs (mainState c'))
       = Some ["c1"; "fresh-id"]
    /\ posted c' = [mkMessage "submit_new_cell" (SentCode "z = 3" "fresh-id")].
Proof.
  destruct (@submitInput_edit_cell Sample.host Sample.externals Sample.main
              Sample.names Sample.production "z = 3" "fresh-id"
              MoreInputs.editCell Sample.oneCell [Sample.shownOpen])
    as (c' & added & Hrun & Hcells & Hid & _ & _ & Hcode).
  - reflexivity.
  - intros st vm visible expanded.
    apply (alterCellVM_frame (X := Sample.externals) st vm visible expanded).
  - reflexivity.
  - reflexivity.
  - exists c'. split; [exact Hrun |].
    destruct (Hcode eq_refl) as (_ & _ & _ & Hposted).
    rewrite Hcells, Hposted. unfold option_map. rewrite map_app.
    cbn [map]. rewrite Hid. split; reflexivity.
Defined.
